(** * Classical Laminate Theory engine of openLayup

    A shallow embedding of [structlib/classical_laminate.py]
    (class [LaminateAnalysis]) over the real numbers, and the proofs of the
    properties the specification states about it; then the load estimators
    of [structlib/component.py], the catalogue of [structlib/material.py]
    and the coordinates of the original script, with further properties of
    the code.

    Python floats are idealised as the reals [R]; numpy arrays are lists
    ([vector]) and lists of rows ([matrix]); Python exceptions are the
    [Raise] branch of [result]. *)

From Stdlib Require Import Reals List ZArith Lia Lra RNsatz Bool Classical.
From Stdlib Require String.
Import String.StringSyntax.
Import ListNotations.
Local Open Scope R_scope.
Delimit Scope string_scope with string.

(** ** Exceptions and the error monad *)

(** The Python exceptions the engine can raise: a float division by zero, an
    index outside a list or array, numpy's [LinAlgError] ("Singular matrix")
    and numpy's [ValueError] of a [reshape] that does not fit. *)
Inductive exception : Set :=
  | ZeroDivisionError
  | IndexError
  | LinAlgError
  | ValueError.

Inductive result (X : Type) : Type :=
  | Ok (x : X)
  | Raise (e : exception).
Arguments Ok {X} x.
Arguments Raise {X} e.

Definition bind {X Y : Type} (r : result X) (f : X -> result Y) : result Y :=
  match r with
  | Ok x => f x
  | Raise e => Raise e
  end.

Notation "x <- r ;; k" := (bind r (fun x => k))
  (at level 61, r at next level, right associativity).
Notation "' p <- r ;; k" := (bind r (fun p => k))
  (at level 61, p pattern, r at next level, right associativity).

(** [for i in range(n): s = body(i, s)], stopping at the first exception. *)
Fixpoint foldM {S : Type} (body : nat -> S -> result S) (l : list nat) (s : S)
  : result S :=
  match l with
  | [] => Ok s
  | i :: l' => s' <- body i s ;; foldM body l' s'
  end.

Definition for_range {S : Type} (n : nat) (body : nat -> S -> result S) (s : S)
  : result S :=
  foldM body (seq 0 n) s.

(** ** Python and numpy primitives *)

(** [x / y] on Python floats. *)
Definition py_div (x y : R) : result R :=
  if Req_EM_T y 0 then Raise ZeroDivisionError else Ok (x / y).

(** [l[i]] for a Python list or a numpy array: a negative index counts from
    the end, an index outside [-len, len) raises [IndexError]. *)
Definition py_index {X : Type} (l : list X) (i : Z) : result X :=
  let n := Z.of_nat (length l) in
  let j := if (i <? 0)%Z then (i + n)%Z else i in
  if ((0 <=? j) && (j <? n))%Z then
    match nth_error l (Z.to_nat j) with
    | Some x => Ok x
    | None => Raise IndexError
    end
  else Raise IndexError.

Abbreviation vector := (list R) (only parsing).
Abbreviation matrix := (list (list R)) (only parsing).

(** [np.sum] of a one-dimensional array. *)
Definition np_sum (v : vector) : R := fold_right Rplus 0 v.

(** [np.zeros] and [np.full]. *)
Definition np_zeros (n : nat) : vector := repeat 0 n.
Definition np_zeros2 (r c : nat) : matrix := repeat (np_zeros c) r.
Definition np_full (n : nat) (x : R) : vector := repeat x n.

(** [l[i] = x] for [i] inside the list. *)
Fixpoint list_set {X : Type} (l : list X) (i : nat) (x : X) : list X :=
  match l, i with
  | [], _ => []
  | _ :: l', O => x :: l'
  | y :: l', S i' => y :: list_set l' i' x
  end.

(** [M[i, j]] and [M[i, j] += x] for [i], [j] inside the array. *)
Definition mget (M : matrix) (i j : nat) : R := nth j (nth i M []) 0.
Definition madd (M : matrix) (i j : nat) (x : R) : matrix :=
  list_set M i (list_set (nth i M []) j (mget M i j + x)).

(** Element-wise array arithmetic. *)
Fixpoint vadd (u v : vector) : vector :=
  match u, v with
  | a :: u', b :: v' => (a + b) :: vadd u' v'
  | _, _ => []
  end.
Fixpoint vsub (u v : vector) : vector :=
  match u, v with
  | a :: u', b :: v' => (a - b) :: vsub u' v'
  | _, _ => []
  end.
Definition vscale (a : R) (v : vector) : vector := map (Rmult a) v.

(** The matrix product [@]. *)
Fixpoint dot (u v : vector) : R :=
  match u, v with
  | a :: u', b :: v' => a * b + dot u' v'
  | _, _ => 0
  end.
Definition col (M : matrix) (j : nat) : vector := map (fun r => nth j r 0) M.
Definition ncols (M : matrix) : nat := length (hd [] M).
Definition transpose (M : matrix) : matrix := map (col M) (seq 0 (ncols M)).
Definition matvec (M : matrix) (x : vector) : vector := map (fun r => dot r x) M.
Definition matmul (M N : matrix) : matrix :=
  map (fun r => map (dot r) (transpose N)) M.

(** [np.block([[A, B], [C, D]])]. *)
Fixpoint hstack (M N : matrix) : matrix :=
  match M, N with
  | r :: M', s :: N' => (r ++ s) :: hstack M' N'
  | _, _ => []
  end.
Definition np_block (A B C D : matrix) : matrix := hstack A B ++ hstack C D.

(** ** The linear solver behind [np.linalg.solve] and [np.linalg.inv]

    LAPACK's [gesv] is Gaussian elimination with row pivoting.  Over the reals
    the pivot can be any row whose leading coefficient is not zero (the
    solution does not depend on the choice); the solver gives up exactly when
    a column has no such row, which numpy reports as [LinAlgError]. An
    equation is a row of coefficients with its right-hand side. *)
Abbreviation equation := (list R * R)%type (only parsing).

Definition lead (e : equation) : R := hd 0 (fst e).

Fixpoint find_pivot (eqs : list equation) : option (equation * list equation) :=
  match eqs with
  | [] => None
  | e :: rest =>
      if Req_EM_T (lead e) 0 then
        match find_pivot rest with
        | Some (p, others) => Some (p, e :: others)
        | None => None
        end
      else Some (e, rest)
  end.

(** Subtract from [e] the multiple of the pivot row that clears its leading
    coefficient, and drop that column. *)
Definition eliminate (p e : equation) : equation :=
  let f := lead e / lead p in
  (vsub (tl (fst e)) (vscale f (tl (fst p))), snd e - f * snd p).

(** Back substitution for the pivot row once the other unknowns are known. *)
Definition back_substitute (p : equation) (xs : vector) : R :=
  (snd p - dot (tl (fst p)) xs) / lead p.

Fixpoint gauss (n : nat) (eqs : list equation) : option vector :=
  match n with
  | O => Some []
  | S n' =>
      match find_pivot eqs with
      | None => None
      | Some (p, others) =>
          match gauss n' (map (eliminate p) others) with
          | None => None
          | Some xs => Some (back_substitute p xs :: xs)
          end
      end
  end.

(** [np.linalg.solve(M, b)] for a square [M] and a vector [b]. *)
Definition linalg_solve (M : matrix) (b : vector) : result vector :=
  match gauss (length M) (combine M b) with
  | Some x => Ok x
  | None => Raise LinAlgError
  end.

(** The [j]-th column of the [n] by [n] identity. *)
Definition unit_vector (n j : nat) : vector :=
  map (fun i => if Nat.eqb i j then 1 else 0) (seq 0 n).

Fixpoint mapM {X Y : Type} (f : X -> result Y) (l : list X) : result (list Y) :=
  match l with
  | [] => Ok []
  | x :: l' => y <- f x ;; ys <- mapM f l' ;; Ok (y :: ys)
  end.

(** [np.linalg.inv(M)]: [gesv] against the identity, column by column. *)
Definition linalg_inv (M : matrix) : result matrix :=
  cols <- mapM (fun j => linalg_solve M (unit_vector (length M) j))
               (seq 0 (length M)) ;;
  Ok (map (col cols) (seq 0 (length M))).

(** ** The laminate object *)

(** The [material_properties] dictionary: the four keys the constructor
    reads. *)
Module Material.
Record dict : Type := {
  E11 : R;
  E22 : R;
  G12 : R;
  V12 : R
}.
End Material.

(** The attributes of a [LaminateAnalysis] instance, named as in the class. *)
Module Self.
Record LaminateAnalysis : Type := {
  angles : vector;
  theta : vector;
  t : vector;
  k : nat;
  E11 : R;
  E22 : R;
  G12 : R;
  V12 : R;
  V21 : R;
  Q : matrix;
  z : vector;
  z_m : vector;
  Q_bar : list matrix;
  T : list matrix;
  T_e : list matrix;
  A : matrix;
  B : matrix;
  D : matrix
}.
End Self.

(** The [thicknesses] argument: one number ([isinstance(thicknesses,
    (int, float))]) or a sequence of numbers. *)
Inductive thicknesses_arg : Type :=
  | Number (x : R)
  | Sequence (l : list R).

(** ** Methods of [LaminateAnalysis] *)

Definition _calculate_Q (E11 E22 G12 V12 V21 : R) : result matrix :=
  q00 <- py_div E11 (1 - V12 * V21) ;;
  q01 <- py_div (V21 * E11) (1 - V12 * V21) ;;
  q10 <- py_div (V12 * E22) (1 - V12 * V21) ;;
  q11 <- py_div E22 (1 - V12 * V21) ;;
  Ok [ [q00; q01; 0];
       [q10; q11; 0];
       [0; 0; G12] ].

Definition z_step (t : vector) (i : nat) (st : vector * vector * R)
  : result (vector * vector * R) :=
  let '(z, z_m, current_z) := st in
  ti <- py_index t (Z.of_nat i) ;;
  Ok (list_set z i (current_z + ti),
      list_set z_m i (current_z + ti / 2),
      current_z + ti).

Definition _calculate_z_coordinates (t : vector) (k : nat)
  : result (vector * vector) :=
  let t_total := np_sum t in
  let z := np_zeros k in
  let z_m := np_zeros k in
  let current_z := - t_total / 2 in
  '(z, z_m, _) <- for_range k (z_step t) (z, z_m, current_z) ;;
  Ok (z, z_m).

(** The stress transform [T] and the strain transform [T_e] for
    [c = cos theta], [s = sin theta]. *)
Definition T_matrix (c s : R) : matrix :=
  [ [c ^ 2; s ^ 2; 2 * s * c];
    [s ^ 2; c ^ 2; - 2 * s * c];
    [- s * c; s * c; c ^ 2 - s ^ 2] ].

Definition T_e_matrix (c s : R) : matrix :=
  [ [c ^ 2; s ^ 2; s * c];
    [s ^ 2; c ^ 2; - s * c];
    [- 2 * s * c; 2 * s * c; c ^ 2 - s ^ 2] ].

Definition _calculate_transformation (theta_rad : R) (Q : matrix)
  : result (matrix * matrix * matrix) :=
  let c := cos theta_rad in
  let s := sin theta_rad in
  let T := T_matrix c s in
  let T_e := T_e_matrix c s in
  T_inv <- linalg_inv T ;;
  let Q_bar := matmul (matmul T_inv Q) T_e in
  Ok (T, T_e, Q_bar).

Definition abd_step (Q_bar : list matrix) (t z : vector) (i j ply : nat)
  (acc : matrix * matrix * matrix) : result (matrix * matrix * matrix) :=
  let '(A, B, D) := acc in
  Qp <- py_index Q_bar (Z.of_nat ply) ;;
  tp <- py_index t (Z.of_nat ply) ;;
  zp <- py_index z (Z.of_nat ply) ;;
  Ok (madd A i j (mget Qp i j * tp),
      madd B i j (0.5 * mget Qp i j * (zp ^ 2 - (zp - tp) ^ 2)),
      madd D i j ((1 / 3) * mget Qp i j * (zp ^ 3 - (zp - tp) ^ 3))).

Definition _calculate_ABD_matrices (k : nat) (Q_bar : list matrix) (t z : vector)
  : result (matrix * matrix * matrix) :=
  let A := np_zeros2 3 3 in
  let B := np_zeros2 3 3 in
  let D := np_zeros2 3 3 in
  for_range 3 (fun i =>
    for_range 3 (fun j =>
      for_range k (abd_step Q_bar t z i j))) (A, B, D).

(** The loop of the constructor that fills [self.T], [self.T_e] and
    [self.Q_bar]. *)
Definition transform_step (theta : vector) (Q : matrix) (i : nat)
  (acc : list matrix * list matrix * list matrix)
  : result (list matrix * list matrix * list matrix) :=
  let '(Ts, T_es, Q_bars) := acc in
  th <- py_index theta (Z.of_nat i) ;;
  '(T, T_e, Q_bar) <- _calculate_transformation th Q ;;
  Ok (Ts ++ [T], T_es ++ [T_e], Q_bars ++ [Q_bar]).

(** [LaminateAnalysis.__init__]. *)
Definition __init__ (layup_angles : list R) (thicknesses : thicknesses_arg)
  (material_properties : Material.dict) : result Self.LaminateAnalysis :=
  let angles := layup_angles in
  let theta := map (fun a => a * PI / 180) layup_angles in
  let t := match thicknesses with
           | Number x => np_full (length angles) x
           | Sequence l => l
           end in
  let k := length angles in
  let E11 := Material.E11 material_properties in
  let E22 := Material.E22 material_properties in
  let G12 := Material.G12 material_properties in
  let V12 := Material.V12 material_properties in
  V21 <- py_div (V12 * E22) E11 ;;
  Q <- _calculate_Q E11 E22 G12 V12 V21 ;;
  '(z, z_m) <- _calculate_z_coordinates t k ;;
  '(T, T_e, Q_bar) <- for_range k (transform_step theta Q) ([], [], []) ;;
  '(A, B, D) <- _calculate_ABD_matrices k Q_bar t z ;;
  Ok {| Self.angles := angles; Self.theta := theta; Self.t := t; Self.k := k;
        Self.E11 := E11; Self.E22 := E22; Self.G12 := G12; Self.V12 := V12;
        Self.V21 := V21; Self.Q := Q; Self.z := z; Self.z_m := z_m;
        Self.Q_bar := Q_bar; Self.T := T; Self.T_e := T_e;
        Self.A := A; Self.B := B; Self.D := D |}.

(** [v.reshape(3, 1)]: the array must hold three numbers. *)
Definition reshape_3_1 (v : vector) : result vector :=
  if Nat.eqb (length v) 3 then Ok v else Raise ValueError.

(** The 6 by 6 matrix [np.block([[A, B], [B, D]])] of a laminate. *)
Definition abd_matrix (self : Self.LaminateAnalysis) : matrix :=
  np_block (Self.A self) (Self.B self) (Self.B self) (Self.D self).

Definition calculate_response (self : Self.LaminateAnalysis)
  (forces moments : vector) : result (vector * vector) :=
  f <- reshape_3_1 forces ;;
  m <- reshape_3_1 moments ;;
  let load_vector := f ++ m in
  result <- linalg_solve (abd_matrix self) load_vector ;;
  let midplane_strains := firstn 3 result in
  let curvatures := skipn 3 result in
  Ok (midplane_strains, curvatures).

(** [u + v] on two arrays of one axis, or on two columns (the shape
    [(3, 1)] that [calculate_response] returns): element by element when the
    lengths agree; an array of one element is broadcast over the other; any
    other pair of lengths raises [ValueError]. *)
Definition np_add (u v : vector) : result vector :=
  if Nat.eqb (length u) (length v) then Ok (vadd u v)
  else if Nat.eqb (length u) 1 then Ok (map (Rplus (hd 0 u)) v)
  else if Nat.eqb (length v) 1 then Ok (map (fun a => a + hd 0 v) u)
  else Raise ValueError.

(** [M @ x] for a two-dimensional [M] and an array [x] of one axis, or a
    column: [x] must be as long as the rows of [M], or numpy raises
    [ValueError]. *)
Definition np_matmul (M : matrix) (x : vector) : result vector :=
  if Nat.eqb (length x) (ncols M) then Ok (matvec M x) else Raise ValueError.

(** Ply recovery. [self.z_m[ply_idx, 0]] is read before any array is added
    or multiplied, so a ply number out of range raises [IndexError] whatever
    the strains and curvatures are. *)
Definition calculate_ply_strains_stresses (self : Self.LaminateAnalysis)
  (midplane_strains curvatures : vector) (ply_number : Z)
  : result (vector * vector * vector * vector) :=
  let ply_idx := (ply_number - 1)%Z in
  zm <- py_index (Self.z_m self) ply_idx ;;
  global_strain <- np_add midplane_strains (vscale zm curvatures) ;;
  Qb <- py_index (Self.Q_bar self) ply_idx ;;
  global_stress <- np_matmul Qb global_strain ;;
  Te <- py_index (Self.T_e self) ply_idx ;;
  local_strain <- np_matmul Te global_strain ;;
  Tn <- py_index (Self.T self) ply_idx ;;
  local_stress <- np_matmul Tn global_stress ;;
  Ok (global_strain, global_stress, local_strain, local_stress).

(** ** Definitions used to state the properties *)

(** A square matrix: as many columns in every row as there are rows. *)
Definition square (M : matrix) : Prop :=
  Forall (fun r => length r = length M) M.

(** A matrix is non-singular when only the zero vector is sent to zero, and
    singular when some other vector is. *)
Definition nonsingular (M : matrix) : Prop :=
  forall x : vector,
    length x = length M -> matvec M x = np_zeros (length M) ->
    x = np_zeros (length M).

Definition singular (M : matrix) : Prop :=
  exists x : vector,
    length x = length M /\ matvec M x = np_zeros (length M) /\
    x <> np_zeros (length M).

(** The specification calls a matrix numerically singular when its
    condition number is beyond a threshold, or when it is rank deficient. The
    condition number (in the Euclidean norm) is the greatest ratio between
    the stretch [|M x| / |x|] of one vector and the stretch [|M y| / |y|] of
    another. For a threshold [c > 0] it is at least [c] when two non-zero
    vectors reach that ratio; a singular matrix reaches every ratio. Norms
    are compared through their squares. *)
Definition norm_sq (v : vector) : R := dot v v.

Definition numerically_singular (c : R) (M : matrix) : Prop :=
  exists x y : vector,
    length x = length M /\ length y = length M /\
    0 < norm_sq x /\ 0 < norm_sq y /\
    c ^ 2 * (norm_sq (matvec M y) * norm_sq x) <=
      norm_sq (matvec M x) * norm_sq y.

Definition symmetric3 (M : matrix) : Prop :=
  forall i j : nat, (i < 3)%nat -> (j < 3)%nat -> mget M i j = mget M j i.

(** A 3 by 3 array. *)
Definition shape3 (M : matrix) : Prop :=
  length M = 3%nat /\ Forall (fun r => length r = 3%nat) M.

Definition identity3 : matrix := [ [1; 0; 0]; [0; 1; 0]; [0; 0; 1] ].

(** The inverse of [T]: the stress transform for the opposite angle, which
    is the transpose of [T_e]. *)
Definition T_inv_matrix (c s : R) : matrix :=
  [ [c ^ 2; s ^ 2; - 2 * s * c];
    [s ^ 2; c ^ 2; 2 * s * c];
    [s * c; - s * c; c ^ 2 - s ^ 2] ].

(** The material-axis stiffness [_calculate_Q] returns, and the global-axis
    stiffness [_calculate_transformation] returns for the angle [th]. *)
Definition Q_matrix (E11 E22 G12 V12 V21 : R) : matrix :=
  [ [E11 / (1 - V12 * V21); V21 * E11 / (1 - V12 * V21); 0];
    [V12 * E22 / (1 - V12 * V21); E22 / (1 - V12 * V21); 0];
    [0; 0; G12] ].

Definition Q_bar_matrix (Q : matrix) (th : R) : matrix :=
  matmul (matmul (T_inv_matrix (cos th) (sin th)) Q)
         (T_e_matrix (cos th) (sin th)).

(** The array [self.t] the constructor builds from its arguments. *)
Definition thickness_array (layup_angles : list R) (thicknesses : thicknesses_arg)
  : vector :=
  match thicknesses with
  | Number x => np_full (length layup_angles) x
  | Sequence l => l
  end.

(** The sum of [f ply] over the plies [0 .. k-1]. *)
Fixpoint sum_over_plies (f : nat -> R) (k : nat) : R :=
  match k with
  | O => 0
  | S k' => sum_over_plies f k' + f k'
  end.

(** The entries of A, B and D as the specification writes them, for the ply
    data of a laminate. *)
Definition A_entry (self : Self.LaminateAnalysis) (i j : nat) : R :=
  sum_over_plies
    (fun ply => mget (nth ply (Self.Q_bar self) []) i j * nth ply (Self.t self) 0)
    (Self.k self).

Definition B_entry (self : Self.LaminateAnalysis) (i j : nat) : R :=
  (1 / 2) *
  sum_over_plies
    (fun ply =>
       mget (nth ply (Self.Q_bar self) []) i j *
       (nth ply (Self.z self) 0 ^ 2 -
        (nth ply (Self.z self) 0 - nth ply (Self.t self) 0) ^ 2))
    (Self.k self).

Definition D_entry (self : Self.LaminateAnalysis) (i j : nat) : R :=
  (1 / 3) *
  sum_over_plies
    (fun ply =>
       mget (nth ply (Self.Q_bar self) []) i j *
       (nth ply (Self.z self) 0 ^ 3 -
        (nth ply (Self.z self) 0 - nth ply (Self.t self) 0) ^ 3))
    (Self.k self).

(** What one ply adds to [A[i, j]], [B[i, j]] and [D[i, j]] in
    [_calculate_ABD_matrices]. *)
Definition A_term (Q_bar : list matrix) (t : vector) (i j ply : nat) : R :=
  mget (nth ply Q_bar []) i j * nth ply t 0.

Definition B_term (Q_bar : list matrix) (t z : vector) (i j ply : nat) : R :=
  0.5 * mget (nth ply Q_bar []) i j *
  (nth ply z 0 ^ 2 - (nth ply z 0 - nth ply t 0) ^ 2).

Definition D_term (Q_bar : list matrix) (t z : vector) (i j ply : nat) : R :=
  (1 / 3) * mget (nth ply Q_bar []) i j *
  (nth ply z 0 ^ 3 - (nth ply z 0 - nth ply t 0) ^ 3).

(** [M'] is the 3 by 3 array [M] with [f i j] added to every entry. *)
Definition accumulated (M M' : matrix) (f : nat -> nat -> R) : Prop :=
  shape3 M' /\ forall i j : nat, mget M' i j = mget M i j + f i j.

(** A small laminate used to exercise the statements: one material, plies at
    0, 45 and 90 degrees. *)
Definition example_material : Material.dict :=
  {| Material.E11 := 2; Material.E22 := 1; Material.G12 := 1;
     Material.V12 := 1 / 2 |}.

Definition example_angles : list R := [0; 45; 90].

(** A system of [n] equations in [n] unknowns, and what it is for a vector
    to satisfy one. *)
Definition system (n : nat) (eqs : list equation) : Prop :=
  length eqs = n /\ Forall (fun e => length (fst e) = n) eqs.

Definition satisfies (eqs : list equation) (x : vector) : Prop :=
  Forall (fun e => dot (fst e) x = snd e) eqs.

Definition kernel_trivial (n : nat) (eqs : list equation) : Prop :=
  forall y : vector,
    length y = n -> Forall (fun e => dot (fst e) y = 0) eqs -> y = np_zeros n.

(** ** The reporting methods of [LaminateAnalysis] *)

(** Arithmetic on numpy floats. A numpy division by zero raises nothing: it
    gives [inf] or [nan] (with a warning), and every later product or
    difference with that value is again [inf] or [nan]. [None] stands for
    such a value, [Some x] for the finite number [x]; the divisors in
    [get_engineering_constants] are always finite. *)
Definition np_div (x : option R) (y : R) : option R :=
  match x with
  | Some a => if Req_EM_T y 0 then None else Some (a / y)
  | None => None
  end.

Definition np_mul (x y : option R) : option R :=
  match x, y with
  | Some a, Some b => Some (a * b)
  | _, _ => None
  end.

Definition np_sub (x y : option R) : option R :=
  match x, y with
  | Some a, Some b => Some (a - b)
  | _, _ => None
  end.

(** The dictionary [get_engineering_constants] returns. *)
Module Constants.
Record dict : Type := {
  Ex : option R;
  Ey : option R;
  Gxy : option R;
  vxy : option R;
  vyx : option R
}.
End Constants.

Definition get_engineering_constants (self : Self.LaminateAnalysis)
  : Constants.dict :=
  let t_total := np_sum (Self.t self) in
  let A := Self.A self in
  let Ex :=
    np_mul (np_div (Some (mget A 0 0)) t_total)
           (np_sub (Some 1)
                   (np_div (Some (mget A 0 1 ^ 2)) (mget A 0 0 * mget A 1 1))) in
  let Ey :=
    np_mul (np_div (Some (mget A 1 1)) t_total)
           (np_sub (Some 1)
                   (np_div (Some (mget A 0 1 ^ 2)) (mget A 0 0 * mget A 1 1))) in
  let Gxy := np_div (Some (mget A 2 2)) t_total in
  let vxy := np_div (Some (mget A 0 1)) (mget A 1 1) in
  let vyx := np_div (Some (mget A 0 1)) (mget A 0 0) in
  {| Constants.Ex := Ex; Constants.Ey := Ey; Constants.Gxy := Gxy;
     Constants.vxy := vxy; Constants.vyx := vyx |}.

(** [collections.Counter]: the distinct elements in the order they first
    occur, each with the number of its occurrences; a missing key reads as
    zero. *)
Fixpoint counter_add (c : list (R * nat)) (x : R) : list (R * nat) :=
  match c with
  | [] => [(x, 1%nat)]
  | (y, n) :: c' =>
      if Req_EM_T x y then (y, S n) :: c' else (y, n) :: counter_add c' x
  end.

Definition Counter (l : list R) : list (R * nat) := fold_left counter_add l [].

Fixpoint counter_get (c : list (R * nat)) (x : R) : nat :=
  match c with
  | [] => 0%nat
  | (y, n) :: c' => if Req_EM_T x y then n else counter_get c' x
  end.

(** The dictionary [analyze_layup_distribution] returns; the keys ['0_deg'],
    ['45_deg'] and ['90_deg'] of its ['percentages'] entry are the fields
    [deg_0], [deg_45] and [deg_90]. *)
Module Distribution.
Record percentages_dict : Type := {
  deg_0 : R;
  deg_45 : R;
  deg_90 : R
}.
Record dict : Type := {
  counts : list (R * nat);
  percentages : percentages_dict;
  total_plies : nat
}.
End Distribution.

Definition analyze_layup_distribution (self : Self.LaminateAnalysis)
  : result Distribution.dict :=
  let angle_counts := Counter (Self.angles self) in
  let total_plies := length (Self.angles self) in
  p0 <- py_div (INR (counter_get angle_counts 0)) (INR total_plies) ;;
  p45 <- py_div (INR (counter_get angle_counts 45 +
                      counter_get angle_counts (- 45)))
                (INR total_plies) ;;
  p90 <- py_div (INR (counter_get angle_counts 90)) (INR total_plies) ;;
  Ok {| Distribution.counts := angle_counts;
        Distribution.percentages :=
          {| Distribution.deg_0 := p0 * 100;
             Distribution.deg_45 := p45 * 100;
             Distribution.deg_90 := p90 * 100 |};
        Distribution.total_plies := total_plies |}.

(** ** The original script, [ogCode_deleteLater.py] *)

(** [calc_zs(t, k)]: the coordinates of [k] plies of one thickness [t]. *)
Definition calc_zs_step (t tlam : R) (st : list R * list R) (i : nat)
  : list R * list R :=
  let '(z, z_m) := st in
  (list_set z i (- tlam * 0.5 + t * INR (i + 1)),
   list_set z_m i (- 0.5 * (tlam - t) + INR i * t)).

Definition calc_zs (t : R) (k : nat) : list R * list R :=
  let tlam := t * INR k in
  fold_left (calc_zs_step t tlam) (seq 0 k) (np_zeros k, np_zeros k).

(** A symmetric 6 by 6 array. *)
Definition symmetric6 (M : matrix) : Prop :=
  forall i j : nat, (i < 6)%nat -> (j < 6)%nat -> mget M i j = mget M j i.

(** ** Components, [structlib/component.py] *)

(** The load estimators read numbers out of two dictionaries, the
    [geometry] of the component and the [flight_conditions]. A dictionary is
    the list of its items; a missing key raises [KeyError] under [d[key]]
    and gives the default under [d.get(key, default)]. *)
Module Component.

Inductive exception : Type :=
  | KeyError (key : String.string)
  | ZeroDivisionError
  | NotImplementedError.

Inductive result (X : Type) : Type :=
  | Return (x : X)
  | Throw (e : exception).
Arguments Return {X} x.
Arguments Throw {X} e.

Definition bind {X Y : Type} (r : result X) (f : X -> result Y) : result Y :=
  match r with
  | Return x => f x
  | Throw e => Throw e
  end.

Fixpoint lookup (d : list (String.string * R)) (key : String.string)
  : option R :=
  match d with
  | [] => None
  | (k, v) :: d' => if String.eqb k key then Some v else lookup d' key
  end.

(** [d[key]] *)
Definition getitem (d : list (String.string * R)) (key : String.string)
  : result R :=
  match lookup d key with
  | Some v => Return v
  | None => Throw (KeyError key)
  end.

(** [d.get(key, default)] *)
Definition get (d : list (String.string * R)) (key : String.string)
  (default : R) : R :=
  match lookup d key with
  | Some v => v
  | None => default
  end.

(** [x / y] on Python floats. *)
Definition div (x y : R) : result R :=
  if Req_EM_T y 0 then Throw ZeroDivisionError else Return (x / y).

(** The dictionary [get_loads] returns. *)
Record loads : Type := {
  forces : list R;
  moments : list R
}.

(** [Component.get_loads], which the subclasses override. *)
Definition get_loads (geometry flight_conditions : list (String.string * R))
  : result loads :=
  Throw NotImplementedError.

End Component.

Notation "x <~ r ;; k" := (Component.bind r (fun x => k))
  (at level 61, r at next level, right associativity).

Module NoseCone.
Definition get_loads (geometry flight_conditions : list (String.string * R))
  : Component.result Component.loads :=
  velocity <~ Component.getitem flight_conditions "velocity"%string ;;
  density <~ Component.getitem flight_conditions "density"%string ;;
  angle_of_attack <~ Component.getitem flight_conditions "angle_of_attack"%string ;;
  let aoa := angle_of_attack * (PI / 180) in
  let q := 0.5 * density * velocity ^ 2 in
  let q := q / 144 in
  length <~ Component.getitem geometry "length"%string ;;
  diameter <~ Component.getitem geometry "base_diameter"%string ;;
  let N_normal := q * sin aoa in
  let N_axial := q * cos aoa in
  let forces := [N_axial; N_normal; 0] in
  let moments := [0; N_normal * diameter / 4; 0] in
  Component.Return
    {| Component.forces := forces; Component.moments := moments |}.
End NoseCone.

Module CylindricalAirframe.
Definition get_loads (geometry flight_conditions : list (String.string * R))
  : Component.result Component.loads :=
  diameter <~ Component.getitem geometry "diameter"%string ;;
  let radius := diameter / 2 in
  let axial_load := Component.get flight_conditions "axial_load"%string 0 in
  let bending_moment := Component.get flight_conditions "bending_moment"%string 0 in
  let internal_pressure :=
    Component.get flight_conditions "internal_pressure"%string 0 in
  let N_theta := internal_pressure * radius in
  let circumference := PI * diameter in
  N_axial <~ Component.div axial_load circumference ;;
  N_bending <~ Component.div (bending_moment * radius) (PI * radius ^ 3) ;;
  let forces := [N_axial + N_bending; N_theta; 0] in
  let moments := [0; 0; 0] in
  Component.Return
    {| Component.forces := forces; Component.moments := moments |}.
End CylindricalAirframe.

Module Fin.
Definition get_loads (geometry flight_conditions : list (String.string * R))
  : Component.result Component.loads :=
  velocity <~ Component.getitem flight_conditions "velocity"%string ;;
  density <~ Component.getitem flight_conditions "density"%string ;;
  angle_of_attack <~ Component.getitem flight_conditions "angle_of_attack"%string ;;
  let aoa := angle_of_attack * (PI / 180) in
  let q := 0.5 * density * velocity ^ 2 in
  let q := q / 144 in
  root_chord <~ Component.getitem geometry "root_chord"%string ;;
  span <~ Component.getitem geometry "span"%string ;;
  let normal_pressure := q * sin aoa * cos aoa in
  let forces := [0; 0; normal_pressure / 2] in
  let moments := [0; normal_pressure * span / 2; 0] in
  Component.Return
    {| Component.forces := forces; Component.moments := moments |}.
End Fin.

(** ** The material catalogue, [structlib/material.py] *)

(** [MaterialDatabase.materials] is a dictionary from names to [Material]
    objects: the list of its items in insertion order, with distinct
    names. The type [P] is the type of a material's [properties]. *)
Module MaterialDatabase.

Record Material (P : Type) : Type := {
  name : String.string;
  properties : P
}.
Arguments name {P} m.
Arguments properties {P} m.

Section Methods.
Context {P : Type}.

(** [d.get(key)] *)
Fixpoint dict_get (d : list (String.string * Material P)) (key : String.string)
  : option (Material P) :=
  match d with
  | [] => None
  | (k, v) :: d' => if String.eqb k key then Some v else dict_get d' key
  end.

(** [d[key] = value]: an existing key keeps its place, a new one goes to the
    end. *)
Fixpoint dict_set (d : list (String.string * Material P)) (key : String.string)
  (value : Material P) : list (String.string * Material P) :=
  match d with
  | [] => [(key, value)]
  | (k, v) :: d' =>
      if String.eqb k key then (k, value) :: d'
      else (k, v) :: dict_set d' key value
  end.

(** [del d[key]] for a key of [d]. *)
Fixpoint dict_del (d : list (String.string * Material P)) (key : String.string)
  : list (String.string * Material P) :=
  match d with
  | [] => []
  | (k, v) :: d' =>
      if String.eqb k key then d' else (k, v) :: dict_del d' key
  end.

Definition get_material (materials : list (String.string * Material P))
  (name : String.string) : option (Material P) :=
  dict_get materials name.

Definition add_material (materials : list (String.string * Material P))
  (material : Material P) : list (String.string * Material P) :=
  dict_set materials (MaterialDatabase.name material) material.

(** [delete_material] returns the new state of [self.materials] and the
    boolean the method returns. *)
Definition delete_material (materials : list (String.string * Material P))
  (name : String.string) : list (String.string * Material P) * bool :=
  match dict_get materials name with
  | Some _ => (dict_del materials name, true)
  | None => (materials, false)
  end.

Definition get_material_names (materials : list (String.string * Material P))
  : list String.string :=
  map fst materials.

End Methods.
End MaterialDatabase.

(** A small catalogue used to exercise the statements; the properties of a
    material are left as one number. *)
Definition example_catalogue
  : list (String.string * MaterialDatabase.Material R) :=
  [ ("glass"%string,
     {| MaterialDatabase.name := "glass"%string;
        MaterialDatabase.properties := 1 |});
    ("carbon"%string,
     {| MaterialDatabase.name := "carbon"%string;
        MaterialDatabase.properties := 2 |}) ].

(** * Proofs *)

(** ** The error monad and indexing *)

Lemma bind_Ok {X Y : Type} (r : result X) (f : X -> result Y) (y : Y) :
  bind r f = Ok y -> exists x, r = Ok x /\ f x = Ok y.
Proof.
  destruct r as [x | e]; simpl; intros H.
  - now exists x.
  - discriminate.
Qed.

Lemma py_index_nat {X : Type} (l : list X) (i : nat) (d : X) :
  (i < length l)%nat -> py_index l (Z.of_nat i) = Ok (nth i l d).
Proof.
  intros Hi. unfold py_index.
  destruct (Z.ltb_spec (Z.of_nat i) 0) as [Hneg | _]; [lia |].
  destruct (Z.leb_spec 0 (Z.of_nat i)) as [_ | Hneg]; [| lia].
  destruct (Z.ltb_spec (Z.of_nat i) (Z.of_nat (length l))) as [_ | Hge]; [| lia].
  simpl. rewrite Nat2Z.id.
  rewrite (nth_error_nth' l d Hi). reflexivity.
Qed.

Lemma py_index_nat_out {X : Type} (l : list X) (i : nat) :
  (length l <= i)%nat -> py_index l (Z.of_nat i) = Raise IndexError.
Proof.
  intros Hi. unfold py_index.
  destruct (Z.ltb_spec (Z.of_nat i) 0) as [Hneg | _]; [lia |].
  destruct (Z.ltb_spec (Z.of_nat i) (Z.of_nat (length l))) as [Hlt | _]; [lia |].
  now rewrite andb_false_r.
Qed.

Lemma py_index_high {X : Type} (l : list X) (i : Z) :
  (Z.of_nat (length l) <= i)%Z -> py_index l i = Raise IndexError.
Proof.
  intros Hi. unfold py_index.
  destruct (Z.ltb_spec i 0) as [Hneg | _]; [lia |].
  destruct (Z.ltb_spec i (Z.of_nat (length l))) as [Hlt | _]; [lia |].
  now rewrite andb_false_r.
Qed.

Lemma py_index_low {X : Type} (l : list X) (i : Z) :
  (i < - Z.of_nat (length l))%Z -> py_index l i = Raise IndexError.
Proof.
  intros Hi. unfold py_index.
  destruct (Z.ltb_spec i 0) as [_ | Hpos]; [| lia].
  destruct (Z.leb_spec 0 (i + Z.of_nat (length l))) as [Hle | _]; [lia |].
  reflexivity.
Qed.

Lemma py_index_wrap {X : Type} (l : list X) (i : Z) (d : X) :
  (- Z.of_nat (length l) <= i < 0)%Z ->
  py_index l i = Ok (nth (Z.to_nat (i + Z.of_nat (length l))) l d).
Proof.
  intros Hi. unfold py_index.
  destruct (Z.ltb_spec i 0) as [_ | Hpos]; [| lia].
  destruct (Z.leb_spec 0 (i + Z.of_nat (length l))) as [_ | Hlt]; [| lia].
  destruct (Z.ltb_spec (i + Z.of_nat (length l)) (Z.of_nat (length l)))
    as [_ | Hge]; [| lia].
  simpl. rewrite (nth_error_nth' l d); [reflexivity | lia].
Qed.

Lemma length_list_set {X : Type} (l : list X) (i : nat) (x : X) :
  length (list_set l i x) = length l.
Proof.
  revert i; induction l as [| y l IH]; intros [| i]; simpl; auto.
Qed.

Lemma nth_list_set_eq {X : Type} (l : list X) (i : nat) (x d : X) :
  (i < length l)%nat -> nth i (list_set l i x) d = x.
Proof.
  revert i; induction l as [| y l IH]; intros [| i]; simpl; intros H;
    try lia; auto.
  apply IH; lia.
Qed.

Lemma nth_list_set_neq {X : Type} (l : list X) (i j : nat) (x d : X) :
  i <> j -> nth j (list_set l i x) d = nth j l d.
Proof.
  revert i j; induction l as [| y l IH]; intros [| i] [| j]; simpl; intros H;
    try congruence; auto.
Qed.

(** ** Vectors *)

Lemma length_vsub (u v : vector) :
  length u = length v -> length (vsub u v) = length u.
Proof.
  revert v; induction u as [| a u IH]; intros [| b v]; simpl; intros H;
    try discriminate; auto.
Qed.

Lemma length_vscale (a : R) (v : vector) : length (vscale a v) = length v.
Proof. apply length_map. Qed.

Lemma length_tail {X : Type} (l : list X) : length (tl l) = pred (length l).
Proof. now destruct l. Qed.

Lemma dot_vscale (a : R) (u x : vector) : dot (vscale a u) x = a * dot u x.
Proof.
  revert x; induction u as [| b u IH]; intros [| y x]; simpl; try ring.
  rewrite IH. ring.
Qed.

Lemma dot_vsub (u v x : vector) :
  length u = length v -> dot (vsub u v) x = dot u x - dot v x.
Proof.
  revert v x; induction u as [| a u IH]; intros [| b v] [| y x]; simpl;
    intros H; try discriminate; try ring.
  rewrite IH by congruence. ring.
Qed.

Lemma dot_zeros_r (u : vector) (n : nat) : dot u (np_zeros n) = 0.
Proof.
  revert n; induction u as [| a u IH]; intros [| n]; simpl; auto.
  unfold np_zeros in IH. rewrite IH. ring.
Qed.

Lemma dot_eliminate (p e : equation) (xs : vector) :
  length (fst e) = length (fst p) ->
  dot (fst (eliminate p e)) xs =
  dot (tl (fst e)) xs - lead e / lead p * dot (tl (fst p)) xs.
Proof.
  intros Hlen. unfold eliminate; simpl.
  rewrite dot_vsub.
  - now rewrite dot_vscale.
  - rewrite length_vscale, !length_tail. congruence.
Qed.

Lemma row_split (n : nat) (e : equation) :
  length (fst e) = S n -> fst e = lead e :: tl (fst e).
Proof.
  unfold lead. destruct (fst e); simpl; [discriminate | reflexivity].
Qed.

(** ** Gaussian elimination *)

Lemma find_pivot_Some (eqs : list equation) (p : equation)
  (others : list equation) :
  find_pivot eqs = Some (p, others) ->
  lead p <> 0 /\ length eqs = S (length others) /\
  (forall P : equation -> Prop, Forall P eqs <-> P p /\ Forall P others).
Proof.
  revert p others; induction eqs as [| e rest IH]; simpl; intros p others H.
  - discriminate.
  - destruct (Req_EM_T (lead e) 0) as [Hz | Hnz].
    + destruct (find_pivot rest) as [[p' others'] |] eqn:Hf; [| discriminate].
      injection H as <- <-.
      destruct (IH p' others' eq_refl) as (Hp & Hlen & Hall).
      split; [exact Hp |]. split; [simpl; congruence |].
      intros P. rewrite !Forall_cons_iff, Hall. tauto.
    + injection H as <- <-.
      split; [exact Hnz |]. split; [reflexivity |].
      intros P. now rewrite Forall_cons_iff.
Qed.

Lemma find_pivot_None (eqs : list equation) :
  find_pivot eqs = None -> Forall (fun e => lead e = 0) eqs.
Proof.
  induction eqs as [| e rest IH]; simpl; intros H; [constructor |].
  destruct (Req_EM_T (lead e) 0) as [Hz | Hnz]; [| discriminate].
  destruct (find_pivot rest) as [[p others] |]; [discriminate |].
  constructor; auto.
Qed.

Lemma system_eliminate (n : nat) (eqs : list equation) (p : equation)
  (others : list equation) :
  system (S n) eqs -> find_pivot eqs = Some (p, others) ->
  length (fst p) = S n /\ Forall (fun e => length (fst e) = S n) others /\
  system n (map (eliminate p) others).
Proof.
  intros [Hlen Hrows] Hf.
  destruct (find_pivot_Some _ _ _ Hf) as (_ & Hl & Hall).
  apply Hall in Hrows. destruct Hrows as [Hp Ho].
  split; [exact Hp |]. split; [exact Ho |]. split.
  - rewrite length_map. lia.
  - apply Forall_map. revert Ho. apply Forall_impl. intros e He.
    unfold eliminate; simpl.
    rewrite length_vsub; rewrite ?length_vscale, !length_tail.
    + lia.
    + congruence.
Qed.

(** What the eliminated system says about a vector [y0 :: ys], given the
    pivot equation. *)
Lemma eliminate_satisfied (n : nat) (p e : equation) (y0 : R) (ys : vector) :
  length (fst p) = S n -> length (fst e) = S n -> lead p <> 0 ->
  dot (fst p) (y0 :: ys) = snd p ->
  (dot (fst e) (y0 :: ys) = snd e <->
   dot (fst (eliminate p e)) ys = snd (eliminate p e)).
Proof.
  intros Hp He Hnz Hpy.
  rewrite dot_eliminate by congruence.
  rewrite (row_split n p Hp) in Hpy. rewrite (row_split n e He).
  simpl in Hpy |- *.
  assert (Hy0 : y0 = (snd p - dot (tl (fst p)) ys) / lead p).
  { rewrite <- Hpy. field. exact Hnz. }
  split; intros H.
  - rewrite Hy0 in H. rewrite <- H. field. exact Hnz.
  - rewrite Hy0. apply Rminus_diag_uniq.
    transitivity (dot (tl (fst e)) ys - lead e / lead p * dot (tl (fst p)) ys
                  - (snd e - lead e / lead p * snd p)).
    + field. exact Hnz.
    + rewrite H. ring.
Qed.

Lemma back_substitute_ok (n : nat) (p : equation) (xs : vector) :
  length (fst p) = S n -> lead p <> 0 ->
  dot (fst p) (back_substitute p xs :: xs) = snd p.
Proof.
  intros Hp Hnz. rewrite (row_split n p Hp). simpl.
  unfold back_substitute. field. exact Hnz.
Qed.

Theorem gauss_sound (n : nat) :
  forall (eqs : list equation) (x : vector),
    system n eqs -> gauss n eqs = Some x ->
    length x = n /\ satisfies eqs x.
Proof.
  induction n as [| n IH]; intros eqs x Hsys Hg; simpl in Hg.
  - injection Hg as <-. destruct Hsys as [Hlen _].
    destruct eqs; [| discriminate]. split; [reflexivity | constructor].
  - destruct (find_pivot eqs) as [[p others] |] eqn:Hf; [| discriminate].
    destruct (gauss n (map (eliminate p) others)) as [xs |] eqn:Hsub;
      [| discriminate].
    injection Hg as <-.
    destruct (system_eliminate _ _ _ _ Hsys Hf) as (Hp & Ho & Hsys').
    destruct (find_pivot_Some _ _ _ Hf) as (Hnz & _ & Hall).
    destruct (IH _ _ Hsys' Hsub) as [Hlen Hsat].
    split; [simpl; congruence |].
    unfold satisfies. apply Hall.
    pose proof (back_substitute_ok n p xs Hp Hnz) as Hpx.
    split; [exact Hpx |].
    unfold satisfies in Hsat. rewrite Forall_map in Hsat.
    rewrite Forall_forall in *. intros e He.
    apply (eliminate_satisfied n p e _ xs); auto.
Qed.

Theorem gauss_unique (n : nat) :
  forall (eqs : list equation) (x y : vector),
    system n eqs -> gauss n eqs = Some x ->
    length y = n -> satisfies eqs y -> y = x.
Proof.
  induction n as [| n IH]; intros eqs x y Hsys Hg Hlen Hsat; simpl in Hg.
  - injection Hg as <-. now destruct y.
  - destruct (find_pivot eqs) as [[p others] |] eqn:Hf; [| discriminate].
    destruct (gauss n (map (eliminate p) others)) as [xs |] eqn:Hsub;
      [| discriminate].
    injection Hg as <-.
    destruct (system_eliminate _ _ _ _ Hsys Hf) as (Hp & Ho & Hsys').
    destruct (find_pivot_Some _ _ _ Hf) as (Hnz & _ & Hall).
    destruct y as [| y0 ys]; [discriminate |].
    apply Hall in Hsat. destruct Hsat as [Hpy Hoy].
    assert (Hys : ys = xs).
    { apply (IH _ _ _ Hsys' Hsub); [simpl in Hlen; lia |].
      unfold satisfies. rewrite Forall_map.
      rewrite Forall_forall in *. intros e He.
      apply (eliminate_satisfied n p e y0 ys); auto. }
    subst ys. f_equal.
    rewrite (row_split n p Hp) in Hpy. simpl in Hpy.
    unfold back_substitute. rewrite <- Hpy. field. exact Hnz.
Qed.

Lemma kernel_step (n : nat) (p e : equation) (y0 : R) (ys : vector) :
  length (fst p) = S n -> length (fst e) = S n -> lead p <> 0 ->
  dot (fst p) (y0 :: ys) = 0 ->
  (dot (fst e) (y0 :: ys) = 0 <-> dot (fst (eliminate p e)) ys = 0).
Proof.
  intros Hp He Hnz Hpy.
  rewrite dot_eliminate by congruence.
  rewrite (row_split n p Hp) in Hpy. rewrite (row_split n e He).
  simpl in Hpy |- *.
  assert (Hy0 : y0 = - dot (tl (fst p)) ys / lead p).
  { apply Rmult_eq_reg_l with (lead p); [| exact Hnz].
    transitivity (- dot (tl (fst p)) ys); [lra | field; exact Hnz]. }
  split; intros H.
  - rewrite Hy0 in H. rewrite <- H. field. exact Hnz.
  - rewrite Hy0. rewrite <- H. field. exact Hnz.
Qed.

Theorem gauss_complete (n : nat) :
  forall eqs : list equation,
    system n eqs -> kernel_trivial n eqs -> exists x, gauss n eqs = Some x.
Proof.
  induction n as [| n IH]; intros eqs Hsys Hker; simpl.
  - eauto.
  - destruct (find_pivot eqs) as [[p others] |] eqn:Hf.
    + destruct (system_eliminate _ _ _ _ Hsys Hf) as (Hp & Ho & Hsys').
      destruct (find_pivot_Some _ _ _ Hf) as (Hnz & _ & Hall).
      destruct (IH (map (eliminate p) others) Hsys') as [xs Hxs].
      * intros ys Hlen Hys.
        set (y0 := - dot (tl (fst p)) ys / lead p).
        assert (Hpy : dot (fst p) (y0 :: ys) = 0).
        { rewrite (row_split n p Hp). simpl. unfold y0. field. exact Hnz. }
        assert (Hy : y0 :: ys = np_zeros (S n)).
        { apply Hker; [simpl; congruence |].
          apply Hall. split; [exact Hpy |].
          rewrite Forall_map in Hys. rewrite Forall_forall in *.
          intros e He. apply (kernel_step n p e y0 ys); auto. }
        simpl in Hy. now injection Hy.
      * rewrite Hxs. eauto.
    + exfalso.
      pose proof (find_pivot_None _ Hf) as Hz.
      destruct Hsys as [_ Hrows].
      assert (Hy : 1 :: np_zeros n = np_zeros (S n)).
      { apply Hker; [simpl; unfold np_zeros; now rewrite repeat_length |].
        rewrite Forall_forall in *. intros e He.
        rewrite (row_split n e (Hrows e He)). simpl.
        rewrite dot_zeros_r, (Hz e He). ring. }
      simpl in Hy. injection Hy as Hy. lra.
Qed.

Theorem gauss_kernel (n : nat) :
  forall (eqs : list equation) (x : vector),
    system n eqs -> gauss n eqs = Some x -> kernel_trivial n eqs.
Proof.
  induction n as [| n IH]; intros eqs x Hsys Hg y Hlen Hy; simpl in Hg.
  - now destruct y.
  - destruct (find_pivot eqs) as [[p others] |] eqn:Hf; [| discriminate].
    destruct (gauss n (map (eliminate p) others)) as [xs |] eqn:Hsub;
      [| discriminate].
    destruct (system_eliminate _ _ _ _ Hsys Hf) as (Hp & Ho & Hsys').
    destruct (find_pivot_Some _ _ _ Hf) as (Hnz & _ & Hall).
    destruct y as [| y0 ys]; [discriminate |].
    apply Hall in Hy. destruct Hy as [Hpy Hoy].
    assert (Hys : ys = np_zeros n).
    { apply (IH _ _ Hsys' Hsub); [simpl in Hlen; lia |].
      rewrite Forall_map. rewrite Forall_forall in *. intros e He.
      apply (kernel_step n p e y0 ys); auto. }
    subst ys. change (np_zeros (S n)) with (0 :: np_zeros n). f_equal.
    rewrite (row_split n p Hp) in Hpy. simpl in Hpy.
    rewrite dot_zeros_r in Hpy.
    apply Rmult_eq_reg_l with (lead p); [lra | exact Hnz].
Qed.

(** ** From systems of equations to matrices *)

Lemma Forall_combine_fst (P : list R -> Prop) (M : matrix) :
  forall b : vector,
    length b = length M ->
    (Forall (fun e : equation => P (fst e)) (combine M b) <-> Forall P M).
Proof.
  induction M as [| r M IH]; intros [| c b] Hlen; simpl in *;
    try discriminate.
  - split; constructor.
  - rewrite !Forall_cons_iff, IH by congruence. reflexivity.
Qed.

Lemma satisfies_combine (M : matrix) (x : vector) :
  forall b : vector,
    length b = length M -> (satisfies (combine M b) x <-> matvec M x = b).
Proof.
  unfold satisfies.
  induction M as [| r M IH]; intros [| c b] Hlen; simpl in *;
    try discriminate.
  - split; [reflexivity | constructor].
  - rewrite Forall_cons_iff, IH by congruence. simpl.
    split; [intros [-> ->]; reflexivity | intros H; now injection H].
Qed.

Lemma matvec_zero_iff (M : matrix) (y : vector) :
  matvec M y = np_zeros (length M) <-> Forall (fun r => dot r y = 0) M.
Proof.
  induction M as [| r M IH]; simpl.
  - split; [constructor | reflexivity].
  - rewrite Forall_cons_iff, <- IH.
    split; [intros H; now injection H | intros [-> ->]; reflexivity].
Qed.

Lemma system_combine (M : matrix) (b : vector) :
  square M -> length b = length M -> system (length M) (combine M b).
Proof.
  intros Hsq Hlen. split.
  - rewrite length_combine. lia.
  - now apply (Forall_combine_fst (fun r => length r = length M)).
Qed.

Lemma kernel_trivial_combine (M : matrix) (b : vector) :
  length b = length M ->
  (kernel_trivial (length M) (combine M b) <-> nonsingular M).
Proof.
  intros Hlen. unfold kernel_trivial, nonsingular.
  split; intros H y Hy Hz; apply H; auto.
  - apply (Forall_combine_fst (fun r => dot r y = 0)); auto.
    now apply matvec_zero_iff.
  - apply matvec_zero_iff.
    now apply (Forall_combine_fst (fun r => dot r y = 0)) in Hz.
Qed.

Lemma singular_not_nonsingular (M : matrix) : singular M -> ~ nonsingular M.
Proof.
  intros (x & Hlen & Hz & Hnz) Hns. apply Hnz. now apply Hns.
Qed.

Lemma not_singular_nonsingular (M : matrix) : ~ singular M -> nonsingular M.
Proof.
  intros Hns x Hlen Hz.
  destruct (list_eq_dec Req_EM_T x (np_zeros (length M))) as [Heq | Hne];
    [exact Heq |].
  exfalso. apply Hns. exists x. auto.
Qed.

Lemma singular_or_nonsingular (M : matrix) : singular M \/ nonsingular M.
Proof.
  destruct (classic (singular M)) as [Hs | Hns]; [now left |].
  right. now apply not_singular_nonsingular.
Qed.

Theorem linalg_solve_sound (M : matrix) (b x : vector) :
  square M -> length b = length M -> linalg_solve M b = Ok x ->
  length x = length M /\ matvec M x = b.
Proof.
  intros Hsq Hlen. unfold linalg_solve.
  destruct (gauss (length M) (combine M b)) as [x' |] eqn:Hg;
    [| discriminate].
  intros H; injection H as <-.
  destruct (gauss_sound _ _ _ (system_combine M b Hsq Hlen) Hg) as [Hl Hs].
  split; [exact Hl |]. now apply satisfies_combine.
Qed.

Theorem linalg_solve_complete (M : matrix) (b : vector) :
  square M -> length b = length M -> nonsingular M ->
  exists x, linalg_solve M b = Ok x.
Proof.
  intros Hsq Hlen Hns. unfold linalg_solve.
  destruct (gauss_complete _ _ (system_combine M b Hsq Hlen)) as [x ->];
    [| eauto].
  now apply kernel_trivial_combine.
Qed.

Theorem linalg_solve_nonsingular (M : matrix) (b x : vector) :
  square M -> length b = length M -> linalg_solve M b = Ok x ->
  nonsingular M.
Proof.
  intros Hsq Hlen. unfold linalg_solve.
  destruct (gauss (length M) (combine M b)) as [x' |] eqn:Hg;
    [| discriminate].
  intros _. apply (kernel_trivial_combine M b Hlen).
  exact (gauss_kernel _ _ _ (system_combine M b Hsq Hlen) Hg).
Qed.

Theorem linalg_solve_singular (M : matrix) (b : vector) :
  square M -> length b = length M -> singular M ->
  linalg_solve M b = Raise LinAlgError.
Proof.
  intros Hsq Hlen Hs.
  destruct (linalg_solve M b) as [x | e] eqn:Hx.
  - exfalso. apply (singular_not_nonsingular M Hs).
    exact (linalg_solve_nonsingular M b x Hsq Hlen Hx).
  - unfold linalg_solve in Hx.
    destruct (gauss (length M) (combine M b)); [discriminate |].
    now injection Hx as <-.
Qed.

(** The solver returns the solution, whichever way it was found. *)
Theorem linalg_solve_eq (M : matrix) (b y : vector) :
  square M -> nonsingular M -> length y = length M -> matvec M y = b ->
  linalg_solve M b = Ok y.
Proof.
  intros Hsq Hns Hy Hb.
  assert (Hlen : length b = length M).
  { rewrite <- Hb. unfold matvec. now rewrite length_map. }
  unfold linalg_solve.
  destruct (gauss (length M) (combine M b)) as [x |] eqn:Hg.
  - f_equal. symmetry.
    apply (gauss_unique _ _ _ _ (system_combine M b Hsq Hlen) Hg Hy).
    now apply satisfies_combine.
  - destruct (linalg_solve_complete M b Hsq Hlen Hns) as [x Hx].
    unfold linalg_solve in Hx. rewrite Hg in Hx. discriminate.
Qed.

(** ** The transformation matrices *)

Lemma length3_inv (x : vector) :
  length x = 3%nat -> exists a b c, x = [a; b; c].
Proof.
  destruct x as [| a [| b [| c [| d x]]]]; simpl; try discriminate.
  intros _. eauto.
Qed.

Lemma T_square (c s : R) : square (T_matrix c s).
Proof. repeat constructor. Qed.

Lemma T_nonsingular (c s : R) :
  c * c + s * s = 1 -> nonsingular (T_matrix c s).
Proof.
  intros Hcs x Hlen Hx.
  destruct (length3_inv x Hlen) as (x0 & x1 & x2 & ->).
  cbn [T_matrix matvec map dot length np_zeros repeat pow] in Hx |- *.
  injection Hx as H0 H1 H2.
  f_equal; [| f_equal; [| f_equal]]; nsatz.
Qed.

Lemma T_inv_column (c s : R) (j : nat) :
  c * c + s * s = 1 -> (j < 3)%nat ->
  matvec (T_matrix c s) (col (T_inv_matrix c s) j) = unit_vector 3 j.
Proof.
  intros Hcs Hj.
  destruct j as [| [| [| j]]]; [| | | lia];
    cbn [T_matrix T_inv_matrix matvec map dot col nth unit_vector seq
         Nat.eqb pow];
    (f_equal; [| f_equal; [| f_equal]]); nsatz.
Qed.

Theorem linalg_inv_T (c s : R) :
  c * c + s * s = 1 -> linalg_inv (T_matrix c s) = Ok (T_inv_matrix c s).
Proof.
  intros Hcs. unfold linalg_inv.
  change (length (T_matrix c s)) with 3%nat.
  cbn [seq mapM].
  assert (Hcol : forall j, (j < 3)%nat ->
            linalg_solve (T_matrix c s) (unit_vector 3 j) =
            Ok (col (T_inv_matrix c s) j)).
  { intros j Hj.
    apply (linalg_solve_eq _ _ _ (T_square c s) (T_nonsingular c s Hcs)).
    - reflexivity.
    - now apply T_inv_column. }
  rewrite !Hcol by lia.
  reflexivity.
Qed.

(** ** Loops *)

Section Loops.
Context {S : Type}.
Variable body : nat -> S -> result S.

Lemma foldM_invariant (I : nat -> S -> Prop) (n : nat) :
  forall (a : nat) (s0 s : S),
    I a s0 ->
    (forall i s1 s2, (a <= i < a + n)%nat -> I i s1 -> body i s1 = Ok s2 ->
                     I (Datatypes.S i) s2) ->
    foldM body (seq a n) s0 = Ok s -> I (a + n)%nat s.
Proof.
  induction n as [| n IH]; intros a s0 s H0 Hstep Hrun; simpl in Hrun.
  - injection Hrun as <-. now rewrite Nat.add_0_r.
  - apply bind_Ok in Hrun. destruct Hrun as (s1 & Hb & Hrun).
    replace (a + Datatypes.S n)%nat with (Datatypes.S a + n)%nat by lia.
    apply (IH (Datatypes.S a) s1 s); auto.
    + apply (Hstep a s0 s1); auto. lia.
    + intros i s2 s3 Hi. apply Hstep. lia.
Qed.

Lemma for_range_invariant (I : nat -> S -> Prop) (n : nat) (s0 s : S) :
  I 0%nat s0 ->
  (forall i s1 s2, (i < n)%nat -> I i s1 -> body i s1 = Ok s2 ->
                   I (Datatypes.S i) s2) ->
  for_range n body s0 = Ok s -> I n s.
Proof.
  intros H0 Hstep Hrun.
  apply (foldM_invariant I n 0 s0 s H0); auto.
  intros i s1 s2 Hi. apply Hstep. lia.
Qed.

Lemma foldM_total (I : nat -> S -> Prop) (n : nat) :
  forall (a : nat) (s0 : S),
    I a s0 ->
    (forall i s1, (a <= i < a + n)%nat -> I i s1 ->
                  exists s2, body i s1 = Ok s2 /\ I (Datatypes.S i) s2) ->
    exists s, foldM body (seq a n) s0 = Ok s /\ I (a + n)%nat s.
Proof.
  induction n as [| n IH]; intros a s0 H0 Hstep; simpl.
  - exists s0. now rewrite Nat.add_0_r.
  - destruct (Hstep a s0) as (s1 & Hb & H1); [lia | exact H0 |].
    rewrite Hb. simpl.
    replace (a + Datatypes.S n)%nat with (Datatypes.S a + n)%nat by lia.
    apply IH; auto.
    intros i s2 Hi. apply Hstep. lia.
Qed.

Lemma for_range_total (I : nat -> S -> Prop) (n : nat) (s0 : S) :
  I 0%nat s0 ->
  (forall i s1, (i < n)%nat -> I i s1 ->
                exists s2, body i s1 = Ok s2 /\ I (Datatypes.S i) s2) ->
  exists s, for_range n body s0 = Ok s /\ I n s.
Proof.
  intros H0 Hstep.
  apply (foldM_total I n 0 s0 H0).
  intros i s1 Hi. apply Hstep. lia.
Qed.

(** A loop whose body raises [e] at iteration [m], whatever the state, and
    does not raise before, raises [e]. *)
Lemma foldM_raises (e : exception) (m : nat) (n : nat) :
  forall (a : nat) (s0 : S),
    (a <= m < a + n)%nat ->
    (forall i s1, (a <= i < m)%nat -> exists s2, body i s1 = Ok s2) ->
    (forall s1, body m s1 = Raise e) ->
    foldM body (seq a n) s0 = Raise e.
Proof.
  induction n as [| n IH]; intros a s0 Hm Hbefore Hat; [lia |].
  simpl. destruct (Nat.eq_dec a m) as [-> | Hne].
  - now rewrite Hat.
  - destruct (Hbefore a s0) as [s1 ->]; [lia |]. simpl.
    apply IH; auto; [lia |].
    intros i s2 Hi. apply Hbefore. lia.
Qed.

Lemma for_range_raises (e : exception) (m n : nat) (s0 : S) :
  (m < n)%nat ->
  (forall i s1, (i < m)%nat -> exists s2, body i s1 = Ok s2) ->
  (forall s1, body m s1 = Raise e) ->
  for_range n body s0 = Raise e.
Proof.
  intros Hm Hbefore Hat.
  apply (foldM_raises e m n 0 s0); auto; [lia |].
  intros i s1 Hi. apply Hbefore. lia.
Qed.
End Loops.

Lemma py_index_nat_inv {X : Type} (l : list X) (i : nat) (x d : X) :
  py_index l (Z.of_nat i) = Ok x -> (i < length l)%nat /\ x = nth i l d.
Proof.
  intros H. destruct (Nat.lt_ge_cases i (length l)) as [Hlt | Hge].
  - split; [exact Hlt |].
    rewrite (py_index_nat l i d Hlt) in H. now injection H.
  - rewrite (py_index_nat_out l i Hge) in H. discriminate.
Qed.

(** ** Through-thickness coordinates *)

Lemma np_sum_firstn_S (t : vector) (i : nat) :
  (i < length t)%nat ->
  np_sum (firstn (S i) t) = np_sum (firstn i t) + nth i t 0.
Proof.
  revert i; induction t as [| a t IH]; intros [| i] Hi; simpl in *;
    try lia; try ring.
  assert (Hi' : (i < length t)%nat) by lia.
  specialize (IH i Hi'). simpl in IH. rewrite IH. ring.
Qed.

Lemma z_step_inv (t : vector) (i : nat) (z zm : vector) (cur : R)
  (st : vector * vector * R) :
  z_step t i (z, zm, cur) = Ok st ->
  (i < length t)%nat /\
  st = (list_set z i (cur + nth i t 0),
        list_set zm i (cur + nth i t 0 / 2),
        cur + nth i t 0).
Proof.
  unfold z_step. intros H.
  apply bind_Ok in H. destruct H as (ti & Hti & H).
  apply (py_index_nat_inv t i ti 0) in Hti. destruct Hti as [Hi ->].
  split; [exact Hi |]. now injection H.
Qed.

Theorem z_coordinates_spec (t : vector) (k : nat) (z zm : vector) :
  _calculate_z_coordinates t k = Ok (z, zm) ->
  (k <= length t)%nat /\ length z = k /\ length zm = k /\
  forall i : nat, (i < k)%nat ->
    nth i z 0 = - np_sum t / 2 + np_sum (firstn (S i) t) /\
    nth i zm 0 = - np_sum t / 2 + np_sum (firstn i t) + nth i t 0 / 2.
Proof.
  unfold _calculate_z_coordinates. intros H.
  apply bind_Ok in H. destruct H as ([[z' zm'] cur] & Hloop & H).
  injection H as -> ->.
  pose (I := fun (i : nat) (st : list R * list R * R) =>
    let '(z1, zm1, cur1) := st in
    (i <= length t)%nat /\ length z1 = k /\ length zm1 = k /\
    cur1 = - np_sum t / 2 + np_sum (firstn i t) /\
    forall j : nat, (j < i)%nat ->
      nth j z1 0 = - np_sum t / 2 + np_sum (firstn (S j) t) /\
      nth j zm1 0 = - np_sum t / 2 + np_sum (firstn j t) + nth j t 0 / 2).
  assert (HI : I k (z, zm, cur)).
  { refine (for_range_invariant (z_step t) I k _ _ _ _ Hloop).
    - unfold I. simpl. unfold np_zeros. rewrite !repeat_length.
      repeat split; try lia; try ring.
    - intros i [[z1 zm1] cur1] st Hi (Hit & Hz & Hzm & Hcur & Hprev) Hstep.
      apply z_step_inv in Hstep. destruct Hstep as [Hlt ->].
      unfold I. rewrite !length_list_set.
      repeat split; auto.
      + rewrite np_sum_firstn_S by exact Hlt. rewrite Hcur. ring.
      + destruct (Nat.eq_dec j i) as [-> | Hne].
        * rewrite nth_list_set_eq by lia.
          rewrite np_sum_firstn_S by exact Hlt. rewrite Hcur. ring.
        * rewrite nth_list_set_neq by auto. apply Hprev. lia.
      + destruct (Nat.eq_dec j i) as [-> | Hne].
        * rewrite nth_list_set_eq by lia. rewrite Hcur. ring.
        * rewrite nth_list_set_neq by auto. apply Hprev. lia. }
  destruct HI as (Hk & Hz & Hzm & _ & Hall). auto.
Qed.

Theorem z_coordinates_total (t : vector) (k : nat) :
  (k <= length t)%nat ->
  exists z zm, _calculate_z_coordinates t k = Ok (z, zm).
Proof.
  intros Hk. unfold _calculate_z_coordinates.
  destruct (for_range_total (z_step t) (fun _ _ => True) k
              (np_zeros k, np_zeros k, - np_sum t / 2) I)
    as ([[z zm] cur] & -> & _).
  - intros i [[z1 zm1] cur1] Hi _. unfold z_step.
    rewrite (py_index_nat t i 0) by lia. simpl. eauto.
  - simpl. eauto.
Qed.

Theorem z_coordinates_short (t : vector) (k : nat) :
  (length t < k)%nat -> _calculate_z_coordinates t k = Raise IndexError.
Proof.
  intros Hk. unfold _calculate_z_coordinates.
  rewrite (for_range_raises (z_step t) IndexError (length t) k); auto.
  - intros i [[z1 zm1] cur1] Hi. unfold z_step.
    rewrite (py_index_nat t i 0) by lia. simpl. eauto.
  - intros [[z1 zm1] cur1]. unfold z_step.
    now rewrite py_index_nat_out.
Qed.

(** ** Per-ply transformation *)

Lemma cos_sin_unit (th : R) : cos th * cos th + sin th * sin th = 1.
Proof.
  pose proof (sin2_cos2 th) as H. unfold Rsqr in H. lra.
Qed.

Theorem calculate_transformation_eq (th : R) (Q : matrix) :
  _calculate_transformation th Q =
  Ok (T_matrix (cos th) (sin th),
      T_e_matrix (cos th) (sin th),
      matmul (matmul (T_inv_matrix (cos th) (sin th)) Q)
             (T_e_matrix (cos th) (sin th))).
Proof.
  unfold _calculate_transformation.
  now rewrite (linalg_inv_T _ _ (cos_sin_unit th)).
Qed.

Lemma firstn_S_snoc {X : Type} (l : list X) (i : nat) (d : X) :
  (i < length l)%nat -> firstn (S i) l = firstn i l ++ [nth i l d].
Proof.
  revert i; induction l as [| a l IH]; intros [| i] Hi; simpl in *;
    try lia; auto.
  f_equal. apply IH. lia.
Qed.

Theorem transform_loop_spec (theta : vector) (Q : matrix) (k : nat)
  (Ts Tes Qbs : list (list (list R))) :
  for_range k (transform_step theta Q) ([], [], []) = Ok (Ts, Tes, Qbs) ->
  (k <= length theta)%nat /\
  Ts = map (fun th => T_matrix (cos th) (sin th)) (firstn k theta) /\
  Tes = map (fun th => T_e_matrix (cos th) (sin th)) (firstn k theta) /\
  Qbs = map (fun th => matmul (matmul (T_inv_matrix (cos th) (sin th)) Q)
                              (T_e_matrix (cos th) (sin th)))
            (firstn k theta).
Proof.
  intros Hloop.
  pose (I := fun (i : nat) (st : list (list (list R)) * list (list (list R))
                                 * list (list (list R))) =>
    let '(Ts1, Tes1, Qbs1) := st in
    (i <= length theta)%nat /\
    Ts1 = map (fun th => T_matrix (cos th) (sin th)) (firstn i theta) /\
    Tes1 = map (fun th => T_e_matrix (cos th) (sin th)) (firstn i theta) /\
    Qbs1 = map (fun th => matmul (matmul (T_inv_matrix (cos th) (sin th)) Q)
                                 (T_e_matrix (cos th) (sin th)))
               (firstn i theta)).
  refine (for_range_invariant (transform_step theta Q) I k _ (Ts, Tes, Qbs)
            _ _ Hloop).
  - unfold I. simpl. repeat split; auto. lia.
  - intros i [[Ts1 Tes1] Qbs1] st Hi (Hit & HT & HTe & HQb) Hstep.
    unfold transform_step in Hstep.
    apply bind_Ok in Hstep. destruct Hstep as (th & Hth & Hstep).
    apply (py_index_nat_inv theta i th 0) in Hth. destruct Hth as [Hlt ->].
    rewrite calculate_transformation_eq in Hstep. unfold bind in Hstep.
    injection Hstep as <-. unfold I.
    rewrite (firstn_S_snoc theta i 0 Hlt), !map_app. cbn [map].
    split; [lia |]. subst. repeat split.
Qed.

Theorem transform_loop_total (theta : vector) (Q : matrix) (k : nat) :
  (k <= length theta)%nat ->
  exists Ts Tes Qbs,
    for_range k (transform_step theta Q) ([], [], []) = Ok (Ts, Tes, Qbs).
Proof.
  intros Hk.
  destruct (for_range_total (transform_step theta Q) (fun _ _ => True) k
              ([], [], []) I) as ([[Ts Tes] Qbs] & H & _).
  - intros i [[Ts1 Tes1] Qbs1] Hi _. unfold transform_step.
    rewrite (py_index_nat theta i 0) by lia. unfold bind at 1.
    rewrite calculate_transformation_eq. unfold bind. eauto.
  - eauto.
Qed.

(** ** Assembly of A, B and D *)

Lemma shape3_inv (M : matrix) :
  shape3 M ->
  exists a b c d e f g h i, M = [ [a; b; c]; [d; e; f]; [g; h; i] ].
Proof.
  intros [Hlen Hrows].
  destruct M as [| r0 [| r1 [| r2 [| r3 M]]]]; simpl in Hlen;
    try discriminate.
  inversion Hrows as [| ? ? H0 Hrows1]; subst.
  inversion Hrows1 as [| ? ? H1 Hrows2]; subst.
  inversion Hrows2 as [| ? ? H2 _]; subst.
  destruct (length3_inv r0 H0) as (a & b & c & ->).
  destruct (length3_inv r1 H1) as (d & e & f & ->).
  destruct (length3_inv r2 H2) as (g & h & i & ->).
  repeat eexists.
Qed.

Lemma shape3_literal (a b c d e f g h i : R) :
  shape3 [ [a; b; c]; [d; e; f]; [g; h; i] ].
Proof. split; [reflexivity | repeat constructor]. Qed.

Lemma shape3_zeros : shape3 (np_zeros2 3 3).
Proof. apply shape3_literal. Qed.

Lemma shape3_madd (M : matrix) (i j : nat) (x : R) :
  shape3 M -> shape3 (madd M i j x).
Proof.
  intros HM.
  destruct (shape3_inv M HM) as (a & b & c & d & e & f & g & h & l & ->).
  destruct i as [| [| [| i]]]; destruct j as [| [| [| j]]];
    apply shape3_literal.
Qed.

Lemma mget_madd (M : matrix) (i j i' j' : nat) (x : R) :
  shape3 M -> (i < 3)%nat -> (j < 3)%nat ->
  mget (madd M i j x) i' j' =
  mget M i' j' + (if (i =? i')%nat && (j =? j')%nat then x else 0).
Proof.
  intros HM Hi Hj.
  destruct (shape3_inv M HM) as (a & b & c & d & e & f & g & h & l & ->).
  destruct i as [| [| [| i]]]; try lia;
    destruct j as [| [| [| j]]]; try lia;
    destruct i' as [| [| [| i']]]; destruct j' as [| [| [| j']]];
    cbn [madd mget list_set nth Nat.eqb andb]; try ring;
    repeat match goal with
           | |- context [match ?n with O => _ | S _ => _ end] => destruct n
           end; ring.
Qed.

Lemma mget_zeros (i j : nat) : mget (np_zeros2 3 3) i j = 0.
Proof.
  destruct i as [| [| [| i]]]; destruct j as [| [| [| j]]];
    cbn [np_zeros2 np_zeros repeat mget nth]; try reflexivity;
    repeat match goal with
           | |- context [match ?n with O => _ | S _ => _ end] => destruct n
           end; reflexivity.
Qed.

Lemma sum_over_plies_ext (f g : nat -> R) (k : nat) :
  (forall p, (p < k)%nat -> f p = g p) ->
  sum_over_plies f k = sum_over_plies g k.
Proof.
  induction k as [| k IH]; intros H; simpl; [reflexivity |].
  rewrite IH, H by auto. reflexivity.
Qed.

Lemma sum_over_plies_scale (c : R) (f : nat -> R) (k : nat) :
  sum_over_plies (fun p => c * f p) k = c * sum_over_plies f k.
Proof.
  induction k as [| k IH]; simpl; [ring |]. rewrite IH. ring.
Qed.

Ltac bool_cases :=
  repeat match goal with
         | |- context [(?a =? ?b)%nat] => destruct (Nat.eqb_spec a b)
         | |- context [(?a <? ?b)%nat] => destruct (Nat.ltb_spec a b)
         end;
  cbn [andb orb]; subst; try lia; try ring.

Lemma accumulated_madd (M0 M : matrix) (f : nat -> nat -> R) (i j : nat)
  (x : R) (g : nat -> nat -> R) :
  accumulated M0 M f -> (i < 3)%nat -> (j < 3)%nat ->
  (forall i' j',
     f i' j' + (if (i =? i')%nat && (j =? j')%nat then x else 0) = g i' j') ->
  accumulated M0 (madd M i j x) g.
Proof.
  intros [HM Hf] Hi Hj Hg. split.
  - now apply shape3_madd.
  - intros i' j'. rewrite mget_madd, Hf, <- Hg by auto. ring.
Qed.

Lemma accumulated_trans (M0 M1 M2 : matrix) (f g h : nat -> nat -> R) :
  accumulated M0 M1 f -> accumulated M1 M2 g ->
  (forall i j, f i j + g i j = h i j) ->
  accumulated M0 M2 h.
Proof.
  intros [_ Hf] [HM Hg] Hh. split; [exact HM |].
  intros i j. rewrite Hg, Hf, <- Hh. ring.
Qed.

Lemma accumulated_refl (M : matrix) (f : nat -> nat -> R) :
  shape3 M -> (forall i j, f i j = 0) -> accumulated M M f.
Proof.
  intros HM Hf. split; [exact HM |]. intros i j. rewrite Hf. ring.
Qed.

Section Assembly.
Variable Q_bar : list (list (list R)).
Variables t z : list R.
Variable k : nat.

Lemma abd_step_inv (i j ply : nat) (A B D : matrix)
  (st : list (list R) * list (list R) * list (list R)) :
  abd_step Q_bar t z i j ply (A, B, D) = Ok st ->
  (ply < length Q_bar)%nat /\ (ply < length t)%nat /\ (ply < length z)%nat /\
  st = (madd A i j (A_term Q_bar t i j ply),
        madd B i j (B_term Q_bar t z i j ply),
        madd D i j (D_term Q_bar t z i j ply)).
Proof.
  unfold abd_step. intros H.
  apply bind_Ok in H. destruct H as (Qp & HQ & H).
  apply bind_Ok in H. destruct H as (tp & Ht & H).
  apply bind_Ok in H. destruct H as (zp & Hz & H).
  apply (py_index_nat_inv Q_bar ply Qp []) in HQ. destruct HQ as [HlQ ->].
  apply (py_index_nat_inv t ply tp 0) in Ht. destruct Ht as [Hlt ->].
  apply (py_index_nat_inv z ply zp 0) in Hz. destruct Hz as [Hlz ->].
  repeat split; auto. now injection H.
Qed.

Lemma abd_ply_loop (i j : nat) (A B D A' B' D' : matrix) :
  (i < 3)%nat -> (j < 3)%nat -> shape3 A -> shape3 B -> shape3 D ->
  for_range k (abd_step Q_bar t z i j) (A, B, D) = Ok (A', B', D') ->
  ((k <= length Q_bar)%nat /\ (k <= length t)%nat /\ (k <= length z)%nat) /\
  accumulated A A'
    (fun i' j' => if (i =? i')%nat && (j =? j')%nat
                  then sum_over_plies (A_term Q_bar t i j) k else 0) /\
  accumulated B B'
    (fun i' j' => if (i =? i')%nat && (j =? j')%nat
                  then sum_over_plies (B_term Q_bar t z i j) k else 0) /\
  accumulated D D'
    (fun i' j' => if (i =? i')%nat && (j =? j')%nat
                  then sum_over_plies (D_term Q_bar t z i j) k else 0).
Proof.
  intros Hi Hj HA HB HD Hloop.
  pose (I := fun (n : nat)
                 (st : list (list R) * list (list R) * list (list R)) =>
    let '(A1, B1, D1) := st in
    ((n <= length Q_bar)%nat /\ (n <= length t)%nat /\ (n <= length z)%nat) /\
    accumulated A A1
      (fun i' j' => if (i =? i')%nat && (j =? j')%nat
                    then sum_over_plies (A_term Q_bar t i j) n else 0) /\
    accumulated B B1
      (fun i' j' => if (i =? i')%nat && (j =? j')%nat
                    then sum_over_plies (B_term Q_bar t z i j) n else 0) /\
    accumulated D D1
      (fun i' j' => if (i =? i')%nat && (j =? j')%nat
                    then sum_over_plies (D_term Q_bar t z i j) n else 0)).
  refine (for_range_invariant _ I k _ (A', B', D') _ _ Hloop).
  - unfold I. split; [lia |].
    split; [| split]; apply accumulated_refl; auto;
      intros i' j'; simpl; bool_cases.
  - intros n [[A1 B1] D1] st Hn (_ & HA1 & HB1 & HD1) Hstep.
    apply abd_step_inv in Hstep.
    destruct Hstep as (HlQ & Hlt & Hlz & ->). unfold I.
    split; [lia |].
    split; [| split];
      (eapply accumulated_madd; [eassumption | lia | lia |]);
      intros i' j'; simpl; bool_cases.
Qed.
End Assembly.

Section AssemblyLoops.
Variable Q_bar : list (list (list R)).
Variables t z : list R.
Variable k : nat.

Lemma abd_column_loop (i : nat) (A B D A' B' D' : matrix) :
  (i < 3)%nat -> shape3 A -> shape3 B -> shape3 D ->
  for_range 3 (fun j => for_range k (abd_step Q_bar t z i j)) (A, B, D) =
  Ok (A', B', D') ->
  ((k <= length Q_bar)%nat /\ (k <= length t)%nat /\ (k <= length z)%nat) /\
  accumulated A A'
    (fun i' j' => if (i =? i')%nat && (j' <? 3)%nat
                  then sum_over_plies (A_term Q_bar t i j') k else 0) /\
  accumulated B B'
    (fun i' j' => if (i =? i')%nat && (j' <? 3)%nat
                  then sum_over_plies (B_term Q_bar t z i j') k else 0) /\
  accumulated D D'
    (fun i' j' => if (i =? i')%nat && (j' <? 3)%nat
                  then sum_over_plies (D_term Q_bar t z i j') k else 0).
Proof.
  intros Hi HA HB HD Hloop.
  pose (I := fun (m : nat)
                 (st : list (list R) * list (list R) * list (list R)) =>
    let '(A1, B1, D1) := st in
    ((0 < m)%nat -> (k <= length Q_bar)%nat /\ (k <= length t)%nat /\
                    (k <= length z)%nat) /\
    accumulated A A1
      (fun i' j' => if (i =? i')%nat && (j' <? m)%nat
                    then sum_over_plies (A_term Q_bar t i j') k else 0) /\
    accumulated B B1
      (fun i' j' => if (i =? i')%nat && (j' <? m)%nat
                    then sum_over_plies (B_term Q_bar t z i j') k else 0) /\
    accumulated D D1
      (fun i' j' => if (i =? i')%nat && (j' <? m)%nat
                    then sum_over_plies (D_term Q_bar t z i j') k else 0)).
  assert (HI : I 3%nat (A', B', D')).
  { refine (for_range_invariant _ I 3 _ (A', B', D') _ _ Hloop).
    - unfold I. split; [lia |].
      split; [| split]; apply accumulated_refl; auto;
        intros i' j'; bool_cases.
    - intros m [[A1 B1] D1] [[A2 B2] D2] Hm (_ & HA1 & HB1 & HD1) Hstep.
      apply abd_ply_loop in Hstep;
        [| exact Hi | exact Hm | apply HA1 | apply HB1 | apply HD1].
      destruct Hstep as (Hlen & HA2 & HB2 & HD2). unfold I.
      split; [auto |].
      split; [| split];
        (eapply accumulated_trans; [eassumption | eassumption |]);
        intros i' j'; bool_cases. }
  destruct HI as (Hlen & HA' & HB' & HD').
  split; [apply Hlen; lia | auto].
Qed.

Lemma abd_row_loop (A B D A' B' D' : matrix) :
  shape3 A -> shape3 B -> shape3 D ->
  for_range 3 (fun i => for_range 3 (fun j =>
    for_range k (abd_step Q_bar t z i j))) (A, B, D) = Ok (A', B', D') ->
  ((k <= length Q_bar)%nat /\ (k <= length t)%nat /\ (k <= length z)%nat) /\
  accumulated A A'
    (fun i' j' => if (i' <? 3)%nat && (j' <? 3)%nat
                  then sum_over_plies (A_term Q_bar t i' j') k else 0) /\
  accumulated B B'
    (fun i' j' => if (i' <? 3)%nat && (j' <? 3)%nat
                  then sum_over_plies (B_term Q_bar t z i' j') k else 0) /\
  accumulated D D'
    (fun i' j' => if (i' <? 3)%nat && (j' <? 3)%nat
                  then sum_over_plies (D_term Q_bar t z i' j') k else 0).
Proof.
  intros HA HB HD Hloop.
  pose (I := fun (m : nat)
                 (st : list (list R) * list (list R) * list (list R)) =>
    let '(A1, B1, D1) := st in
    ((0 < m)%nat -> (k <= length Q_bar)%nat /\ (k <= length t)%nat /\
                    (k <= length z)%nat) /\
    accumulated A A1
      (fun i' j' => if (i' <? m)%nat && (j' <? 3)%nat
                    then sum_over_plies (A_term Q_bar t i' j') k else 0) /\
    accumulated B B1
      (fun i' j' => if (i' <? m)%nat && (j' <? 3)%nat
                    then sum_over_plies (B_term Q_bar t z i' j') k else 0) /\
    accumulated D D1
      (fun i' j' => if (i' <? m)%nat && (j' <? 3)%nat
                    then sum_over_plies (D_term Q_bar t z i' j') k else 0)).
  assert (HI : I 3%nat (A', B', D')).
  { refine (for_range_invariant _ I 3 _ (A', B', D') _ _ Hloop).
    - unfold I. split; [lia |].
      split; [| split]; apply accumulated_refl; auto;
        intros i' j'; bool_cases.
    - intros m [[A1 B1] D1] [[A2 B2] D2] Hm (_ & HA1 & HB1 & HD1) Hstep.
      apply abd_column_loop in Hstep;
        [| exact Hm | apply HA1 | apply HB1 | apply HD1].
      destruct Hstep as (Hlen & HA2 & HB2 & HD2). unfold I.
      split; [auto |].
      split; [| split];
        (eapply accumulated_trans; [eassumption | eassumption |]);
        intros i' j'; bool_cases. }
  destruct HI as (Hlen & HA' & HB' & HD').
  split; [apply Hlen; lia | auto].
Qed.

(** What [_calculate_ABD_matrices] returns: every entry is the sum of the
    per-ply terms, in the form the loop adds them. *)
Theorem calculate_ABD_matrices_spec (A B D : matrix) :
  _calculate_ABD_matrices k Q_bar t z = Ok (A, B, D) ->
  ((k <= length Q_bar)%nat /\ (k <= length t)%nat /\ (k <= length z)%nat) /\
  shape3 A /\ shape3 B /\ shape3 D /\
  forall i j : nat, (i < 3)%nat -> (j < 3)%nat ->
    mget A i j = sum_over_plies (A_term Q_bar t i j) k /\
    mget B i j = sum_over_plies (B_term Q_bar t z i j) k /\
    mget D i j = sum_over_plies (D_term Q_bar t z i j) k.
Proof.
  unfold _calculate_ABD_matrices. intros H.
  apply abd_row_loop in H; try apply shape3_zeros.
  destruct H as (Hlen & [HsA HA] & [HsB HB] & [HsD HD]).
  split; [exact Hlen |].
  split; [exact HsA |]. split; [exact HsB |]. split; [exact HsD |].
  intros i j Hi Hj. rewrite HA, HB, HD, !mget_zeros.
  split; [| split]; bool_cases.
Qed.

Theorem calculate_ABD_matrices_total :
  (k <= length Q_bar)%nat -> (k <= length t)%nat -> (k <= length z)%nat ->
  exists A B D, _calculate_ABD_matrices k Q_bar t z = Ok (A, B, D).
Proof.
  intros HQ Ht Hz.
  assert (Hply : forall i j (st : list (list R) * list (list R) * list (list R)),
            exists st', for_range k (abd_step Q_bar t z i j) st = Ok st').
  { intros i j st.
    destruct (for_range_total (abd_step Q_bar t z i j) (fun _ _ => True) k
                st I) as (st' & H & _); [| eauto].
    intros n [[A1 B1] D1] Hn _. unfold abd_step.
    rewrite (py_index_nat Q_bar n []), (py_index_nat t n 0),
      (py_index_nat z n 0) by lia.
    unfold bind. eauto. }
  assert (Hcol : forall i (st : list (list R) * list (list R) * list (list R)),
            exists st', for_range 3 (fun j =>
              for_range k (abd_step Q_bar t z i j)) st = Ok st').
  { intros i st.
    destruct (for_range_total (fun j => for_range k (abd_step Q_bar t z i j))
                (fun _ _ => True) 3 st I) as (st' & H & _); [| eauto].
    intros j st1 _ _. destruct (Hply i j st1) as [st2 H2]. eauto. }
  unfold _calculate_ABD_matrices.
  destruct (for_range_total (fun i => for_range 3 (fun j =>
              for_range k (abd_step Q_bar t z i j)))
              (fun _ _ => True) 3
              (np_zeros2 3 3, np_zeros2 3 3, np_zeros2 3 3) I)
    as ([[A B] D] & H & _); [| eauto].
  intros i st1 _ _. destruct (Hcol i st1) as [st2 H2]. eauto.
Qed.
End AssemblyLoops.

(** ** The constructor *)

Lemma py_div_inv (x y q : R) : py_div x y = Ok q -> y <> 0 /\ q = x / y.
Proof.
  unfold py_div. destruct (Req_EM_T y 0) as [Hz | Hnz]; [discriminate |].
  intros H. injection H as <-. auto.
Qed.

Lemma py_div_ok (x y : R) : y <> 0 -> py_div x y = Ok (x / y).
Proof.
  intros Hnz. unfold py_div.
  destruct (Req_EM_T y 0) as [Hz | _]; [contradiction | reflexivity].
Qed.

Lemma py_div_zero (x : R) : py_div x 0 = Raise ZeroDivisionError.
Proof.
  unfold py_div. destruct (Req_EM_T 0 0) as [_ | Hnz]; [reflexivity |].
  now contradiction Hnz.
Qed.

Lemma calculate_Q_inv (E11 E22 G12 V12 V21 : R) (Q : matrix) :
  _calculate_Q E11 E22 G12 V12 V21 = Ok Q ->
  1 - V12 * V21 <> 0 /\ Q = Q_matrix E11 E22 G12 V12 V21.
Proof.
  unfold _calculate_Q. intros H.
  apply bind_Ok in H. destruct H as (q00 & H00 & H).
  apply bind_Ok in H. destruct H as (q01 & H01 & H).
  apply bind_Ok in H. destruct H as (q10 & H10 & H).
  apply bind_Ok in H. destruct H as (q11 & H11 & H).
  apply py_div_inv in H00, H01, H10, H11.
  destruct H00 as [Hnz ->], H01 as [_ ->], H10 as [_ ->], H11 as [_ ->].
  split; [exact Hnz |]. now injection H.
Qed.

Lemma calculate_Q_ok (E11 E22 G12 V12 V21 : R) :
  1 - V12 * V21 <> 0 ->
  _calculate_Q E11 E22 G12 V12 V21 = Ok (Q_matrix E11 E22 G12 V12 V21).
Proof.
  intros Hnz. unfold _calculate_Q.
  rewrite !py_div_ok by exact Hnz. reflexivity.
Qed.

Lemma firstn_map_length {X Y : Type} (f : X -> Y) (l : list X) :
  firstn (length l) (map f l) = map f l.
Proof.
  rewrite <- (length_map f l). apply firstn_all.
Qed.

(** Everything a successful construction establishes. *)
Theorem init_inv (layup_angles : list R) (thicknesses : thicknesses_arg)
  (mp : Material.dict) (self : Self.LaminateAnalysis) :
  __init__ layup_angles thicknesses mp = Ok self ->
  Material.E11 mp <> 0 /\
  1 - Material.V12 mp * Self.V21 self <> 0 /\
  Self.angles self = layup_angles /\
  Self.theta self = map (fun a => a * PI / 180) layup_angles /\
  Self.t self = thickness_array layup_angles thicknesses /\
  Self.k self = length layup_angles /\
  Self.V21 self = Material.V12 mp * Material.E22 mp / Material.E11 mp /\
  Self.Q self = Q_matrix (Material.E11 mp) (Material.E22 mp) (Material.G12 mp)
                         (Material.V12 mp) (Self.V21 self) /\
  _calculate_z_coordinates (Self.t self) (Self.k self) =
    Ok (Self.z self, Self.z_m self) /\
  Self.T self =
    map (fun th => T_matrix (cos th) (sin th)) (Self.theta self) /\
  Self.T_e self =
    map (fun th => T_e_matrix (cos th) (sin th)) (Self.theta self) /\
  Self.Q_bar self = map (Q_bar_matrix (Self.Q self)) (Self.theta self) /\
  _calculate_ABD_matrices (Self.k self) (Self.Q_bar self) (Self.t self)
                          (Self.z self) =
    Ok (Self.A self, Self.B self, Self.D self).
Proof.
  unfold __init__. intros H.
  apply bind_Ok in H. destruct H as (V21 & HV21 & H).
  apply bind_Ok in H. destruct H as (Q & HQ & H).
  apply bind_Ok in H. destruct H as ([z zm] & Hz & H).
  apply bind_Ok in H. destruct H as ([[Ts Tes] Qbs] & HT & H).
  apply bind_Ok in H. destruct H as ([[A B] D] & HABD & H).
  injection H as <-. cbn [Self.angles Self.theta Self.t Self.k Self.V21
    Self.Q Self.z Self.z_m Self.T Self.T_e Self.Q_bar Self.A Self.B Self.D].
  apply py_div_inv in HV21. destruct HV21 as [HE11 ->].
  apply calculate_Q_inv in HQ. destruct HQ as [Hden ->].
  apply transform_loop_spec in HT. destruct HT as (_ & -> & -> & ->).
  rewrite firstn_map_length in *.
  repeat split; auto.
Qed.

Theorem init_total (layup_angles : list R) (thicknesses : thicknesses_arg)
  (mp : Material.dict) :
  Material.E11 mp <> 0 ->
  1 - Material.V12 mp *
      (Material.V12 mp * Material.E22 mp / Material.E11 mp) <> 0 ->
  (length layup_angles <= length (thickness_array layup_angles thicknesses))%nat ->
  exists self, __init__ layup_angles thicknesses mp = Ok self.
Proof.
  intros HE11 Hden Hlen. unfold __init__.
  rewrite (py_div_ok _ _ HE11). unfold bind at 1.
  rewrite (calculate_Q_ok _ _ _ _ _ Hden). unfold bind at 1.
  fold (thickness_array layup_angles thicknesses).
  destruct (z_coordinates_total _ _ Hlen) as (z & zm & Hz).
  rewrite Hz. unfold bind at 1.
  destruct (transform_loop_total (map (fun a => a * PI / 180) layup_angles)
              (Q_matrix (Material.E11 mp) (Material.E22 mp) (Material.G12 mp)
                 (Material.V12 mp)
                 (Material.V12 mp * Material.E22 mp / Material.E11 mp))
              (length layup_angles)) as (Ts & Tes & Qbs & HT).
  { now rewrite length_map. }
  rewrite HT. unfold bind at 1.
  pose proof (transform_loop_spec _ _ _ _ _ _ HT) as (_ & _ & _ & HQbs).
  apply z_coordinates_spec in Hz. destruct Hz as (_ & Hlz & _).
  destruct (calculate_ABD_matrices_total Qbs
              (thickness_array layup_angles thicknesses) z
              (length layup_angles)) as (A & B & D & HABD).
  { rewrite HQbs, firstn_map_length, !length_map. lia. }
  { exact Hlen. }
  { lia. }
  rewrite HABD. unfold bind. eauto.
Qed.

Lemma example_material_valid :
  Material.E11 example_material <> 0 /\
  1 - Material.V12 example_material *
      (Material.V12 example_material * Material.E22 example_material /
       Material.E11 example_material) <> 0.
Proof. simpl. split; lra. Qed.

Lemma example_init (thicknesses : thicknesses_arg) :
  (length example_angles <=
   length (thickness_array example_angles thicknesses))%nat ->
  exists self, __init__ example_angles thicknesses example_material = Ok self.
Proof.
  intros Hlen. destruct example_material_valid as [HE Hden].
  now apply init_total.
Qed.

(** A material with [E11 = 0], or with [1 - V12 * V21 = 0], stops the
    constructor with a division by zero. *)
Theorem init_rejects_material (layup_angles : list R)
  (thicknesses : thicknesses_arg) (mp : Material.dict) :
  Material.E11 mp = 0 \/
  1 - Material.V12 mp *
      (Material.V12 mp * Material.E22 mp / Material.E11 mp) = 0 ->
  __init__ layup_angles thicknesses mp = Raise ZeroDivisionError.
Proof.
  intros Hbad. unfold __init__.
  destruct (Req_EM_T (Material.E11 mp) 0) as [HE | HE].
  - rewrite HE, py_div_zero. reflexivity.
  - destruct Hbad as [Hbad | Hbad]; [contradiction |].
    rewrite (py_div_ok _ _ HE). unfold bind at 1.
    unfold _calculate_Q. rewrite Hbad, py_div_zero. reflexivity.
Qed.

(** * Properties stated by the specification *)

(** ** C1: assembly of the stiffness submatrices *)

(** C1. For every laminate the constructor builds, with [k] plies, and every
    index pair [(i, j)] of the 3 by 3 arrays: [A[i, j]] is the sum over the
    plies of [Q_bar[ply][i, j] * t[ply]]; [B[i, j]] is one half of the sum of
    [Q_bar[ply][i, j] * (z[ply]^2 - (z[ply] - t[ply])^2)]; [D[i, j]] is one
    third of the sum of [Q_bar[ply][i, j] * (z[ply]^3 - (z[ply] - t[ply])^3)],
    where [z[ply]] is the top coordinate of the ply. The loop of
    [_calculate_ABD_matrices], which adds [0.5 * ...] and [(1/3) * ...] ply
    by ply, computes exactly these sums over the reals. *)
Theorem C1_abd_entries (layup_angles : list R) (thicknesses : thicknesses_arg)
  (mp : Material.dict) (self : Self.LaminateAnalysis) :
  __init__ layup_angles thicknesses mp = Ok self ->
  forall i j : nat, (i < 3)%nat -> (j < 3)%nat ->
    mget (Self.A self) i j = A_entry self i j /\
    mget (Self.B self) i j = B_entry self i j /\
    mget (Self.D self) i j = D_entry self i j.
Proof.
  intros Hinit i j Hi Hj.
  destruct (init_inv _ _ _ _ Hinit)
    as (_ & _ & _ & _ & _ & _ & _ & _ & _ & _ & _ & _ & HABD).
  apply calculate_ABD_matrices_spec in HABD.
  destruct HABD as (_ & _ & _ & _ & Hentries).
  destruct (Hentries i j Hi Hj) as (HA & HB & HD).
  unfold A_entry, B_entry, D_entry.
  rewrite HA, HB, HD, <- !sum_over_plies_scale.
  split; [reflexivity |].
  split; apply sum_over_plies_ext; intros p _;
    unfold B_term, D_term; lra.
Qed.

Lemma C1_abd_entries_witness :
  exists self,
    __init__ example_angles (Sequence [1; 2; 3]) example_material = Ok self /\
    mget (Self.A self) 0 1 = A_entry self 0 1 /\
    mget (Self.B self) 0 1 = B_entry self 0 1 /\
    mget (Self.D self) 0 1 = D_entry self 0 1.
Proof.
  destruct (example_init (Sequence [1; 2; 3])) as [self Hself].
  - simpl. lia.
  - exists self. split; [exact Hself |].
    apply (C1_abd_entries _ _ _ _ Hself 0%nat 1%nat); lia.
Defined.

(** ** C7: the transformation at angle zero *)

Lemma nth_map_in {X Y : Type} (f : X -> Y) (l : list X) (i : nat) (d : X)
  (e : Y) :
  (i < length l)%nat -> nth i (map f l) e = f (nth i l d).
Proof.
  intros Hi. rewrite (nth_indep _ e (f d)) by now rewrite length_map.
  apply map_nth.
Qed.

Ltac array_eq :=
  repeat match goal with
         | |- Ok _ = Ok _ => apply f_equal
         | |- (_, _) = (_, _) => apply f_equal2
         | |- _ :: _ = _ :: _ => apply f_equal2
         | |- [] = [] => reflexivity
         end.

Ltac array_compute :=
  cbv [T_matrix T_e_matrix T_inv_matrix Q_bar_matrix Q_matrix identity3
       matmul matvec transpose col ncols map dot seq hd length nth mget
       vadd vscale pow].

Lemma T_matrix_zero : T_matrix 1 0 = identity3.
Proof. array_compute. array_eq; ring. Qed.

Lemma T_e_matrix_zero : T_e_matrix 1 0 = identity3.
Proof. array_compute. array_eq; ring. Qed.

Lemma Q_bar_matrix_zero (Q : matrix) : shape3 Q -> Q_bar_matrix Q 0 = Q.
Proof.
  intros HQ.
  destruct (shape3_inv Q HQ) as (a & b & c & d & e & f & g & h & i & ->).
  unfold Q_bar_matrix. rewrite cos_0, sin_0.
  array_compute. array_eq; ring.
Qed.

(** C7. At fibre angle zero, [_calculate_transformation] returns the 3 by 3
    identity for the stress transform [T] and for the strain transform
    [T_e], and returns the material-axis stiffness [Q] itself, entry for
    entry, as the global stiffness [Q_bar]. So in every laminate the
    constructor builds, a ply whose angle is zero has [T] and [T_e] equal to
    the identity and [Q_bar] equal to [self.Q]. *)
Theorem C7_zero_angle_identity :
  (forall Q : matrix,
     shape3 Q ->
     _calculate_transformation 0 Q = Ok (identity3, identity3, Q)) /\
  (forall (layup_angles : list R) (thicknesses : thicknesses_arg)
          (mp : Material.dict) (self : Self.LaminateAnalysis) (ply : nat),
     __init__ layup_angles thicknesses mp = Ok self ->
     (ply < Self.k self)%nat ->
     nth ply (Self.angles self) 0 = 0 ->
     nth ply (Self.T self) [] = identity3 /\
     nth ply (Self.T_e self) [] = identity3 /\
     nth ply (Self.Q_bar self) [] = Self.Q self).
Proof.
  split.
  - intros Q HQ. rewrite calculate_transformation_eq.
    fold (Q_bar_matrix Q 0). rewrite (Q_bar_matrix_zero Q HQ).
    rewrite cos_0, sin_0, T_matrix_zero, T_e_matrix_zero. reflexivity.
  - intros layup_angles thicknesses mp self ply Hinit Hply Hangle.
    destruct (init_inv _ _ _ _ Hinit)
      as (_ & _ & Ha & Hth & _ & Hk & _ & HQ & _ & HT & HTe & HQb & _).
    assert (Hlen : (ply < length (Self.theta self))%nat)
      by (rewrite Hth, length_map; lia).
    assert (Htheta : nth ply (Self.theta self) 0 = 0).
    { rewrite Hth, (nth_map_in _ _ ply 0) by lia.
      rewrite <- Ha, Hangle. lra. }
    rewrite HT, HTe, HQb.
    rewrite !(nth_map_in _ _ ply 0 _ Hlen), Htheta.
    rewrite cos_0, sin_0, T_matrix_zero, T_e_matrix_zero.
    rewrite Q_bar_matrix_zero; [auto |].
    rewrite HQ. apply shape3_literal.
Qed.

Lemma C7_zero_angle_identity_witness :
  (shape3 (Q_matrix 2 1 1 (1 / 2) (1 / 4)) /\
   _calculate_transformation 0 (Q_matrix 2 1 1 (1 / 2) (1 / 4)) =
   Ok (identity3, identity3, Q_matrix 2 1 1 (1 / 2) (1 / 4))) /\
  (exists self,
     __init__ example_angles (Number 1) example_material = Ok self /\
     nth 0 (Self.T self) [] = identity3 /\
     nth 0 (Self.T_e self) [] = identity3 /\
     nth 0 (Self.Q_bar self) [] = Self.Q self).
Proof.
  destruct C7_zero_angle_identity as [Hfun Hlam].
  split.
  - split; [apply shape3_literal |].
    apply Hfun. apply shape3_literal.
  - destruct (example_init (Number 1)) as [self Hself]; [simpl; lia |].
    exists self. split; [exact Hself |].
    apply (Hlam _ _ _ self 0%nat Hself).
    + destruct (init_inv _ _ _ _ Hself) as (_ & _ & _ & _ & _ & Hk & _).
      rewrite Hk. simpl. lia.
    + destruct (init_inv _ _ _ _ Hself) as (_ & _ & Ha & _).
      rewrite Ha. reflexivity.
Defined.

(** ** C4: symmetry of the global stiffness *)

Lemma Q_matrix_symmetric (E11 E22 G12 V12 : R) :
  E11 <> 0 ->
  symmetric3 (Q_matrix E11 E22 G12 V12 (V12 * E22 / E11)).
Proof.
  intros HE i j Hi Hj.
  destruct i as [| [| [| i]]]; try lia;
    destruct j as [| [| [| j]]]; try lia;
    array_compute; try reflexivity.
  - f_equal. field. exact HE.
  - f_equal. field. exact HE.
Qed.

Lemma Q_bar_matrix_symmetric (Q : matrix) (th : R) :
  shape3 Q -> symmetric3 Q -> symmetric3 (Q_bar_matrix Q th).
Proof.
  intros HQ Hsym.
  destruct (shape3_inv Q HQ) as (a & b & c & d & e & f & g & h & l & ->).
  pose proof (Hsym 0%nat 1%nat ltac:(lia) ltac:(lia)) as H01.
  pose proof (Hsym 0%nat 2%nat ltac:(lia) ltac:(lia)) as H02.
  pose proof (Hsym 1%nat 2%nat ltac:(lia) ltac:(lia)) as H12.
  cbn [mget nth] in H01, H02, H12. subst d g h.
  intros i j Hi Hj.
  destruct i as [| [| [| i]]]; try lia;
    destruct j as [| [| [| j]]]; try lia;
    array_compute; ring.
Qed.

(** C4. For every ply of every laminate the constructor builds (any real
    fibre angle, any material it accepts), the global-axis reduced stiffness
    [Q_bar = inv(T) @ Q @ T_e] is a symmetric 3 by 3 matrix. *)
Theorem C4_Q_bar_symmetric (layup_angles : list R)
  (thicknesses : thicknesses_arg) (mp : Material.dict)
  (self : Self.LaminateAnalysis) (ply : nat) :
  __init__ layup_angles thicknesses mp = Ok self ->
  (ply < Self.k self)%nat ->
  shape3 (nth ply (Self.Q_bar self) []) /\
  symmetric3 (nth ply (Self.Q_bar self) []).
Proof.
  intros Hinit Hply.
  destruct (init_inv _ _ _ _ Hinit)
    as (HE & _ & _ & Hth & _ & Hk & HV21 & HQ & _ & _ & _ & HQb & _).
  rewrite HQb, Hth.
  rewrite (nth_map_in _ _ ply 0) by (rewrite length_map; lia).
  rewrite HQ, HV21. split.
  - apply shape3_literal.
  - apply Q_bar_matrix_symmetric.
    + apply shape3_literal.
    + now apply Q_matrix_symmetric.
Qed.

Lemma C4_Q_bar_symmetric_witness :
  exists self,
    __init__ example_angles (Number 1) example_material = Ok self /\
    (1 < Self.k self)%nat /\
    shape3 (nth 1 (Self.Q_bar self) []) /\
    symmetric3 (nth 1 (Self.Q_bar self) []).
Proof.
  destruct (example_init (Number 1)) as [self Hself].
  - simpl. lia.
  - assert (Hk : (1 < Self.k self)%nat).
    { destruct (init_inv _ _ _ _ Hself)
        as (_ & _ & _ & _ & _ & Hk & _). rewrite Hk. simpl. lia. }
    exists self. split; [exact Hself |]. split; [exact Hk |].
    exact (C4_Q_bar_symmetric _ _ _ _ 1 Hself Hk).
Defined.

(** ** C9: the constitutive law in material axes *)

Lemma Q_bar_matvec (Q : matrix) (th : R) (e : vector) :
  shape3 Q -> length e = 3%nat ->
  matvec (Q_bar_matrix Q th) e =
  matvec (T_inv_matrix (cos th) (sin th))
         (matvec Q (matvec (T_e_matrix (cos th) (sin th)) e)).
Proof.
  intros HQ He.
  destruct (shape3_inv Q HQ) as (a & b & c & d & f & g & h & l & m & ->).
  destruct (length3_inv e He) as (e0 & e1 & e2 & ->).
  array_compute. array_eq; ring.
Qed.

Lemma T_T_inv_matvec (c s : R) (v : vector) :
  c * c + s * s = 1 -> length v = 3%nat ->
  matvec (T_matrix c s) (matvec (T_inv_matrix c s) v) = v.
Proof.
  intros Hcs Hv.
  destruct (length3_inv v Hv) as (v0 & v1 & v2 & ->).
  array_compute. array_eq; nsatz.
Qed.

(** [T @ Q_bar = Q @ T_e], applied to a strain vector. *)
Lemma local_constitutive_law (Q : matrix) (th : R) (e : vector) :
  shape3 Q -> length e = 3%nat ->
  matvec (T_matrix (cos th) (sin th)) (matvec (Q_bar_matrix Q th) e) =
  matvec Q (matvec (T_e_matrix (cos th) (sin th)) e).
Proof.
  intros HQ He.
  rewrite (Q_bar_matvec Q th e HQ He).
  apply T_T_inv_matvec; [apply cos_sin_unit |].
  unfold matvec. rewrite length_map. apply HQ.
Qed.

Lemma init_lengths (layup_angles : list R) (thicknesses : thicknesses_arg)
  (mp : Material.dict) (self : Self.LaminateAnalysis) :
  __init__ layup_angles thicknesses mp = Ok self ->
  length (Self.theta self) = Self.k self /\
  (Self.k self <= length (Self.t self))%nat /\
  length (Self.z self) = Self.k self /\
  length (Self.z_m self) = Self.k self /\
  length (Self.Q_bar self) = Self.k self /\
  length (Self.T self) = Self.k self /\
  length (Self.T_e self) = Self.k self.
Proof.
  intros Hinit.
  destruct (init_inv _ _ _ _ Hinit)
    as (_ & _ & _ & Hth & _ & Hk & _ & _ & Hz & HT & HTe & HQb & _).
  apply z_coordinates_spec in Hz. destruct Hz as (Ht & Hlz & Hlzm & _).
  assert (Hlth : length (Self.theta self) = Self.k self).
  { now rewrite Hth, Hk, length_map. }
  rewrite HT, HTe, HQb, !length_map. auto 10.
Qed.

Lemma py_index_in_range {X : Type} (l : list X) (i : Z) (d : X) :
  (0 <= i < Z.of_nat (length l))%Z ->
  py_index l i = Ok (nth (Z.to_nat i) l d).
Proof.
  intros Hi. rewrite <- (Z2Nat.id i) at 1 by lia.
  apply py_index_nat. lia.
Qed.

Lemma length_vadd (u v : vector) :
  length u = length v -> length (vadd u v) = length u.
Proof.
  revert v. induction u as [| a u IH]; intros [| b v]; simpl;
    try discriminate; auto.
Qed.

Lemma length_matvec (M : matrix) (x : vector) :
  length (matvec M x) = length M.
Proof. apply length_map. Qed.

Lemma np_add_same (u v : vector) :
  length u = length v -> np_add u v = Ok (vadd u v).
Proof. intros H. unfold np_add. now rewrite H, Nat.eqb_refl. Qed.

Lemma np_matmul_ok (M : matrix) (x : vector) :
  shape3 M -> length x = 3%nat -> np_matmul M x = Ok (matvec M x).
Proof.
  intros HM Hx.
  destruct (shape3_inv M HM) as (a & b & c & d & e & f & g & h & i & ->).
  unfold np_matmul. now rewrite Hx.
Qed.

(** The three matrices the constructor stores for a ply are 3 by 3. *)
Lemma init_ply_shapes (layup_angles : list R)
  (thicknesses : thicknesses_arg) (mp : Material.dict)
  (self : Self.LaminateAnalysis) (ply : nat) :
  __init__ layup_angles thicknesses mp = Ok self ->
  (ply < Self.k self)%nat ->
  shape3 (nth ply (Self.Q_bar self) []) /\
  shape3 (nth ply (Self.T self) []) /\
  shape3 (nth ply (Self.T_e self) []).
Proof.
  intros Hinit Hply.
  destruct (init_inv _ _ _ _ Hinit)
    as (_ & _ & _ & _ & _ & _ & _ & HQ & _ & HT & HTe & HQb & _).
  destruct (init_lengths _ _ _ _ Hinit) as (Hth & _).
  assert (Hi : (ply < length (Self.theta self))%nat) by lia.
  rewrite HQb, HT, HTe.
  rewrite (nth_map_in _ _ _ 0 _ Hi), (nth_map_in _ _ _ 0 _ Hi),
    (nth_map_in _ _ _ 0 _ Hi).
  rewrite HQ. repeat split; apply shape3_literal.
Qed.

(** Ply recovery for a ply number between 1 and [k], on a midplane strain
    and a curvature of three components each. *)
Theorem recovery_in_range (layup_angles : list R)
  (thicknesses : thicknesses_arg) (mp : Material.dict)
  (self : Self.LaminateAnalysis) (ms cu : vector) (n : Z) :
  __init__ layup_angles thicknesses mp = Ok self ->
  length ms = 3%nat -> length cu = 3%nat ->
  (1 <= n <= Z.of_nat (Self.k self))%Z ->
  let i := Z.to_nat (n - 1) in
  let global_strain := vadd ms (vscale (nth i (Self.z_m self) 0) cu) in
  let global_stress := matvec (nth i (Self.Q_bar self) []) global_strain in
  calculate_ply_strains_stresses self ms cu n =
  Ok (global_strain,
      global_stress,
      matvec (nth i (Self.T_e self) []) global_strain,
      matvec (nth i (Self.T self) []) global_stress).
Proof.
  intros Hinit Hms Hcu Hn.
  destruct (init_lengths _ _ _ _ Hinit)
    as (_ & _ & _ & Hzm & HQb & HT & HTe).
  destruct (init_ply_shapes _ _ _ self (Z.to_nat (n - 1)) Hinit)
    as (HsQ & HsT & HsTe); [lia |].
  unfold calculate_ply_strains_stresses.
  rewrite (py_index_in_range (Self.z_m self) (n - 1) 0) by lia.
  rewrite (py_index_in_range (Self.Q_bar self) (n - 1) []) by lia.
  rewrite (py_index_in_range (Self.T_e self) (n - 1) []) by lia.
  rewrite (py_index_in_range (Self.T self) (n - 1) []) by lia.
  cbn [bind].
  assert (Hgs : length (vadd ms (vscale (nth (Z.to_nat (n - 1))
                                           (Self.z_m self) 0) cu)) = 3%nat).
  { rewrite length_vadd; [exact Hms |]. now rewrite length_vscale, Hms, Hcu. }
  rewrite np_add_same by (now rewrite length_vscale, Hms, Hcu).
  cbn [bind].
  rewrite (np_matmul_ok _ _ HsQ Hgs). cbn [bind].
  rewrite (np_matmul_ok _ _ HsTe Hgs). cbn [bind].
  rewrite (np_matmul_ok _ _ HsT) by (rewrite length_matvec; apply HsQ).
  reflexivity.
Qed.

(** Ply recovery for a ply number that no index of the arrays answers to. *)
Theorem recovery_out_of_range (layup_angles : list R)
  (thicknesses : thicknesses_arg) (mp : Material.dict)
  (self : Self.LaminateAnalysis) (ms cu : vector) (n : Z) :
  __init__ layup_angles thicknesses mp = Ok self ->
  (Z.of_nat (Self.k self) < n \/ n <= - Z.of_nat (Self.k self))%Z ->
  calculate_ply_strains_stresses self ms cu n = Raise IndexError.
Proof.
  intros Hinit Hn.
  destruct (init_lengths _ _ _ _ Hinit) as (_ & _ & _ & Hzm & _).
  unfold calculate_ply_strains_stresses.
  destruct Hn as [Hhigh | Hlow].
  - rewrite (py_index_high (Self.z_m self) (n - 1)) by lia. reflexivity.
  - rewrite (py_index_low (Self.z_m self) (n - 1)) by lia. reflexivity.
Qed.

(** Ply recovery for a ply number between [1 - k] and [0]: the index
    [n - 1] is negative and Python counts it from the end. *)
Theorem recovery_wraps (layup_angles : list R)
  (thicknesses : thicknesses_arg) (mp : Material.dict)
  (self : Self.LaminateAnalysis) (ms cu : vector) (n : Z) :
  __init__ layup_angles thicknesses mp = Ok self ->
  (- Z.of_nat (Self.k self) < n <= 0)%Z ->
  calculate_ply_strains_stresses self ms cu n =
  calculate_ply_strains_stresses self ms cu (n + Z.of_nat (Self.k self)).
Proof.
  intros Hinit Hn.
  destruct (init_lengths _ _ _ _ Hinit)
    as (_ & _ & _ & Hzm & HQb & HT & HTe).
  unfold calculate_ply_strains_stresses.
  rewrite (py_index_wrap (Self.z_m self) (n - 1) 0) by lia.
  rewrite (py_index_wrap (Self.Q_bar self) (n - 1) []) by lia.
  rewrite (py_index_wrap (Self.T_e self) (n - 1) []) by lia.
  rewrite (py_index_wrap (Self.T self) (n - 1) []) by lia.
  rewrite (py_index_in_range (Self.z_m self) _ 0) by lia.
  rewrite (py_index_in_range (Self.Q_bar self) _ []) by lia.
  rewrite (py_index_in_range (Self.T_e self) _ []) by lia.
  rewrite (py_index_in_range (Self.T self) _ []) by lia.
  rewrite Hzm, HQb, HT, HTe.
  replace (n + Z.of_nat (Self.k self) - 1)%Z
    with (n - 1 + Z.of_nat (Self.k self))%Z by lia.
  reflexivity.
Qed.

(** C9. For every ply number [n] between 1 and [k] and every midplane
    strain and curvature (three components each), ply recovery returns a
    local stress that is the material-axis stiffness [Q] applied to the local
    strain it returns: [local_stress = Q @ local_strain]. *)
Theorem C9_local_constitutive_law (layup_angles : list R)
  (thicknesses : thicknesses_arg) (mp : Material.dict)
  (self : Self.LaminateAnalysis) (ms cu : vector) (n : Z) :
  __init__ layup_angles thicknesses mp = Ok self ->
  length ms = 3%nat -> length cu = 3%nat ->
  (1 <= n <= Z.of_nat (Self.k self))%Z ->
  exists global_strain global_stress local_strain local_stress,
    calculate_ply_strains_stresses self ms cu n =
      Ok (global_strain, global_stress, local_strain, local_stress) /\
    local_stress = matvec (Self.Q self) local_strain.
Proof.
  intros Hinit Hms Hcu Hn.
  rewrite (recovery_in_range _ _ _ _ ms cu n Hinit Hms Hcu Hn).
  do 4 eexists. split; [reflexivity |].
  destruct (init_inv _ _ _ _ Hinit)
    as (_ & _ & _ & _ & _ & _ & _ & HQ & _ & HT & HTe & HQb & _).
  destruct (init_lengths _ _ _ _ Hinit) as (Hth & _).
  assert (Hi : (Z.to_nat (n - 1) < length (Self.theta self))%nat) by lia.
  rewrite HT, HTe, HQb.
  rewrite (nth_map_in _ _ _ 0 _ Hi), (nth_map_in _ _ _ 0 _ Hi),
    (nth_map_in _ _ _ 0 _ Hi).
  apply local_constitutive_law.
  - rewrite HQ. apply shape3_literal.
  - destruct (length3_inv ms Hms) as (m0 & m1 & m2 & ->).
    destruct (length3_inv cu Hcu) as (c0 & c1 & c2 & ->).
    reflexivity.
Qed.

Lemma C9_local_constitutive_law_witness :
  exists self,
    __init__ example_angles (Number 1) example_material = Ok self /\
    exists global_strain global_stress local_strain local_stress,
      calculate_ply_strains_stresses self [1; 2; 3] [4; 5; 6] 2 =
        Ok (global_strain, global_stress, local_strain, local_stress) /\
      local_stress = matvec (Self.Q self) local_strain.
Proof.
  destruct (example_init (Number 1)) as [self Hself].
  - simpl. lia.
  - exists self. split; [exact Hself |].
    apply (C9_local_constitutive_law _ _ _ _ [1; 2; 3] [4; 5; 6] 2 Hself).
    + reflexivity.
    + reflexivity.
    + destruct (init_inv _ _ _ _ Hself) as (_ & _ & _ & _ & _ & Hk & _).
      rewrite Hk. simpl. lia.
Defined.

(** ** A one-ply laminate, computed *)

Lemma matrix3_eta (M : matrix) :
  shape3 M ->
  M = [ [mget M 0 0; mget M 0 1; mget M 0 2];
        [mget M 1 0; mget M 1 1; mget M 1 2];
        [mget M 2 0; mget M 2 1; mget M 2 2] ].
Proof.
  intros HM.
  destruct (shape3_inv M HM) as (a & b & c & d & e & f & g & h & i & ->).
  reflexivity.
Qed.

Lemma length1_inv {X : Type} (l : list X) (d : X) :
  length l = 1%nat -> l = [nth 0 l d].
Proof.
  destruct l as [| a [| b l]]; simpl; try discriminate. reflexivity.
Qed.

(** One ply of the example material at angle zero, of thickness [t]:
    [A = t Q], [B = 0] and [D = t^3 / 12 Q]. *)
Lemma one_ply_init (t : R) :
  exists self, __init__ [0] (Number t) example_material = Ok self.
Proof.
  destruct example_material_valid as [HE Hden].
  apply init_total; auto.
Qed.

Lemma one_ply_abd (t : R) (self : Self.LaminateAnalysis) :
  __init__ [0] (Number t) example_material = Ok self ->
  abd_matrix self =
  [ [16 / 7 * t; 4 / 7 * t; 0; 0; 0; 0];
    [4 / 7 * t; 8 / 7 * t; 0; 0; 0; 0];
    [0; 0; t; 0; 0; 0];
    [0; 0; 0; 4 / 21 * t ^ 3; 1 / 21 * t ^ 3; 0];
    [0; 0; 0; 1 / 21 * t ^ 3; 2 / 21 * t ^ 3; 0];
    [0; 0; 0; 0; 0; 1 / 12 * t ^ 3] ].
Proof.
  intros Hinit.
  destruct (init_inv _ _ _ _ Hinit)
    as (_ & _ & _ & Hth & Ht & Hk & HV21 & HQ & Hz & _ & _ & HQb & HABD).
  apply calculate_ABD_matrices_spec in HABD.
  destruct HABD as (_ & HsA & HsB & HsD & Hentries).
  apply z_coordinates_spec in Hz. destruct Hz as (_ & Hlz & _ & Hzs).
  rewrite Hk in *. cbn [length] in *.
  destruct (Hzs 0%nat ltac:(lia)) as [Hz0 _].
  rewrite (length1_inv _ 0 Hlz), Hz0, Ht in Hentries.
  rewrite HQb, Hth, HQ, HV21 in Hentries.
  cbn [map thickness_array np_full repeat length firstn np_sum fold_right
       Material.E11 Material.E22 Material.G12 Material.V12 example_material]
    in Hentries.
  replace (0 * PI / 180) with 0 in Hentries by lra.
  rewrite Q_bar_matrix_zero in Hentries by apply shape3_literal.
  unfold abd_matrix.
  rewrite (matrix3_eta _ HsA), (matrix3_eta _ HsB), (matrix3_eta _ HsD).
  cbn [np_block hstack app].
  repeat match goal with
         | |- context [mget (Self.A self) ?i ?j] =>
             let H := fresh in
             destruct (Hentries i j ltac:(lia) ltac:(lia)) as (H & _ & _);
             rewrite H; clear H
         | |- context [mget (Self.B self) ?i ?j] =>
             let H := fresh in
             destruct (Hentries i j ltac:(lia) ltac:(lia)) as (_ & H & _);
             rewrite H; clear H
         | |- context [mget (Self.D self) ?i ?j] =>
             let H := fresh in
             destruct (Hentries i j ltac:(lia) ltac:(lia)) as (_ & _ & H);
             rewrite H; clear H
         end.
  cbv [sum_over_plies A_term B_term D_term nth mget Q_matrix pow].
  array_eq; field.
Qed.

Lemma length6_inv (x : vector) :
  length x = 6%nat -> exists a b c d e f, x = [a; b; c; d; e; f].
Proof.
  destruct x as [| a [| b [| c [| d [| e [| f [| g x]]]]]]]; simpl;
    try discriminate.
  intros _. repeat eexists.
Qed.

Lemma one_ply_nonsingular (t : R) (self : Self.LaminateAnalysis) :
  t <> 0 ->
  __init__ [0] (Number t) example_material = Ok self ->
  nonsingular (abd_matrix self).
Proof.
  intros Ht Hinit. rewrite (one_ply_abd t self Hinit).
  intros x Hlen Hx. cbn [length] in Hlen.
  destruct (length6_inv x Hlen) as (a & b & c & d & e & f & ->).
  cbv [matvec map dot length np_zeros repeat pow] in Hx |- *.
  injection Hx as H0 H1 H2 H3 H4 H5.
  assert (Ht3 : t * (t * (t * 1)) <> 0).
  { repeat apply Rmult_integral_contrapositive_currified; auto; lra. }
  assert (Ha : t * a = 0) by lra.
  assert (Hb : t * b = 0) by lra.
  assert (Hc : t * c = 0) by lra.
  assert (Hd : t * (t * (t * 1)) * d = 0) by lra.
  assert (He : t * (t * (t * 1)) * e = 0) by lra.
  assert (Hf : t * (t * (t * 1)) * f = 0) by lra.
  apply Rmult_integral in Ha, Hb, Hc, Hd, He, Hf.
  array_eq; tauto.
Qed.

(** The same ply with thickness 1. *)
Lemma single_ply_abd (self : Self.LaminateAnalysis) :
  __init__ [0] (Number 1) example_material = Ok self ->
  abd_matrix self =
  [ [16 / 7; 4 / 7; 0; 0; 0; 0];
    [4 / 7; 8 / 7; 0; 0; 0; 0];
    [0; 0; 1; 0; 0; 0];
    [0; 0; 0; 4 / 21; 1 / 21; 0];
    [0; 0; 0; 1 / 21; 2 / 21; 0];
    [0; 0; 0; 0; 0; 1 / 12] ].
Proof.
  intros Hinit. rewrite (one_ply_abd 1 self Hinit).
  array_eq; field.
Qed.

Lemma single_ply_nonsingular (self : Self.LaminateAnalysis) :
  __init__ [0] (Number 1) example_material = Ok self ->
  nonsingular (abd_matrix self).
Proof. apply one_ply_nonsingular. lra. Qed.

Lemma single_ply_init :
  exists self, __init__ [0] (Number 1) example_material = Ok self.
Proof. apply one_ply_init. Qed.

(** A laminate without plies: it is constructed, and A, B and D stay zero. *)
Lemma zero_ply_init (thicknesses : thicknesses_arg) :
  exists self,
    __init__ [] thicknesses example_material = Ok self /\
    Self.k self = 0%nat /\
    Self.A self = np_zeros2 3 3 /\ Self.B self = np_zeros2 3 3 /\
    Self.D self = np_zeros2 3 3.
Proof.
  destruct example_material_valid as [HE Hden].
  destruct (init_total [] thicknesses example_material HE Hden)
    as [self Hself]; [simpl; lia |].
  exists self. split; [exact Hself |].
  destruct (init_inv _ _ _ _ Hself)
    as (_ & _ & _ & _ & _ & Hk & _ & _ & _ & _ & _ & _ & HABD).
  rewrite Hk in HABD. cbn [length] in HABD.
  cbv [_calculate_ABD_matrices for_range foldM seq bind] in HABD.
  injection HABD as <- <- <-. auto.
Qed.

Lemma zero_ply_singular (self : Self.LaminateAnalysis) :
  Self.A self = np_zeros2 3 3 -> Self.B self = np_zeros2 3 3 ->
  Self.D self = np_zeros2 3 3 -> singular (abd_matrix self).
Proof.
  intros HA HB HD. unfold abd_matrix. rewrite HA, HB, HD.
  exists [1; 0; 0; 0; 0; 0]. split; [reflexivity |]. split.
  - cbv [matvec map dot np_block hstack app np_zeros2 np_zeros repeat length].
    array_eq; ring.
  - cbv [np_block hstack app np_zeros2 np_zeros repeat length].
    intros H. injection H as H. lra.
Qed.

(** ** C2 and C5: the response solve *)

Lemma abd_square (self : Self.LaminateAnalysis) :
  shape3 (Self.A self) -> shape3 (Self.B self) -> shape3 (Self.D self) ->
  length (abd_matrix self) = 6%nat /\ square (abd_matrix self).
Proof.
  intros HA HB HD. unfold abd_matrix.
  rewrite (matrix3_eta _ HA), (matrix3_eta _ HB), (matrix3_eta _ HD).
  split; [reflexivity | repeat constructor].
Qed.

Lemma init_abd_square (layup_angles : list R) (thicknesses : thicknesses_arg)
  (mp : Material.dict) (self : Self.LaminateAnalysis) :
  __init__ layup_angles thicknesses mp = Ok self ->
  length (abd_matrix self) = 6%nat /\ square (abd_matrix self).
Proof.
  intros Hinit.
  destruct (init_inv _ _ _ _ Hinit)
    as (_ & _ & _ & _ & _ & _ & _ & _ & _ & _ & _ & _ & HABD).
  apply calculate_ABD_matrices_spec in HABD.
  destruct HABD as (_ & HsA & HsB & HsD & _).
  now apply abd_square.
Qed.

Lemma reshape_3_1_ok (v : vector) : length v = 3%nat -> reshape_3_1 v = Ok v.
Proof. intros H. unfold reshape_3_1. now rewrite H. Qed.

(** What [calculate_response] does, in terms of the solver. *)
Lemma calculate_response_eq (self : Self.LaminateAnalysis)
  (forces moments : vector) :
  length forces = 3%nat -> length moments = 3%nat ->
  calculate_response self forces moments =
  (x <- linalg_solve (abd_matrix self) (forces ++ moments) ;;
   Ok (firstn 3 x, skipn 3 x)).
Proof.
  intros Hf Hm. unfold calculate_response.
  rewrite (reshape_3_1_ok _ Hf), (reshape_3_1_ok _ Hm). reflexivity.
Qed.

(** C2. For every laminate the constructor builds whose 6 by 6 matrix
    [[A, B], [B, D]] is non-singular, and every load of three forces and
    three moments, [calculate_response] returns midplane strains and
    curvatures, and multiplying the matrix by that response (strains followed
    by curvatures) gives back the load, exactly over the reals. The response
    is the only vector the matrix sends to the load. *)
Theorem C2_response_round_trip (layup_angles : list R)
  (thicknesses : thicknesses_arg) (mp : Material.dict)
  (self : Self.LaminateAnalysis) (forces moments : vector) :
  __init__ layup_angles thicknesses mp = Ok self ->
  length forces = 3%nat -> length moments = 3%nat ->
  nonsingular (abd_matrix self) ->
  exists midplane_strains curvatures,
    calculate_response self forces moments =
      Ok (midplane_strains, curvatures) /\
    length midplane_strains = 3%nat /\ length curvatures = 3%nat /\
    matvec (abd_matrix self) (midplane_strains ++ curvatures) =
      forces ++ moments /\
    forall y : vector,
      length y = 6%nat ->
      matvec (abd_matrix self) y = forces ++ moments ->
      y = midplane_strains ++ curvatures.
Proof.
  intros Hinit Hf Hm Hns.
  destruct (init_abd_square _ _ _ _ Hinit) as [Hlen Hsq].
  assert (Hb : length (forces ++ moments) = length (abd_matrix self)).
  { rewrite length_app, Hf, Hm, Hlen. reflexivity. }
  destruct (linalg_solve_complete _ _ Hsq Hb Hns) as [x Hx].
  destruct (linalg_solve_sound _ _ _ Hsq Hb Hx) as [Hlx HMx].
  exists (firstn 3 x), (skipn 3 x). split; [| split; [| split; [| split]]].
  - rewrite (calculate_response_eq self _ _ Hf Hm), Hx. reflexivity.
  - rewrite length_firstn. lia.
  - rewrite length_skipn. lia.
  - now rewrite firstn_skipn.
  - intros y Hy HMy. rewrite firstn_skipn.
    assert (Hy' : length y = length (abd_matrix self)) by congruence.
    pose proof (linalg_solve_eq _ _ y Hsq Hns Hy' HMy) as Hxy.
    congruence.
Qed.

Lemma C2_response_round_trip_witness :
  exists self midplane_strains curvatures,
    __init__ [0] (Number 1) example_material = Ok self /\
    calculate_response self [1; 2; 3] [4; 5; 6] =
      Ok (midplane_strains, curvatures) /\
    matvec (abd_matrix self) (midplane_strains ++ curvatures) =
      [1; 2; 3] ++ [4; 5; 6].
Proof.
  destruct single_ply_init as [self Hself].
  destruct (C2_response_round_trip _ _ _ self [1; 2; 3] [4; 5; 6] Hself
              eq_refl eq_refl (single_ply_nonsingular self Hself))
    as (ms & cu & Hresp & _ & _ & Hload & _).
  exists self, ms, cu. auto.
Defined.

(** C5, as the code has it. [calculate_response] tests no condition number
    and has no [SingularLaminate]: the matrix goes to [np.linalg.solve] as it
    is. For every laminate the constructor builds and every load of three
    forces and three moments: when the 6 by 6 matrix [[A, B], [B, D]] is
    singular (rank deficient, as it is for a laminate without plies),
    [calculate_response] fails at the solve with numpy's [LinAlgError], and
    it fails in no other case; when the matrix is non-singular, whatever its
    condition number, it returns the solution [x] of the solve split into
    its first three components (the midplane strains) and its last three
    (the curvatures). *)
Theorem C5_response_solve (layup_angles : list R)
  (thicknesses : thicknesses_arg) (mp : Material.dict)
  (self : Self.LaminateAnalysis) (forces moments : vector) :
  __init__ layup_angles thicknesses mp = Ok self ->
  length forces = 3%nat -> length moments = 3%nat ->
  (singular (abd_matrix self) ->
   calculate_response self forces moments = Raise LinAlgError) /\
  (nonsingular (abd_matrix self) ->
   exists x,
     linalg_solve (abd_matrix self) (forces ++ moments) = Ok x /\
     length x = 6%nat /\
     matvec (abd_matrix self) x = forces ++ moments /\
     calculate_response self forces moments = Ok (firstn 3 x, skipn 3 x)) /\
  (forall e : exception,
     calculate_response self forces moments = Raise e ->
     e = LinAlgError /\ singular (abd_matrix self)).
Proof.
  intros Hinit Hf Hm.
  destruct (init_abd_square _ _ _ _ Hinit) as [Hlen Hsq].
  assert (Hb : length (forces ++ moments) = length (abd_matrix self)).
  { rewrite length_app, Hf, Hm, Hlen. reflexivity. }
  rewrite (calculate_response_eq self _ _ Hf Hm).
  assert (Hok : nonsingular (abd_matrix self) ->
    exists x,
      linalg_solve (abd_matrix self) (forces ++ moments) = Ok x /\
      length x = 6%nat /\
      matvec (abd_matrix self) x = forces ++ moments).
  { intros Hns.
    destruct (linalg_solve_complete _ _ Hsq Hb Hns) as [x Hx].
    destruct (linalg_solve_sound _ _ _ Hsq Hb Hx) as [Hlx HMx].
    exists x. repeat split; congruence. }
  split; [| split].
  - intros Hs. now rewrite (linalg_solve_singular _ _ Hsq Hb Hs).
  - intros Hns. destruct (Hok Hns) as (x & Hx & Hlx & HMx).
    exists x. rewrite Hx. auto.
  - intros e He.
    destruct (singular_or_nonsingular (abd_matrix self)) as [Hs | Hns].
    + rewrite (linalg_solve_singular _ _ Hsq Hb Hs) in He.
      injection He as <-. auto.
    + destruct (Hok Hns) as (x & Hx & _). rewrite Hx in He. discriminate.
Qed.

Lemma C5_response_solve_witness :
  (exists self,
     __init__ [] (Number 1) example_material = Ok self /\
     calculate_response self [1; 2; 3] [4; 5; 6] = Raise LinAlgError) /\
  (exists self x,
     __init__ [0] (Number 1) example_material = Ok self /\
     linalg_solve (abd_matrix self) ([1; 2; 3] ++ [4; 5; 6]) = Ok x /\
     length x = 6%nat /\
     calculate_response self [1; 2; 3] [4; 5; 6] =
       Ok (firstn 3 x, skipn 3 x)).
Proof.
  split.
  - destruct (zero_ply_init (Number 1)) as (self & Hself & _ & HA & HB & HD).
    exists self. split; [exact Hself |].
    apply (C5_response_solve _ _ _ self [1; 2; 3] [4; 5; 6] Hself
             eq_refl eq_refl).
    now apply zero_ply_singular.
  - destruct single_ply_init as [self Hself].
    destruct (C5_response_solve _ _ _ self [1; 2; 3] [4; 5; 6] Hself
                eq_refl eq_refl) as (_ & Hns & _).
    destruct (Hns (single_ply_nonsingular self Hself))
      as (x & Hx & Hlx & _ & Hresp).
    exists self, x. auto.
Defined.

(** *** Ill-conditioned laminates *)

Lemma norm_sq_nonneg (v : vector) : 0 <= norm_sq v.
Proof.
  unfold norm_sq. induction v as [| a v IH]; simpl; [lra |]. nra.
Qed.

Lemma norm_sq_zeros (n : nat) : norm_sq (np_zeros n) = 0.
Proof. unfold norm_sq. apply dot_zeros_r. Qed.

Lemma norm_sq_pos (v : vector) : v <> np_zeros (length v) -> 0 < norm_sq v.
Proof.
  unfold norm_sq, np_zeros.
  induction v as [| a v IH]; simpl; intros Hv; [congruence |].
  destruct (Req_EM_T a 0) as [-> | Ha].
  - assert (Hv' : v <> repeat 0 (length v)) by congruence.
    specialize (IH Hv'). lra.
  - pose proof (norm_sq_nonneg v) as Hn. unfold norm_sq in Hn. nra.
Qed.

(** A rank-deficient matrix is numerically singular at every threshold. *)
Lemma singular_numerically_singular (M : matrix) (c : R) :
  singular M -> numerically_singular c M.
Proof.
  intros (y & Hlen & Hker & Hy).
  assert (Hpos : 0 < norm_sq y) by (apply norm_sq_pos; congruence).
  exists y, y. repeat split; auto.
  rewrite Hker, norm_sq_zeros. lra.
Qed.

(** The identity is not numerically singular at any threshold above 1. *)
Lemma identity_well_conditioned (c : R) :
  0 < c -> numerically_singular c identity3 -> c <= 1.
Proof.
  intros Hc (x & y & Hx & Hy & Hpx & Hpy & Hratio).
  destruct (length3_inv x Hx) as (x0 & x1 & x2 & ->).
  destruct (length3_inv y Hy) as (y0 & y1 & y2 & ->).
  cbv [norm_sq identity3 matvec map dot pow] in *.
  match type of Hratio with
  | _ * (?a * ?p) <= ?b * ?q =>
      replace a with q in Hratio by ring;
      replace b with p in Hratio by ring;
      generalize dependent p; generalize dependent q
  end.
  intros q Hq p Hp Hratio.
  destruct (Rle_or_lt c 1) as [Hle | Hlt]; [exact Hle | exfalso].
  assert (Hpq : 0 < q * p) by now apply Rmult_lt_0_compat.
  assert (Hcc : 1 < c * c) by nra.
  nra.
Qed.

(** The stretch of the first axis is [12 / t^2] times the stretch of the
    fourth: the condition number of the matrix is at least [12 / t^2]. *)
Lemma one_ply_condition (t c : R) (self : Self.LaminateAnalysis) :
  t <> 0 -> 0 <= c -> c * t ^ 2 <= 12 ->
  __init__ [0] (Number t) example_material = Ok self ->
  numerically_singular c (abd_matrix self).
Proof.
  intros Ht Hc Hct Hinit. rewrite (one_ply_abd t self Hinit).
  exists [1; 0; 0; 0; 0; 0], [0; 0; 0; 1; 0; 0].
  split; [reflexivity |]. split; [reflexivity |].
  cbv [norm_sq matvec map dot pow] in *.
  split; [lra |]. split; [lra |].
  assert (Ht2 : 0 < t * t) by (apply Rsqr_pos_lt in Ht; exact Ht).
  assert (Hsq : (c * (t * t)) * (c * (t * t)) <= 12 * 12).
  { apply Rmult_le_compat; nra. }
  ring_simplify.
  assert (Hgoal :
    (17 / 441) * (t * t) * ((c * (t * t)) * (c * (t * t))) <=
    (17 / 441) * (t * t) * (12 * 12)).
  { apply Rmult_le_compat_l; [nra | exact Hsq]. }
  nra.
Qed.

Lemma response_returns (layup_angles : list R)
  (thicknesses : thicknesses_arg) (mp : Material.dict)
  (self : Self.LaminateAnalysis) (forces moments : vector) :
  __init__ layup_angles thicknesses mp = Ok self ->
  length forces = 3%nat -> length moments = 3%nat ->
  nonsingular (abd_matrix self) ->
  exists midplane_strains curvatures,
    calculate_response self forces moments =
      Ok (midplane_strains, curvatures).
Proof.
  intros Hinit Hf Hm Hns.
  destruct (init_abd_square _ _ _ _ Hinit) as [Hlen Hsq].
  assert (Hb : length (forces ++ moments) = length (abd_matrix self)).
  { rewrite length_app, Hf, Hm, Hlen. reflexivity. }
  destruct (linalg_solve_complete _ _ Hsq Hb Hns) as [x Hx].
  rewrite (calculate_response_eq self _ _ Hf Hm), Hx.
  simpl. eauto.
Qed.

(** A thin ply is solved, however large the condition number: for every
    threshold there is a laminate beyond it whose response is returned. *)
Lemma ill_conditioned_response (threshold : R) :
  0 < threshold ->
  exists self midplane_strains curvatures,
    __init__ [0] (Number (/ (threshold + 1))) example_material = Ok self /\
    numerically_singular threshold (abd_matrix self) /\
    calculate_response self [1; 2; 3] [4; 5; 6] =
      Ok (midplane_strains, curvatures).
Proof.
  intros Hthr.
  set (t := / (threshold + 1)).
  assert (Ht : 0 < t) by (apply Rinv_0_lt_compat; lra).
  assert (Hinv : t * (threshold + 1) = 1) by (unfold t; field; lra).
  destruct (one_ply_init t) as [self Hself].
  destruct (response_returns _ _ _ self [1; 2; 3] [4; 5; 6] Hself
              eq_refl eq_refl) as (ms & cu & Hresp).
  { apply (one_ply_nonsingular t); [lra | exact Hself]. }
  exists self, ms, cu. split; [exact Hself |]. split; [| exact Hresp].
  apply (one_ply_condition t); [lra | lra | | exact Hself].
  cbn [pow]. nra.
Qed.

(** The original claim fails. One ply of the example material a billionth
    of an inch thick has a matrix whose condition number is at least
    [10^19], far beyond what double precision resolves, and
    [calculate_response] returns its response all the same; and no choice of
    threshold makes the solve fail for every matrix beyond it. *)
Lemma C5_counterexample :
  (exists self midplane_strains curvatures,
     __init__ [0] (Number (1 / 10 ^ 9)) example_material = Ok self /\
     numerically_singular (10 ^ 19) (abd_matrix self) /\
     calculate_response self [1; 2; 3] [4; 5; 6] =
       Ok (midplane_strains, curvatures)) /\
  ~ (exists threshold : R,
       0 < threshold /\
       forall (layup_angles : list R) (thicknesses : thicknesses_arg)
              (mp : Material.dict) (self : Self.LaminateAnalysis)
              (forces moments : vector),
         __init__ layup_angles thicknesses mp = Ok self ->
         length forces = 3%nat -> length moments = 3%nat ->
         numerically_singular threshold (abd_matrix self) ->
         exists e, calculate_response self forces moments = Raise e).
Proof.
  split.
  - destruct (one_ply_init (1 / 10 ^ 9)) as [self Hself].
    assert (Ht : 1 / 10 ^ 9 <> 0).
    { apply Rgt_not_eq. apply Rdiv_lt_0_compat; [lra |]. apply pow_lt. lra. }
    destruct (response_returns _ _ _ self [1; 2; 3] [4; 5; 6] Hself
                eq_refl eq_refl) as (ms & cu & Hresp).
    { now apply (one_ply_nonsingular (1 / 10 ^ 9)). }
    exists self, ms, cu. split; [exact Hself |]. split; [| exact Hresp].
    apply (one_ply_condition (1 / 10 ^ 9)); [exact Ht | | | exact Hself].
    + apply pow_le. lra.
    + replace (10 ^ 19 * (1 / 10 ^ 9) ^ 2) with 10 by field. lra.
  - intros (threshold & Hthr & Hclaim).
    destruct (ill_conditioned_response threshold Hthr)
      as (self & ms & cu & Hself & Hsing & Hresp).
    destruct (Hclaim _ _ _ self [1; 2; 3] [4; 5; 6] Hself eq_refl eq_refl
                Hsing) as [e He].
    rewrite Hresp in He. discriminate.
Qed.

(** ** C6: ply recovery and the ply number *)

(** C6, as the code has it. There is no range check and no
    [PlyIndexOutOfRange]: the ply number [n] is turned into the index
    [n - 1] of the per-ply arrays. Ply recovery fails, with Python's
    [IndexError], for every [n > k] and every [n <= -k], whatever the strain
    and curvature arrays are; for [1 <= n <= k] and a midplane strain and a
    curvature of three components each it returns
    [global_strain = midplane_strain + z_mid[n] * curvature],
    [global_stress = Q_bar[n] @ global_strain],
    [local_strain = T_e[n] @ global_strain] and
    [local_stress = T[n] @ global_stress]. *)
Theorem C6_ply_recovery (layup_angles : list R)
  (thicknesses : thicknesses_arg) (mp : Material.dict)
  (self : Self.LaminateAnalysis) (ms cu : vector) (n : Z) :
  __init__ layup_angles thicknesses mp = Ok self ->
  ((Z.of_nat (Self.k self) < n \/ n <= - Z.of_nat (Self.k self))%Z ->
   calculate_ply_strains_stresses self ms cu n = Raise IndexError) /\
  (length ms = 3%nat -> length cu = 3%nat ->
   (1 <= n <= Z.of_nat (Self.k self))%Z ->
   let i := Z.to_nat (n - 1) in
   let global_strain := vadd ms (vscale (nth i (Self.z_m self) 0) cu) in
   let global_stress := matvec (nth i (Self.Q_bar self) []) global_strain in
   calculate_ply_strains_stresses self ms cu n =
   Ok (global_strain,
       global_stress,
       matvec (nth i (Self.T_e self) []) global_strain,
       matvec (nth i (Self.T self) []) global_stress)).
Proof.
  intros Hinit. split.
  - now apply (recovery_out_of_range _ _ _ _ ms cu n Hinit).
  - intros Hms Hcu.
    exact (recovery_in_range _ _ _ _ ms cu n Hinit Hms Hcu).
Qed.

Lemma example_k (thicknesses : thicknesses_arg)
  (self : Self.LaminateAnalysis) :
  __init__ example_angles thicknesses example_material = Ok self ->
  Self.k self = 3%nat.
Proof.
  intros Hself.
  destruct (init_inv _ _ _ _ Hself) as (_ & _ & _ & _ & _ & Hk & _).
  exact Hk.
Qed.

Lemma C6_ply_recovery_witness :
  exists self,
    __init__ example_angles (Number 1) example_material = Ok self /\
    calculate_ply_strains_stresses self [1; 2; 3] [4; 5; 6] 4 =
      Raise IndexError /\
    calculate_ply_strains_stresses self [1; 2; 3] [4; 5; 6] (-3) =
      Raise IndexError /\
    exists global_strain global_stress local_strain local_stress,
      calculate_ply_strains_stresses self [1; 2; 3] [4; 5; 6] 3 =
        Ok (global_strain, global_stress, local_strain, local_stress).
Proof.
  destruct (example_init (Number 1)) as [self Hself]; [simpl; lia |].
  pose proof (example_k _ _ Hself) as Hk.
  exists self. split; [exact Hself |].
  destruct (C6_ply_recovery _ _ _ self [1; 2; 3] [4; 5; 6] 4 Hself)
    as [Hhigh _].
  destruct (C6_ply_recovery _ _ _ self [1; 2; 3] [4; 5; 6] (-3) Hself)
    as [Hlow _].
  destruct (C6_ply_recovery _ _ _ self [1; 2; 3] [4; 5; 6] 3 Hself)
    as [_ Hin].
  split; [apply Hhigh; rewrite Hk; lia |].
  split; [apply Hlow; rewrite Hk; lia |].
  do 4 eexists. apply Hin; [reflexivity | reflexivity |]. rewrite Hk. lia.
Defined.

(** Ply number 0 is below 1, and ply recovery does not fail for it: the
    index -1 selects the last ply. So it is not the case that recovery fails
    for every ply number outside [1 .. k]. *)
Lemma C6_counterexample :
  (exists self,
     __init__ example_angles (Number 1) example_material = Ok self /\
     (0 < 1)%Z /\
     calculate_ply_strains_stresses self [1; 2; 3] [4; 5; 6] 0 =
     calculate_ply_strains_stresses self [1; 2; 3] [4; 5; 6] 3 /\
     exists global_strain global_stress local_strain local_stress,
       calculate_ply_strains_stresses self [1; 2; 3] [4; 5; 6] 0 =
         Ok (global_strain, global_stress, local_strain, local_stress)) /\
  ~ (forall (layup_angles : list R) (thicknesses : thicknesses_arg)
            (mp : Material.dict) (self : Self.LaminateAnalysis)
            (ms cu : vector) (n : Z),
       __init__ layup_angles thicknesses mp = Ok self ->
       (n < 1 \/ Z.of_nat (Self.k self) < n)%Z ->
       exists e, calculate_ply_strains_stresses self ms cu n = Raise e).
Proof.
  destruct (example_init (Number 1)) as [self Hself]; [simpl; lia |].
  pose proof (example_k _ _ Hself) as Hk.
  assert (Hwrap :
    calculate_ply_strains_stresses self [1; 2; 3] [4; 5; 6] 0 =
    calculate_ply_strains_stresses self [1; 2; 3] [4; 5; 6] 3).
  { rewrite (recovery_wraps _ _ _ self [1; 2; 3] [4; 5; 6] 0 Hself)
      by (rewrite Hk; lia).
    now rewrite Hk. }
  assert (Hok : exists global_strain global_stress local_strain local_stress,
    calculate_ply_strains_stresses self [1; 2; 3] [4; 5; 6] 0 =
      Ok (global_strain, global_stress, local_strain, local_stress)).
  { rewrite Hwrap.
    rewrite (recovery_in_range _ _ _ self [1; 2; 3] [4; 5; 6] 3 Hself
               eq_refl eq_refl)
      by (rewrite Hk; lia).
    do 4 eexists. reflexivity. }
  split.
  - exists self. split; [exact Hself |]. split; [lia |]. auto.
  - intros Hclaim.
    destruct (Hclaim _ _ _ self [1; 2; 3] [4; 5; 6] 0%Z Hself) as [e He];
      [lia |].
    destruct Hok as (gs & gst & ls & lst & Hok).
    rewrite Hok in He. discriminate.
Qed.

(** ** C3: what the constructor rejects *)

Theorem init_short_thicknesses (layup_angles : list R)
  (thicknesses : thicknesses_arg) (mp : Material.dict) :
  Material.E11 mp <> 0 ->
  1 - Material.V12 mp *
      (Material.V12 mp * Material.E22 mp / Material.E11 mp) <> 0 ->
  (length (thickness_array layup_angles thicknesses) < length layup_angles)%nat ->
  __init__ layup_angles thicknesses mp = Raise IndexError.
Proof.
  intros HE11 Hden Hlen. unfold __init__.
  rewrite (py_div_ok _ _ HE11). unfold bind at 1.
  rewrite (calculate_Q_ok _ _ _ _ _ Hden). unfold bind at 1.
  fold (thickness_array layup_angles thicknesses).
  now rewrite (z_coordinates_short _ _ Hlen).
Qed.

(** C3, as the code has it. The constructor has no validation step and no
    [InvalidLayup]. For a material it accepts, a thickness list shorter than
    the angle list (for example 5 angles and 4 thicknesses) makes
    construction fail with Python's [IndexError], raised while the
    z-coordinates are computed, before any transform or any of A, B, D is
    computed; a thickness list at least as long as the angle list is
    accepted, and so is a laminate without plies. *)
Theorem C3_construction_of_mismatched_layups (layup_angles l : list R)
  (mp : Material.dict) :
  Material.E11 mp <> 0 ->
  1 - Material.V12 mp *
      (Material.V12 mp * Material.E22 mp / Material.E11 mp) <> 0 ->
  ((length l < length layup_angles)%nat ->
   __init__ layup_angles (Sequence l) mp = Raise IndexError /\
   _calculate_z_coordinates l (length layup_angles) = Raise IndexError) /\
  ((length layup_angles <= length l)%nat ->
   exists self, __init__ layup_angles (Sequence l) mp = Ok self).
Proof.
  intros HE11 Hden. split; intros Hlen.
  - split.
    + now apply init_short_thicknesses.
    + now apply z_coordinates_short.
  - now apply init_total.
Qed.

Lemma C3_construction_of_mismatched_layups_witness :
  (__init__ [0; 45; -45; 90; 0] (Sequence [1; 1; 1; 1]) example_material =
     Raise IndexError /\
   _calculate_z_coordinates [1; 1; 1; 1] 5 = Raise IndexError) /\
  (exists self,
     __init__ [0; 45; -45; 90] (Sequence [1; 1; 1; 1]) example_material =
     Ok self).
Proof.
  destruct example_material_valid as [HE Hden].
  split.
  - apply (C3_construction_of_mismatched_layups [0; 45; -45; 90; 0]
             [1; 1; 1; 1] example_material HE Hden).
    simpl. lia.
  - apply (C3_construction_of_mismatched_layups [0; 45; -45; 90]
             [1; 1; 1; 1] example_material HE Hden).
    simpl. lia.
Defined.

(** A laminate without plies is constructed, and so is one with four angles
    and five thicknesses: neither fails. So it is not the case that
    construction fails for every layup with no plies or with lists of
    different lengths. *)
Lemma C3_counterexample :
  (exists self,
     __init__ [] (Sequence []) example_material = Ok self /\
     Self.k self = 0%nat) /\
  (exists self,
     __init__ [0; 45; -45; 90] (Sequence [1; 1; 1; 1; 1]) example_material =
     Ok self) /\
  ~ (forall (layup_angles l : list R) (mp : Material.dict),
       length layup_angles <> length l \/ layup_angles = [] ->
       exists e, __init__ layup_angles (Sequence l) mp = Raise e).
Proof.
  destruct (zero_ply_init (Sequence [])) as (self & Hself & Hk & _).
  split; [eauto |]. split.
  - destruct example_material_valid as [HE Hden].
    apply init_total; auto. simpl. lia.
  - intros Hclaim.
    destruct (Hclaim [] [] example_material (or_intror eq_refl)) as [e He].
    rewrite Hself in He. discriminate.
Qed.

(** ** C8: the through-thickness coordinates *)

Lemma z_top_closed_form (layup_angles : list R)
  (thicknesses : thicknesses_arg) (mp : Material.dict)
  (self : Self.LaminateAnalysis) (i : nat) :
  __init__ layup_angles thicknesses mp = Ok self ->
  (i < Self.k self)%nat ->
  nth i (Self.z self) 0 =
  - np_sum (Self.t self) / 2 + np_sum (firstn i (Self.t self)) +
  nth i (Self.t self) 0.
Proof.
  intros Hinit Hi.
  destruct (init_inv _ _ _ _ Hinit)
    as (_ & _ & _ & _ & _ & _ & _ & _ & Hz & _).
  apply z_coordinates_spec in Hz. destruct Hz as (Hk & _ & _ & Hzs).
  destruct (Hzs i Hi) as [-> _].
  rewrite np_sum_firstn_S by lia. ring.
Qed.

(** C8. For every laminate the constructor builds whose ply thicknesses are
    all positive: the z-top coordinates increase strictly with the ply
    index; the bottom of the first ply, [z[0] - t[0]], is minus half the
    total thickness [np.sum(self.t)]; and the bottom of every later ply is
    the top of the ply before it, [z[i] - t[i] = z[i-1]]. *)
Theorem C8_z_top_coordinates (layup_angles : list R)
  (thicknesses : thicknesses_arg) (mp : Material.dict)
  (self : Self.LaminateAnalysis) :
  __init__ layup_angles thicknesses mp = Ok self ->
  (forall i : nat, (i < Self.k self)%nat -> 0 < nth i (Self.t self) 0) ->
  (forall i j : nat, (i < j < Self.k self)%nat ->
     nth i (Self.z self) 0 < nth j (Self.z self) 0) /\
  ((0 < Self.k self)%nat ->
   nth 0 (Self.z self) 0 - nth 0 (Self.t self) 0 =
   - (np_sum (Self.t self) / 2)) /\
  (forall i : nat, (0 < i < Self.k self)%nat ->
     nth i (Self.z self) 0 - nth i (Self.t self) 0 =
     nth (i - 1) (Self.z self) 0).
Proof.
  intros Hinit Hpos.
  pose proof (fun i => z_top_closed_form _ _ _ self i Hinit) as Hz.
  destruct (init_lengths _ _ _ _ Hinit) as (_ & Hkt & _).
  assert (Hnext : forall i : nat, (0 < i < Self.k self)%nat ->
            nth i (Self.z self) 0 - nth i (Self.t self) 0 =
            nth (i - 1) (Self.z self) 0).
  { intros [| i] Hi; [lia |].
    replace (S i - 1)%nat with i by lia.
    rewrite (Hz (S i)), (Hz i) by lia.
    rewrite np_sum_firstn_S by lia. ring. }
  split; [| split].
  - intros i j [Hij Hj]. induction j as [| j IH]; [lia |].
    pose proof (Hnext (S j) ltac:(lia)) as Hstep.
    pose proof (Hpos (S j) Hj) as Htj.
    replace (S j - 1)%nat with j in Hstep by lia.
    destruct (Nat.eq_dec i j) as [-> | Hne].
    + lra.
    + assert (Hlt : nth i (Self.z self) 0 < nth j (Self.z self) 0)
        by (apply IH; lia).
      lra.
  - intros Hk. rewrite (Hz 0%nat Hk). simpl. lra.
  - exact Hnext.
Qed.

Lemma C8_z_top_coordinates_witness :
  exists self,
    __init__ example_angles (Sequence [1; 2; 3]) example_material = Ok self /\
    nth 0 (Self.z self) 0 < nth 1 (Self.z self) 0 /\
    nth 0 (Self.z self) 0 - nth 0 (Self.t self) 0 =
      - (np_sum (Self.t self) / 2) /\
    nth 2 (Self.z self) 0 - nth 2 (Self.t self) 0 = nth 1 (Self.z self) 0.
Proof.
  destruct (example_init (Sequence [1; 2; 3])) as [self Hself];
    [simpl; lia |].
  pose proof (example_k _ _ Hself) as Hk.
  assert (Ht : Self.t self = [1; 2; 3]).
  { destruct (init_inv _ _ _ _ Hself) as (_ & _ & _ & _ & Ht & _).
    exact Ht. }
  assert (Hpos : forall i : nat, (i < Self.k self)%nat ->
            0 < nth i (Self.t self) 0).
  { rewrite Hk, Ht. intros [| [| [| i]]] Hi; simpl; try lra. lia. }
  destruct (C8_z_top_coordinates _ _ _ self Hself Hpos)
    as (Hincr & Hfirst & Hnext).
  exists self. split; [exact Hself |].
  split; [apply Hincr; lia |].
  split; [apply Hfirst; lia |].
  apply (Hnext 2%nat). lia.
Defined.

(** ** C10: one thickness for every ply *)

(** C10. When [thicknesses] is a single number [x], the constructor returns
    exactly what it returns for the explicit list of [k] copies of [x] (the
    same z-coordinates, [Q_bar] list, A, B and D, and every other
    attribute), and in the laminate it builds every one of the [k] plies has
    thickness [x]. *)
Theorem C10_single_thickness (layup_angles : list R) (x : R)
  (mp : Material.dict) :
  __init__ layup_angles (Number x) mp =
  __init__ layup_angles (Sequence (repeat x (length layup_angles))) mp /\
  forall self : Self.LaminateAnalysis,
    __init__ layup_angles (Number x) mp = Ok self ->
    length (Self.t self) = Self.k self /\
    forall ply : nat, (ply < Self.k self)%nat -> nth ply (Self.t self) 0 = x.
Proof.
  split; [reflexivity |].
  intros self Hinit.
  destruct (init_inv _ _ _ _ Hinit) as (_ & _ & _ & _ & Ht & Hk & _).
  rewrite Ht, Hk. cbn [thickness_array]. unfold np_full.
  split; [apply repeat_length |].
  intros ply Hply. apply nth_repeat_lt. exact Hply.
Qed.

Lemma C10_single_thickness_witness :
  exists self,
    __init__ example_angles (Number 5) example_material = Ok self /\
    __init__ example_angles (Sequence [5; 5; 5]) example_material = Ok self /\
    nth 1 (Self.t self) 0 = 5.
Proof.
  destruct (example_init (Number 5)) as [self Hself]; [simpl; lia |].
  destruct (C10_single_thickness example_angles 5 example_material)
    as [Heq Hall].
  destruct (Hall self Hself) as [_ Hply].
  exists self. split; [exact Hself |]. split.
  - rewrite <- Hself, Heq. reflexivity.
  - apply Hply. rewrite (example_k _ _ Hself). lia.
Defined.

(** * Further properties of the code *)

(** ** The constructor and the stored arrays *)

(** X1. A material with [E11 = 0], or with [1 - V12 * V21 = 0] for
    [V21 = V12 * E22 / E11], makes the constructor fail with
    [ZeroDivisionError], whatever the layup: the material is read before the
    thickness list is indexed. *)
Theorem X1_degenerate_material (layup_angles : list R)
  (thicknesses : thicknesses_arg) (mp : Material.dict) :
  Material.E11 mp = 0 \/
  1 - Material.V12 mp *
      (Material.V12 mp * Material.E22 mp / Material.E11 mp) = 0 ->
  __init__ layup_angles thicknesses mp = Raise ZeroDivisionError.
Proof. apply init_rejects_material. Qed.

Lemma X1_degenerate_material_witness :
  __init__ [0; 90] (Sequence [1])
    {| Material.E11 := 0; Material.E22 := 1; Material.G12 := 1;
       Material.V12 := 1 / 2 |} = Raise ZeroDivisionError /\
  __init__ [0; 90] (Number 1)
    {| Material.E11 := 1; Material.E22 := 4; Material.G12 := 1;
       Material.V12 := 1 / 2 |} = Raise ZeroDivisionError.
Proof.
  split; apply X1_degenerate_material; simpl.
  - left. reflexivity.
  - right. lra.
Defined.

Lemma init_Q_bar_symmetric (layup_angles : list R)
  (thicknesses : thicknesses_arg) (mp : Material.dict)
  (self : Self.LaminateAnalysis) (ply : nat) :
  __init__ layup_angles thicknesses mp = Ok self ->
  (ply < Self.k self)%nat ->
  symmetric3 (nth ply (Self.Q_bar self) []).
Proof.
  intros Hinit Hply.
  destruct (init_inv _ _ _ _ Hinit)
    as (HE & _ & _ & Hth & _ & Hk & HV21 & HQ & _ & _ & _ & HQb & _).
  rewrite HQb, Hth.
  rewrite (nth_map_in _ _ ply 0) by (rewrite length_map; lia).
  rewrite HQ, HV21.
  apply Q_bar_matrix_symmetric; [apply shape3_literal |].
  now apply Q_matrix_symmetric.
Qed.

Lemma init_abd_spec (layup_angles : list R) (thicknesses : thicknesses_arg)
  (mp : Material.dict) (self : Self.LaminateAnalysis) :
  __init__ layup_angles thicknesses mp = Ok self ->
  shape3 (Self.A self) /\ shape3 (Self.B self) /\ shape3 (Self.D self) /\
  forall i j : nat, (i < 3)%nat -> (j < 3)%nat ->
    mget (Self.A self) i j =
      sum_over_plies (A_term (Self.Q_bar self) (Self.t self) i j)
                     (Self.k self) /\
    mget (Self.B self) i j =
      sum_over_plies (B_term (Self.Q_bar self) (Self.t self) (Self.z self) i j)
                     (Self.k self) /\
    mget (Self.D self) i j =
      sum_over_plies (D_term (Self.Q_bar self) (Self.t self) (Self.z self) i j)
                     (Self.k self).
Proof.
  intros Hinit.
  destruct (init_inv _ _ _ _ Hinit)
    as (_ & _ & _ & _ & _ & _ & _ & _ & _ & _ & _ & _ & HABD).
  apply calculate_ABD_matrices_spec in HABD. tauto.
Qed.

Lemma symmetric3_literal (a b c d e f g h i : R) :
  symmetric3 [ [a; b; c]; [d; e; f]; [g; h; i] ] ->
  d = b /\ g = c /\ h = f.
Proof.
  intros H.
  pose proof (H 1%nat 0%nat ltac:(lia) ltac:(lia)) as H10.
  pose proof (H 2%nat 0%nat ltac:(lia) ltac:(lia)) as H20.
  pose proof (H 2%nat 1%nat ltac:(lia) ltac:(lia)) as H21.
  cbn [mget nth] in H10, H20, H21. auto.
Qed.

Lemma symmetric6_block (A B D : matrix) :
  shape3 A -> shape3 B -> shape3 D ->
  symmetric3 A -> symmetric3 B -> symmetric3 D ->
  symmetric6 (np_block A B B D).
Proof.
  intros HsA HsB HsD HA HB HD.
  destruct (shape3_inv A HsA)
    as (a0 & a1 & a2 & a3 & a4 & a5 & a6 & a7 & a8 & ->).
  destruct (shape3_inv B HsB)
    as (b0 & b1 & b2 & b3 & b4 & b5 & b6 & b7 & b8 & ->).
  destruct (shape3_inv D HsD)
    as (d0 & d1 & d2 & d3 & d4 & d5 & d6 & d7 & d8 & ->).
  apply symmetric3_literal in HA, HB, HD.
  destruct HA as (-> & -> & ->), HB as (-> & -> & ->), HD as (-> & -> & ->).
  intros i j Hi Hj.
  destruct i as [| [| [| [| [| [| i]]]]]]; try lia;
    destruct j as [| [| [| [| [| [| j]]]]]]; try lia;
    reflexivity.
Qed.

(** X2. In every laminate the constructor builds, A, B and D are symmetric
    3 by 3 arrays, and so is the 6 by 6 array [[A, B], [B, D]] that
    [calculate_response] solves against. *)
Theorem X2_stiffness_symmetric (layup_angles : list R)
  (thicknesses : thicknesses_arg) (mp : Material.dict)
  (self : Self.LaminateAnalysis) :
  __init__ layup_angles thicknesses mp = Ok self ->
  symmetric3 (Self.A self) /\ symmetric3 (Self.B self) /\
  symmetric3 (Self.D self) /\ symmetric6 (abd_matrix self).
Proof.
  intros Hinit.
  destruct (init_abd_spec _ _ _ _ Hinit) as (HsA & HsB & HsD & Hentries).
  assert (Hsym : forall i j p, (i < 3)%nat -> (j < 3)%nat ->
            (p < Self.k self)%nat ->
            mget (nth p (Self.Q_bar self) []) i j =
            mget (nth p (Self.Q_bar self) []) j i).
  { intros i j p Hi Hj Hp.
    now apply (init_Q_bar_symmetric _ _ _ _ p Hinit Hp). }
  assert (HA : symmetric3 (Self.A self)).
  { intros i j Hi Hj.
    destruct (Hentries i j Hi Hj) as (-> & _).
    destruct (Hentries j i Hj Hi) as (-> & _).
    apply sum_over_plies_ext. intros p Hp. unfold A_term.
    now rewrite (Hsym i j p). }
  assert (HB : symmetric3 (Self.B self)).
  { intros i j Hi Hj.
    destruct (Hentries i j Hi Hj) as (_ & -> & _).
    destruct (Hentries j i Hj Hi) as (_ & -> & _).
    apply sum_over_plies_ext. intros p Hp. unfold B_term.
    now rewrite (Hsym i j p). }
  assert (HD : symmetric3 (Self.D self)).
  { intros i j Hi Hj.
    destruct (Hentries i j Hi Hj) as (_ & _ & ->).
    destruct (Hentries j i Hj Hi) as (_ & _ & ->).
    apply sum_over_plies_ext. intros p Hp. unfold D_term.
    now rewrite (Hsym i j p). }
  repeat split; auto.
  now apply symmetric6_block.
Qed.

Lemma X2_stiffness_symmetric_witness :
  exists self,
    __init__ example_angles (Sequence [1; 2; 3]) example_material = Ok self /\
    symmetric3 (Self.A self) /\ symmetric3 (Self.B self) /\
    symmetric3 (Self.D self) /\ symmetric6 (abd_matrix self).
Proof.
  destruct (example_init (Sequence [1; 2; 3])) as [self Hself];
    [simpl; lia |].
  exists self. split; [exact Hself |].
  exact (X2_stiffness_symmetric _ _ _ _ Hself).
Defined.

(** X3. In every laminate the constructor builds, the mid coordinate of each
    ply lies half a ply thickness below its top coordinate, that is halfway
    between the bottom and the top of the ply:
    [z_m[i] = z[i] - t[i] / 2]. *)
Theorem X3_z_mid_is_midpoint (layup_angles : list R)
  (thicknesses : thicknesses_arg) (mp : Material.dict)
  (self : Self.LaminateAnalysis) (i : nat) :
  __init__ layup_angles thicknesses mp = Ok self ->
  (i < Self.k self)%nat ->
  nth i (Self.z_m self) 0 =
    nth i (Self.z self) 0 - nth i (Self.t self) 0 / 2 /\
  nth i (Self.z_m self) 0 =
    (nth i (Self.z self) 0 +
     (nth i (Self.z self) 0 - nth i (Self.t self) 0)) / 2.
Proof.
  intros Hinit Hi.
  destruct (init_inv _ _ _ _ Hinit)
    as (_ & _ & _ & _ & _ & _ & _ & _ & Hz & _).
  apply z_coordinates_spec in Hz. destruct Hz as (Hk & _ & _ & Hzs).
  destruct (Hzs i Hi) as [Hzi Hzmi].
  rewrite Hzi, Hzmi, np_sum_firstn_S by lia. split; field.
Qed.

Lemma X3_z_mid_is_midpoint_witness :
  exists self,
    __init__ example_angles (Sequence [1; 2; 3]) example_material = Ok self /\
    nth 1 (Self.z_m self) 0 =
      nth 1 (Self.z self) 0 - nth 1 (Self.t self) 0 / 2 /\
    nth 1 (Self.z_m self) 0 =
      (nth 1 (Self.z self) 0 +
       (nth 1 (Self.z self) 0 - nth 1 (Self.t self) 0)) / 2.
Proof.
  destruct (example_init (Sequence [1; 2; 3])) as [self Hself];
    [simpl; lia |].
  exists self. split; [exact Hself |].
  apply (X3_z_mid_is_midpoint _ _ _ self 1 Hself).
  rewrite (example_k _ _ Hself). lia.
Defined.

Lemma np_sum_app (u v : vector) : np_sum (u ++ v) = np_sum u + np_sum v.
Proof.
  induction u as [| a u IH]; simpl; [ring |]. rewrite IH. ring.
Qed.

(** X4. When the constructor is given as many thicknesses as angles (or a
    single number), the top of the last ply is plus half the total
    thickness: the stack is centred on the midplane [z = 0]. With surplus
    thicknesses the top of the last ply lies lower, by the sum of the
    thicknesses no ply uses. *)
Theorem X4_top_of_last_ply (layup_angles : list R)
  (thicknesses : thicknesses_arg) (mp : Material.dict)
  (self : Self.LaminateAnalysis) :
  __init__ layup_angles thicknesses mp = Ok self ->
  (0 < Self.k self)%nat ->
  nth (Self.k self - 1) (Self.z self) 0 =
    np_sum (Self.t self) / 2 -
    np_sum (skipn (Self.k self) (Self.t self)) /\
  (length (Self.t self) = Self.k self ->
   nth (Self.k self - 1) (Self.z self) 0 = np_sum (Self.t self) / 2).
Proof.
  intros Hinit Hk.
  destruct (init_inv _ _ _ _ Hinit)
    as (_ & _ & _ & _ & _ & _ & _ & _ & Hz & _).
  apply z_coordinates_spec in Hz. destruct Hz as (Hkt & _ & _ & Hzs).
  destruct (Hzs (Self.k self - 1)%nat ltac:(lia)) as [Hzi _].
  replace (S (Self.k self - 1)) with (Self.k self) in Hzi by lia.
  assert (Hsplit : np_sum (Self.t self) =
            np_sum (firstn (Self.k self) (Self.t self)) +
            np_sum (skipn (Self.k self) (Self.t self))).
  { rewrite <- (firstn_skipn (Self.k self) (Self.t self)) at 1.
    apply np_sum_app. }
  split.
  - rewrite Hzi. lra.
  - intros Hlen. rewrite Hzi, <- Hlen, firstn_all. lra.
Qed.

Lemma X4_top_of_last_ply_witness :
  exists self,
    __init__ example_angles (Number 2) example_material = Ok self /\
    nth (Self.k self - 1) (Self.z self) 0 = np_sum (Self.t self) / 2.
Proof.
  destruct (example_init (Number 2)) as [self Hself]; [simpl; lia |].
  pose proof (example_k _ _ Hself) as Hk.
  exists self. split; [exact Hself |].
  apply (X4_top_of_last_ply _ _ _ self Hself).
  - rewrite Hk. lia.
  - destruct (init_inv _ _ _ _ Hself) as (_ & _ & _ & _ & Ht & _).
    rewrite Ht, Hk. reflexivity.
Defined.

(** ** Ply recovery and the response solve *)

(** X5. For a ply number [n] with [-k < n <= 0], ply recovery does exactly
    what it does for ply [n + k]: the index [n - 1] is negative and counts
    from the end of the per-ply arrays. So, for a midplane strain and a
    curvature of three components each, it raises nothing and returns the
    values of ply [n + k]. *)
Theorem X5_recovery_negative_ply_number (layup_angles : list R)
  (thicknesses : thicknesses_arg) (mp : Material.dict)
  (self : Self.LaminateAnalysis) (ms cu : vector) (n : Z) :
  __init__ layup_angles thicknesses mp = Ok self ->
  (- Z.of_nat (Self.k self) < n <= 0)%Z ->
  calculate_ply_strains_stresses self ms cu n =
    calculate_ply_strains_stresses self ms cu (n + Z.of_nat (Self.k self)) /\
  (length ms = 3%nat -> length cu = 3%nat ->
   exists r, calculate_ply_strains_stresses self ms cu n = Ok r).
Proof.
  intros Hinit Hn.
  pose proof (recovery_wraps _ _ _ self ms cu n Hinit Hn) as Hwrap.
  split; [exact Hwrap |].
  intros Hms Hcu. rewrite Hwrap.
  rewrite (recovery_in_range _ _ _ self ms cu _ Hinit Hms Hcu) by lia.
  eauto.
Qed.

Lemma X5_recovery_negative_ply_number_witness :
  exists self,
    __init__ example_angles (Number 1) example_material = Ok self /\
    calculate_ply_strains_stresses self [1; 2; 3] [4; 5; 6] (-1) =
      calculate_ply_strains_stresses self [1; 2; 3] [4; 5; 6] 2 /\
    exists r,
      calculate_ply_strains_stresses self [1; 2; 3] [4; 5; 6] (-1) = Ok r.
Proof.
  destruct (example_init (Number 1)) as [self Hself]; [simpl; lia |].
  pose proof (example_k _ _ Hself) as Hk.
  exists self. split; [exact Hself |].
  destruct (X5_recovery_negative_ply_number _ _ _ self [1; 2; 3] [4; 5; 6]
              (-1) Hself) as [Hwrap Hok]; [rewrite Hk; lia |].
  rewrite Hk in Hwrap.
  split; [exact Hwrap | apply Hok; reflexivity].
Defined.

(** X6. [calculate_response] raises [ValueError] when the forces, or the
    moments, do not hold exactly three numbers: the [reshape(3, 1)] fails
    before the matrix is assembled or solved, whatever the laminate. *)
Theorem X6_response_wrong_size (self : Self.LaminateAnalysis)
  (forces moments : vector) :
  length forces <> 3%nat \/ length moments <> 3%nat ->
  calculate_response self forces moments = Raise ValueError.
Proof.
  intros Hsize. unfold calculate_response, reshape_3_1.
  destruct (Nat.eqb_spec (length forces) 3) as [Hf | Hf]; [| reflexivity].
  destruct (Nat.eqb_spec (length moments) 3) as [Hm | Hm]; [| reflexivity].
  tauto.
Qed.

Lemma X6_response_wrong_size_witness :
  exists self,
    __init__ example_angles (Number 1) example_material = Ok self /\
    calculate_response self [1; 2] [0; 0; 0] = Raise ValueError /\
    calculate_response self [1; 2; 3] [0; 0; 0; 0] = Raise ValueError.
Proof.
  destruct (example_init (Number 1)) as [self Hself]; [simpl; lia |].
  exists self. split; [exact Hself |].
  split; apply X6_response_wrong_size; simpl.
  - left. lia.
  - right. lia.
Defined.

Lemma dot_vadd (u x y : vector) :
  length x = length y -> dot u (vadd x y) = dot u x + dot u y.
Proof.
  revert x y; induction u as [| a u IH]; intros [| b x] [| c y] H; simpl in *;
    try discriminate; try ring.
  rewrite IH by congruence. ring.
Qed.

Lemma dot_vscale_r (c : R) (u x : vector) :
  dot u (vscale c x) = c * dot u x.
Proof.
  revert x; induction u as [| a u IH]; intros [| b x]; simpl; try ring.
  rewrite IH. ring.
Qed.

Lemma matvec_vadd (M : matrix) (x y : vector) :
  length x = length y ->
  matvec M (vadd x y) = vadd (matvec M x) (matvec M y).
Proof.
  intros H. induction M as [| r M IH]; simpl; [reflexivity |].
  now rewrite IH, dot_vadd.
Qed.

Lemma matvec_vscale (M : matrix) (c : R) (x : vector) :
  matvec M (vscale c x) = vscale c (matvec M x).
Proof.
  induction M as [| r M IH]; simpl; [reflexivity |].
  now rewrite IH, dot_vscale_r.
Qed.

(** The solve behind a successful [calculate_response]. *)
Lemma calculate_response_inv (layup_angles : list R)
  (thicknesses : thicknesses_arg) (mp : Material.dict)
  (self : Self.LaminateAnalysis) (forces moments e c : vector) :
  __init__ layup_angles thicknesses mp = Ok self ->
  calculate_response self forces moments = Ok (e, c) ->
  length forces = 3%nat /\ length moments = 3%nat /\
  length e = 3%nat /\ length c = 3%nat /\
  nonsingular (abd_matrix self) /\
  matvec (abd_matrix self) (e ++ c) = forces ++ moments.
Proof.
  intros Hinit Hresp.
  destruct (init_abd_square _ _ _ _ Hinit) as [Hlen Hsq].
  unfold calculate_response in Hresp.
  apply bind_Ok in Hresp. destruct Hresp as (f & Hf & Hresp).
  apply bind_Ok in Hresp. destruct Hresp as (m & Hm & Hresp).
  apply bind_Ok in Hresp. destruct Hresp as (x & Hx & Hresp).
  unfold reshape_3_1 in Hf, Hm.
  destruct (Nat.eqb_spec (length forces) 3) as [Hlf | _]; [| discriminate].
  destruct (Nat.eqb_spec (length moments) 3) as [Hlm | _]; [| discriminate].
  injection Hf as <-. injection Hm as <-.
  assert (He : e = firstn 3 x) by congruence.
  assert (Hc : c = skipn 3 x) by congruence.
  rewrite He, Hc. clear Hresp He Hc.
  assert (Hb : length (forces ++ moments) = length (abd_matrix self)).
  { rewrite length_app, Hlf, Hlm, Hlen. reflexivity. }
  destruct (linalg_solve_sound _ _ _ Hsq Hb Hx) as [Hlx HMx].
  split; [exact Hlf |]. split; [exact Hlm |].
  split; [rewrite length_firstn; lia |].
  split; [rewrite length_skipn; lia |].
  split; [exact (linalg_solve_nonsingular _ _ _ Hsq Hb Hx) |].
  now rewrite firstn_skipn.
Qed.

(** The response to a load that is known to be the image of [e ++ c]. *)
Lemma calculate_response_of_solution (layup_angles : list R)
  (thicknesses : thicknesses_arg) (mp : Material.dict)
  (self : Self.LaminateAnalysis) (forces moments e c : vector) :
  __init__ layup_angles thicknesses mp = Ok self ->
  nonsingular (abd_matrix self) ->
  length forces = 3%nat -> length moments = 3%nat ->
  length e = 3%nat -> length c = 3%nat ->
  matvec (abd_matrix self) (e ++ c) = forces ++ moments ->
  calculate_response self forces moments = Ok (e, c).
Proof.
  intros Hinit Hns Hf Hm He Hc HM.
  destruct (init_abd_square _ _ _ _ Hinit) as [Hlen Hsq].
  rewrite (calculate_response_eq self _ _ Hf Hm).
  rewrite (linalg_solve_eq _ _ (e ++ c) Hsq Hns); [| | exact HM].
  - destruct (length3_inv e He) as (e0 & e1 & e2 & ->). reflexivity.
  - rewrite length_app, He, Hc, Hlen. reflexivity.
Qed.

(** X7. The response is linear in the load. If [calculate_response] returns
    [(e1, c1)] for the load [(f1, m1)] and [(e2, c2)] for [(f2, m2)], then
    for the sum of the loads it returns [(e1 + e2, c1 + c2)], and for the
    load [(a * f1, a * m1)] it returns [(a * e1, a * c1)]. *)
Theorem X7_response_linear (layup_angles : list R)
  (thicknesses : thicknesses_arg) (mp : Material.dict)
  (self : Self.LaminateAnalysis) (f1 m1 f2 m2 e1 c1 e2 c2 : vector) (a : R) :
  __init__ layup_angles thicknesses mp = Ok self ->
  calculate_response self f1 m1 = Ok (e1, c1) ->
  calculate_response self f2 m2 = Ok (e2, c2) ->
  calculate_response self (vadd f1 f2) (vadd m1 m2) =
    Ok (vadd e1 e2, vadd c1 c2) /\
  calculate_response self (vscale a f1) (vscale a m1) =
    Ok (vscale a e1, vscale a c1).
Proof.
  intros Hinit H1 H2.
  destruct (calculate_response_inv _ _ _ _ _ _ _ _ Hinit H1)
    as (Hf1 & Hm1 & He1 & Hc1 & Hns & HM1).
  destruct (calculate_response_inv _ _ _ _ _ _ _ _ Hinit H2)
    as (Hf2 & Hm2 & He2 & Hc2 & _ & HM2).
  destruct (length3_inv f1 Hf1) as (f10 & f11 & f12 & ->).
  destruct (length3_inv m1 Hm1) as (m10 & m11 & m12 & ->).
  destruct (length3_inv f2 Hf2) as (f20 & f21 & f22 & ->).
  destruct (length3_inv m2 Hm2) as (m20 & m21 & m22 & ->).
  destruct (length3_inv e1 He1) as (e10 & e11 & e12 & ->).
  destruct (length3_inv c1 Hc1) as (c10 & c11 & c12 & ->).
  destruct (length3_inv e2 He2) as (e20 & e21 & e22 & ->).
  destruct (length3_inv c2 Hc2) as (c20 & c21 & c22 & ->).
  split.
  - apply (calculate_response_of_solution _ _ _ _ _ _ _ _ Hinit Hns);
      try reflexivity.
    change (vadd [e10; e11; e12] [e20; e21; e22] ++
            vadd [c10; c11; c12] [c20; c21; c22])
      with (vadd ([e10; e11; e12] ++ [c10; c11; c12])
                 ([e20; e21; e22] ++ [c20; c21; c22])).
    rewrite matvec_vadd by reflexivity.
    rewrite HM1, HM2. reflexivity.
  - apply (calculate_response_of_solution _ _ _ _ _ _ _ _ Hinit Hns);
      try reflexivity.
    change (vscale a [e10; e11; e12] ++ vscale a [c10; c11; c12])
      with (vscale a ([e10; e11; e12] ++ [c10; c11; c12])).
    rewrite matvec_vscale, HM1. reflexivity.
Qed.

Lemma single_ply_response (self : Self.LaminateAnalysis)
  (forces moments : vector) :
  __init__ [0] (Number 1) example_material = Ok self ->
  length forces = 3%nat -> length moments = 3%nat ->
  exists e c, calculate_response self forces moments = Ok (e, c).
Proof.
  intros Hself Hf Hm.
  destruct (init_abd_square _ _ _ _ Hself) as [Hlen Hsq].
  assert (Hb : length (forces ++ moments) = length (abd_matrix self)).
  { rewrite length_app, Hf, Hm, Hlen. reflexivity. }
  destruct (linalg_solve_complete _ _ Hsq Hb
              (single_ply_nonsingular self Hself)) as [x Hx].
  rewrite (calculate_response_eq self _ _ Hf Hm), Hx.
  simpl. eauto.
Qed.

Lemma X7_response_linear_witness :
  exists self e1 c1 e2 c2,
    __init__ [0] (Number 1) example_material = Ok self /\
    calculate_response self [1; 2; 3] [4; 5; 6] = Ok (e1, c1) /\
    calculate_response self [1; 0; 0] [0; 0; 1] = Ok (e2, c2) /\
    calculate_response self (vadd [1; 2; 3] [1; 0; 0])
                            (vadd [4; 5; 6] [0; 0; 1]) =
      Ok (vadd e1 e2, vadd c1 c2) /\
    calculate_response self (vscale 7 [1; 2; 3]) (vscale 7 [4; 5; 6]) =
      Ok (vscale 7 e1, vscale 7 c1).
Proof.
  destruct single_ply_init as [self Hself].
  destruct (single_ply_response self [1; 2; 3] [4; 5; 6] Hself eq_refl eq_refl)
    as (e1 & c1 & H1).
  destruct (single_ply_response self [1; 0; 0] [0; 0; 1] Hself eq_refl eq_refl)
    as (e2 & c2 & H2).
  exists self, e1, c1, e2, c2.
  split; [exact Hself |]. split; [exact H1 |]. split; [exact H2 |].
  exact (X7_response_linear _ _ _ self _ _ _ _ _ _ _ _ 7 Hself H1 H2).
Defined.

(** X8. The solve undoes the stiffness: for a laminate whose matrix
    [[A, B], [B, D]] is non-singular and any midplane strains [e] and
    curvatures [c] (three numbers each), the load the matrix assigns to them,
    split into forces and moments and passed to [calculate_response], gives
    back [(e, c)]. *)
Theorem X8_response_of_load_of_strains (layup_angles : list R)
  (thicknesses : thicknesses_arg) (mp : Material.dict)
  (self : Self.LaminateAnalysis) (e c : vector) :
  __init__ layup_angles thicknesses mp = Ok self ->
  nonsingular (abd_matrix self) ->
  length e = 3%nat -> length c = 3%nat ->
  let load := matvec (abd_matrix self) (e ++ c) in
  calculate_response self (firstn 3 load) (skipn 3 load) = Ok (e, c).
Proof.
  intros Hinit Hns He Hc load.
  destruct (init_abd_square _ _ _ _ Hinit) as [Hlen Hsq].
  assert (Hload : length load = 6%nat).
  { unfold load, matvec. now rewrite length_map. }
  apply (calculate_response_of_solution _ _ _ _ _ _ _ _ Hinit Hns);
    auto.
  - rewrite length_firstn. lia.
  - rewrite length_skipn. lia.
  - now rewrite firstn_skipn.
Qed.

Lemma X8_response_of_load_of_strains_witness :
  exists self,
    __init__ [0] (Number 1) example_material = Ok self /\
    calculate_response self
      (firstn 3 (matvec (abd_matrix self) ([1; 2; 3] ++ [4; 5; 6])))
      (skipn 3 (matvec (abd_matrix self) ([1; 2; 3] ++ [4; 5; 6]))) =
    Ok ([1; 2; 3], [4; 5; 6]).
Proof.
  destruct single_ply_init as [self Hself].
  exists self. split; [exact Hself |].
  exact (X8_response_of_load_of_strains _ _ _ self [1; 2; 3] [4; 5; 6] Hself
           (single_ply_nonsingular self Hself) eq_refl eq_refl).
Defined.

(** ** Stacking sequences *)

Lemma sum_over_plies_shift (f : nat -> R) (k : nat) :
  sum_over_plies f (S k) = f 0%nat + sum_over_plies (fun p => f (S p)) k.
Proof.
  induction k as [| k IH]; simpl in *; [ring |].
  rewrite IH. ring.
Qed.

Lemma sum_over_plies_rev (f : nat -> R) (k : nat) :
  sum_over_plies (fun p => f (k - 1 - p)%nat) k = sum_over_plies f k.
Proof.
  revert f; induction k as [| k IH]; intros f; [reflexivity |].
  rewrite (sum_over_plies_shift f k), <- (IH (fun p => f (S p))).
  simpl. replace (k - 0 - k)%nat with 0%nat by lia.
  rewrite Rplus_comm. f_equal.
  apply sum_over_plies_ext. intros p Hp. f_equal. lia.
Qed.

Lemma np_sum_rev (v : vector) : np_sum (rev v) = np_sum v.
Proof.
  induction v as [| a v IH]; simpl; [reflexivity |].
  rewrite np_sum_app, IH. simpl. ring.
Qed.

(** In a list that reads the same in both directions, the first [n] and the
    first [length - n] entries add up to the whole. *)
Lemma np_sum_firstn_palindrome (v : vector) (n : nat) :
  rev v = v -> (n <= length v)%nat ->
  np_sum (firstn n v) + np_sum (firstn (length v - n) v) = np_sum v.
Proof.
  intros Hrev Hn.
  assert (Htail : np_sum (firstn (length v - n) v) = np_sum (skipn n v)).
  { rewrite <- Hrev at 2. rewrite firstn_rev, np_sum_rev.
    replace (length v - (length v - n))%nat with n by lia.
    reflexivity. }
  rewrite Htail, <- np_sum_app, firstn_skipn. reflexivity.
Qed.

Lemma nth_palindrome {X : Type} (l : list X) (p : nat) (d : X) :
  rev l = l -> (p < length l)%nat ->
  nth (length l - 1 - p) l d = nth p l d.
Proof.
  intros Hrev Hp. rewrite <- Hrev at 3.
  rewrite rev_nth by exact Hp. f_equal. lia.
Qed.

(** X9. A laminate whose angle list and thickness list both read the same
    from top to bottom and from bottom to top (a symmetric stacking
    sequence, with as many thicknesses as angles) has no coupling: every
    entry of the B array is zero. *)
Theorem X9_symmetric_layup_uncoupled (layup_angles : list R)
  (thicknesses : thicknesses_arg) (mp : Material.dict)
  (self : Self.LaminateAnalysis) :
  __init__ layup_angles thicknesses mp = Ok self ->
  rev layup_angles = layup_angles ->
  rev (Self.t self) = Self.t self ->
  length (Self.t self) = length layup_angles ->
  forall i j : nat, (i < 3)%nat -> (j < 3)%nat -> mget (Self.B self) i j = 0.
Proof.
  intros Hinit Hra Hrt Hlt i j Hi Hj.
  destruct (init_abd_spec _ _ _ _ Hinit) as (_ & _ & _ & Hentries).
  destruct (Hentries i j Hi Hj) as (_ & -> & _).
  destruct (init_inv _ _ _ _ Hinit)
    as (_ & _ & _ & Hth & _ & Hk & _ & _ & _ & _ & _ & HQb & _).
  rewrite <- Hk in Hlt.
  set (k := Self.k self) in *.
  set (f := B_term (Self.Q_bar self) (Self.t self) (Self.z self) i j).
  assert (Hflip : forall p, (p < k)%nat -> f (k - 1 - p)%nat = - f p).
  { intros p Hp. unfold f, B_term.
    assert (HQ : nth (k - 1 - p) (Self.Q_bar self) [] =
                 nth p (Self.Q_bar self) []).
    { rewrite HQb, Hth.
      rewrite !(nth_map_in _ _ _ 0) by (rewrite ?length_map; lia).
      rewrite Hk, (nth_palindrome layup_angles p 0 Hra) by lia.
      reflexivity. }
    assert (Ht : nth (k - 1 - p) (Self.t self) 0 = nth p (Self.t self) 0).
    { rewrite <- Hlt. apply nth_palindrome; [exact Hrt | lia]. }
    rewrite HQ, Ht.
    rewrite (z_top_closed_form _ _ _ self (k - 1 - p) Hinit) by (unfold k; lia).
    rewrite (z_top_closed_form _ _ _ self p Hinit) by exact Hp.
    rewrite Ht.
    pose proof (np_sum_firstn_palindrome (Self.t self) (S p) Hrt
                  ltac:(lia)) as Hpal.
    rewrite Hlt in Hpal.
    replace (k - S p)%nat with (k - 1 - p)%nat in Hpal by lia.
    rewrite np_sum_firstn_S in Hpal by lia.
    set (P1 := np_sum (firstn (k - 1 - p) (Self.t self))) in *.
    set (P0 := np_sum (firstn p (Self.t self))) in *.
    set (tp := nth p (Self.t self) 0) in *.
    set (q := mget (nth p (Self.Q_bar self) []) i j).
    replace P1 with (np_sum (Self.t self) - P0 - tp) by lra.
    field. }
  assert (Hsum : sum_over_plies f k = - sum_over_plies f k).
  { rewrite <- (sum_over_plies_rev f k) at 1.
    rewrite (sum_over_plies_ext _ (fun p => -1 * f p) k).
    - rewrite sum_over_plies_scale. ring.
    - intros p Hp. rewrite (Hflip p Hp). ring. }
  lra.
Qed.

Lemma X9_symmetric_layup_uncoupled_witness :
  exists self,
    __init__ [0; 45; 90; 45; 0] (Sequence [1; 2; 3; 2; 1]) example_material =
      Ok self /\
    mget (Self.B self) 0 2 = 0.
Proof.
  destruct example_material_valid as [HE Hden].
  destruct (init_total [0; 45; 90; 45; 0] (Sequence [1; 2; 3; 2; 1])
              example_material HE Hden) as [self Hself]; [simpl; lia |].
  exists self. split; [exact Hself |].
  assert (Ht : Self.t self = [1; 2; 3; 2; 1]).
  { destruct (init_inv _ _ _ _ Hself) as (_ & _ & _ & _ & Ht & _).
    exact Ht. }
  apply (X9_symmetric_layup_uncoupled _ _ _ self Hself); try lia.
  - reflexivity.
  - rewrite Ht. reflexivity.
  - rewrite Ht. reflexivity.
Defined.

(** ** The transformation as a function of the angle *)

Lemma T_matrix_negate (c s : R) : T_matrix (- c) (- s) = T_matrix c s.
Proof. array_compute. array_eq; ring. Qed.

Lemma T_e_matrix_negate (c s : R) : T_e_matrix (- c) (- s) = T_e_matrix c s.
Proof. array_compute. array_eq; ring. Qed.

Lemma T_inv_matrix_negate (c s : R) :
  T_inv_matrix (- c) (- s) = T_inv_matrix c s.
Proof. array_compute. array_eq; ring. Qed.

(** X10. Turning a ply by 180 degrees changes nothing: for every angle [a]
    (in degrees) and every [Q], [_calculate_transformation] returns the same
    [T], [T_e] and [Q_bar] for [a + 180] as for [a]. *)
Theorem X10_half_turn_invariance (a : R) (Q : matrix) :
  _calculate_transformation ((a + 180) * PI / 180) Q =
  _calculate_transformation (a * PI / 180) Q.
Proof.
  rewrite !calculate_transformation_eq.
  replace ((a + 180) * PI / 180) with (a * PI / 180 + PI) by field.
  rewrite neg_cos, neg_sin.
  now rewrite T_matrix_negate, T_e_matrix_negate, T_inv_matrix_negate.
Qed.

(** X11. Reversing the sign of the angle keeps the transformed stiffness of
    an orthotropic [Q] (the form [_calculate_Q] returns) in every entry but
    the four that couple shear with extension, [(0,2)], [(1,2)], [(2,0)] and
    [(2,1)], which change sign. *)
Theorem X11_opposite_angle (th : R) (E11 E22 G12 V12 V21 : R) :
  exists T1 Te1 Qb1 T2 Te2 Qb2,
    _calculate_transformation th (Q_matrix E11 E22 G12 V12 V21) =
      Ok (T1, Te1, Qb1) /\
    _calculate_transformation (- th) (Q_matrix E11 E22 G12 V12 V21) =
      Ok (T2, Te2, Qb2) /\
    forall i j : nat, (i < 3)%nat -> (j < 3)%nat ->
      mget Qb2 i j =
      if Nat.eqb (i + j) 2 && negb (Nat.eqb i 1) || Nat.eqb (i + j) 3
      then - mget Qb1 i j else mget Qb1 i j.
Proof.
  do 6 eexists. rewrite !calculate_transformation_eq.
  split; [reflexivity |]. split; [reflexivity |].
  rewrite cos_neg, sin_neg.
  generalize (cos th) (sin th). intros c s i j Hi Hj.
  destruct i as [| [| [| i]]]; try lia;
    destruct j as [| [| [| j]]]; try lia;
    cbn [Nat.eqb Nat.add andb orb negb]; array_compute; ring.
Qed.

(** X12. A ply at 90 degrees sees the material with its two axes exchanged:
    for the [Q] that [_calculate_Q] returns, the transformed stiffness has
    [Q[1,1]] and [Q[0,0]] exchanged on the diagonal, [Q[1,0]] and [Q[0,1]]
    exchanged off it, the same shear entry, and zeros elsewhere. *)
Theorem X12_ply_at_right_angle (E11 E22 G12 V12 V21 : R) :
  _calculate_transformation (90 * PI / 180) (Q_matrix E11 E22 G12 V12 V21) =
  Ok ([ [0; 1; 0]; [1; 0; 0]; [0; 0; -1] ],
      [ [0; 1; 0]; [1; 0; 0]; [0; 0; -1] ],
      [ [E22 / (1 - V12 * V21); V12 * E22 / (1 - V12 * V21); 0];
        [V21 * E11 / (1 - V12 * V21); E11 / (1 - V12 * V21); 0];
        [0; 0; G12] ]).
Proof.
  rewrite calculate_transformation_eq.
  replace (90 * PI / 180) with (PI / 2) by field.
  rewrite cos_PI2, sin_PI2.
  array_compute. array_eq; ring.
Qed.

(** ** Engineering constants *)

Lemma np_div_Some (a y : R) : y <> 0 -> np_div (Some a) y = Some (a / y).
Proof.
  intros Hy. unfold np_div.
  destruct (Req_EM_T y 0) as [Hz | _]; [contradiction | reflexivity].
Qed.

Lemma np_div_zero (a : R) : np_div (Some a) 0 = None.
Proof.
  unfold np_div. destruct (Req_EM_T 0 0) as [_ | Hnz]; [reflexivity |].
  now contradiction Hnz.
Qed.

Lemma np_div_finite (a y : R) : np_div (Some a) y <> None <-> y <> 0.
Proof.
  unfold np_div. destruct (Req_EM_T y 0) as [Hz | Hnz].
  - split; intros H; [now contradiction H | contradiction].
  - split; intros H; [exact Hnz | discriminate].
Qed.

Lemma np_mul_finite (x y : option R) :
  np_mul x y <> None <-> x <> None /\ y <> None.
Proof.
  destruct x, y; simpl; split; intros H;
    try (split; discriminate); try discriminate;
    try (destruct H as [H1 H2]; congruence); try (now contradiction H).
Qed.

Lemma np_sub_finite (x y : option R) :
  np_sub x y <> None <-> x <> None /\ y <> None.
Proof.
  destruct x, y; simpl; split; intros H;
    try (split; discriminate); try discriminate;
    try (destruct H as [H1 H2]; congruence); try (now contradiction H).
Qed.

(** X13. Which engineering constants are finite numbers. No division in
    [get_engineering_constants] raises; a zero divisor gives [inf] or [nan].
    [Ex] and [Ey] are finite exactly when the total thickness, [A[0,0]] and
    [A[1,1]] are all non-zero; [Gxy] exactly when the total thickness is
    non-zero; [vxy] exactly when [A[1,1]] is non-zero; [vyx] exactly when
    [A[0,0]] is non-zero. *)
Theorem X13_engineering_constants_finite (self : Self.LaminateAnalysis) :
  let c := get_engineering_constants self in
  let h := np_sum (Self.t self) in
  let A00 := mget (Self.A self) 0 0 in
  let A11 := mget (Self.A self) 1 1 in
  (Constants.Ex c <> None <-> h <> 0 /\ A00 <> 0 /\ A11 <> 0) /\
  (Constants.Ey c <> None <-> h <> 0 /\ A00 <> 0 /\ A11 <> 0) /\
  (Constants.Gxy c <> None <-> h <> 0) /\
  (Constants.vxy c <> None <-> A11 <> 0) /\
  (Constants.vyx c <> None <-> A00 <> 0).
Proof.
  intros c h A00 A11. unfold c, get_engineering_constants.
  cbn [Constants.Ex Constants.Ey Constants.Gxy Constants.vxy Constants.vyx].
  fold h A00 A11.
  rewrite !np_mul_finite, !np_sub_finite, !np_div_finite.
  assert (Hprod : A00 * A11 <> 0 <-> A00 <> 0 /\ A11 <> 0).
  { split.
    - intros H. split; intros Hz; apply H; rewrite Hz; ring.
    - intros [H0 H1]. now apply Rmult_integral_contrapositive. }
  rewrite Hprod.
  repeat split; try tauto; try discriminate.
Qed.

Lemma sum_over_plies_nth (t : vector) (k : nat) :
  (k <= length t)%nat ->
  sum_over_plies (fun p => nth p t 0) k = np_sum (firstn k t).
Proof.
  induction k as [| k IH]; intros Hk; [reflexivity |].
  simpl sum_over_plies. rewrite IH, np_sum_firstn_S by lia. reflexivity.
Qed.

(** The A array of a laminate whose plies all lie along the laminate axis. *)
Lemma unidirectional_A (layup_angles : list R)
  (thicknesses : thicknesses_arg) (mp : Material.dict)
  (self : Self.LaminateAnalysis) (i j : nat) :
  __init__ layup_angles thicknesses mp = Ok self ->
  Forall (fun a => a = 0) layup_angles ->
  length (Self.t self) = Self.k self ->
  (i < 3)%nat -> (j < 3)%nat ->
  mget (Self.A self) i j = mget (Self.Q self) i j * np_sum (Self.t self).
Proof.
  intros Hinit Hzero Hlen Hi Hj.
  destruct (init_abd_spec _ _ _ _ Hinit) as (_ & _ & _ & Hentries).
  destruct (Hentries i j Hi Hj) as (-> & _).
  destruct (init_inv _ _ _ _ Hinit)
    as (_ & _ & _ & Hth & _ & Hk & _ & HQ & _ & _ & _ & HQb & _).
  rewrite (sum_over_plies_ext _
             (fun p => mget (Self.Q self) i j * nth p (Self.t self) 0)).
  - rewrite sum_over_plies_scale, sum_over_plies_nth by lia.
    now rewrite <- Hlen, firstn_all.
  - intros p Hp. unfold A_term. f_equal. f_equal.
    rewrite HQb, Hth.
    rewrite !(nth_map_in _ _ _ 0) by (rewrite ?length_map; lia).
    rewrite Forall_forall in Hzero.
    rewrite (Hzero (nth p layup_angles 0)) by (apply nth_In; lia).
    replace (0 * PI / 180) with 0 by lra.
    apply Q_bar_matrix_zero. rewrite HQ. apply shape3_literal.
Qed.

Lemma unidirectional_constants (layup_angles : list R)
  (thicknesses : thicknesses_arg) (mp : Material.dict)
  (self : Self.LaminateAnalysis) :
  __init__ layup_angles thicknesses mp = Ok self ->
  Forall (fun a => a = 0) layup_angles ->
  length (Self.t self) = Self.k self ->
  np_sum (Self.t self) <> 0 ->
  Material.E22 mp <> 0 ->
  get_engineering_constants self =
  {| Constants.Ex := Some (Material.E11 mp);
     Constants.Ey := Some (Material.E22 mp);
     Constants.Gxy := Some (Material.G12 mp);
     Constants.vxy := Some (Material.V12 mp);
     Constants.vyx := Some (Self.V21 self) |}.
Proof.
  intros Hinit Hzero Hlen Hh HE22.
  pose proof (fun i j => unidirectional_A _ _ _ self i j Hinit Hzero Hlen)
    as HA.
  destruct (init_inv _ _ _ _ Hinit)
    as (HE11 & Hden & _ & _ & _ & _ & HV21 & HQ & _).
  unfold get_engineering_constants.
  rewrite !HA by lia. rewrite HQ.
  cbv [Q_matrix mget nth].
  revert Hh Hden HV21 HE11 HE22.
  generalize (np_sum (Self.t self)) (Material.E11 mp) (Material.E22 mp)
    (Material.G12 mp) (Material.V12 mp) (Self.V21 self).
  intros h E11 E22 G12 V12 V21 Hh Hden HV21 HE11 HE22. subst V21.
  set (V21 := V12 * E22 / E11) in *.
  assert (Hi : / (1 - V12 * V21) <> 0) by now apply Rinv_neq_0_compat.
  assert (H00 : E11 / (1 - V12 * V21) * h <> 0).
  { unfold Rdiv. repeat apply Rmult_integral_contrapositive_currified; auto. }
  assert (H11 : E22 / (1 - V12 * V21) * h <> 0).
  { unfold Rdiv. repeat apply Rmult_integral_contrapositive_currified; auto. }
  assert (Hp : E11 / (1 - V12 * V21) * h * (E22 / (1 - V12 * V21) * h) <> 0)
    by now apply Rmult_integral_contrapositive_currified.
  rewrite !np_div_Some by assumption.
  cbn [np_mul np_sub].
  unfold V21 in *.
  assert (Hnum : E11 - V12 * (V12 * E22) <> 0).
  { intros Hz. apply Hden.
    replace (1 - V12 * (V12 * E22 / E11))
      with ((E11 - V12 * (V12 * E22)) / E11) by (field; exact HE11).
    rewrite Hz. unfold Rdiv. ring. }
  f_equal; f_equal; field; auto.
Qed.

(** X14. Whenever the four constants are finite they satisfy the
    reciprocity relation [Ex * vyx = Ey * vxy], and
    [Ex = (A[0,0] / h) * (1 - vxy * vyx)] for the total thickness [h]. *)
Theorem X14_engineering_constants_reciprocity (self : Self.LaminateAnalysis)
  (ex ey nxy nyx : R) :
  let c := get_engineering_constants self in
  Constants.Ex c = Some ex -> Constants.Ey c = Some ey ->
  Constants.vxy c = Some nxy -> Constants.vyx c = Some nyx ->
  ex * nyx = ey * nxy /\
  ex = mget (Self.A self) 0 0 / np_sum (Self.t self) * (1 - nxy * nyx).
Proof.
  intros c. unfold c, get_engineering_constants.
  cbn [Constants.Ex Constants.Ey Constants.Gxy Constants.vxy Constants.vyx].
  set (h := np_sum (Self.t self)).
  set (A00 := mget (Self.A self) 0 0).
  set (A01 := mget (Self.A self) 0 1).
  set (A11 := mget (Self.A self) 1 1).
  unfold np_div.
  destruct (Req_EM_T h 0) as [Hh | Hh]; [discriminate |].
  destruct (Req_EM_T (A00 * A11) 0) as [Hp | Hp]; [discriminate |].
  destruct (Req_EM_T A11 0) as [H11 | H11]; [discriminate |].
  destruct (Req_EM_T A00 0) as [H00 | H00]; [discriminate |].
  cbn [np_mul np_sub].
  intros Hex Hey Hxy Hyx.
  injection Hex as <-. injection Hey as <-.
  injection Hxy as <-. injection Hyx as <-.
  split; field; auto.
Qed.

Lemma unidirectional_example :
  exists self,
    __init__ [0; 0; 0] (Sequence [1; 2; 3]) example_material = Ok self /\
    get_engineering_constants self =
    {| Constants.Ex := Some 2; Constants.Ey := Some 1;
       Constants.Gxy := Some 1; Constants.vxy := Some (1 / 2);
       Constants.vyx := Some (Self.V21 self) |}.
Proof.
  destruct example_material_valid as [HE Hden].
  destruct (init_total [0; 0; 0] (Sequence [1; 2; 3]) example_material
              HE Hden) as [self Hself]; [simpl; lia |].
  exists self. split; [exact Hself |].
  destruct (init_inv _ _ _ _ Hself) as (_ & _ & _ & _ & Ht & Hk & _).
  apply (unidirectional_constants _ _ _ self Hself).
  - repeat constructor.
  - rewrite Ht, Hk. reflexivity.
  - rewrite Ht. simpl. lra.
  - simpl. lra.
Qed.

Lemma X14_engineering_constants_reciprocity_witness :
  exists self,
    __init__ [0; 0; 0] (Sequence [1; 2; 3]) example_material = Ok self /\
    2 * Self.V21 self = 1 * (1 / 2) /\
    2 = mget (Self.A self) 0 0 / np_sum (Self.t self) *
        (1 - 1 / 2 * Self.V21 self).
Proof.
  destruct unidirectional_example as (self & Hself & Hc).
  exists self. split; [exact Hself |].
  apply (X14_engineering_constants_reciprocity self 2 1 (1 / 2)
           (Self.V21 self)); rewrite Hc; reflexivity.
Defined.

(** X15. For a laminate whose plies all lie at angle zero, with as many
    thicknesses as angles, a non-zero total thickness and [E22 <> 0], the
    engineering constants are the constants of the material:
    [Ex = E11], [Ey = E22], [Gxy = G12], [vxy = V12] and [vyx = V21]. *)
Theorem X15_unidirectional_constants (layup_angles : list R)
  (thicknesses : thicknesses_arg) (mp : Material.dict)
  (self : Self.LaminateAnalysis) :
  __init__ layup_angles thicknesses mp = Ok self ->
  Forall (fun a => a = 0) layup_angles ->
  length (Self.t self) = Self.k self ->
  np_sum (Self.t self) <> 0 ->
  Material.E22 mp <> 0 ->
  get_engineering_constants self =
  {| Constants.Ex := Some (Material.E11 mp);
     Constants.Ey := Some (Material.E22 mp);
     Constants.Gxy := Some (Material.G12 mp);
     Constants.vxy := Some (Material.V12 mp);
     Constants.vyx := Some (Self.V21 self) |}.
Proof. apply unidirectional_constants. Qed.

Lemma X15_unidirectional_constants_witness :
  exists self,
    __init__ [0; 0; 0] (Sequence [1; 2; 3]) example_material = Ok self /\
    get_engineering_constants self =
    {| Constants.Ex := Some 2; Constants.Ey := Some 1;
       Constants.Gxy := Some 1; Constants.vxy := Some (1 / 2);
       Constants.vyx := Some (Self.V21 self) |}.
Proof.
  destruct example_material_valid as [HE Hden].
  destruct (init_total [0; 0; 0] (Sequence [1; 2; 3]) example_material
              HE Hden) as [self Hself]; [simpl; lia |].
  exists self. split; [exact Hself |].
  destruct (init_inv _ _ _ _ Hself) as (_ & _ & _ & _ & Ht & Hk & _).
  apply (X15_unidirectional_constants _ _ _ self Hself).
  - repeat constructor.
  - rewrite Ht, Hk. reflexivity.
  - rewrite Ht. simpl. lra.
  - simpl. lra.
Defined.

Lemma zero_ply_abd (thicknesses : thicknesses_arg) (mp : Material.dict)
  (self : Self.LaminateAnalysis) :
  __init__ [] thicknesses mp = Ok self ->
  Self.A self = np_zeros2 3 3 /\ Self.B self = np_zeros2 3 3 /\
  Self.D self = np_zeros2 3 3.
Proof.
  intros Hself.
  destruct (init_inv _ _ _ _ Hself)
    as (_ & _ & _ & _ & _ & Hk & _ & _ & _ & _ & _ & _ & HABD).
  rewrite Hk in HABD. cbn [length] in HABD.
  cbv [_calculate_ABD_matrices for_range foldM seq bind] in HABD.
  injection HABD as <- <- <-. auto.
Qed.

(** X16. For a laminate without plies, [get_engineering_constants] raises
    nothing, and none of [Ex], [Ey], [vxy], [vyx] is a finite number: A is
    zero, so each of them divides by zero. *)
Theorem X16_constants_without_plies (thicknesses : thicknesses_arg)
  (mp : Material.dict) (self : Self.LaminateAnalysis) :
  __init__ [] thicknesses mp = Ok self ->
  let c := get_engineering_constants self in
  Constants.Ex c = None /\ Constants.Ey c = None /\
  Constants.vxy c = None /\ Constants.vyx c = None.
Proof.
  intros Hself c. unfold c, get_engineering_constants.
  destruct (zero_ply_abd _ _ _ Hself) as (-> & _ & _).
  cbn [Constants.Ex Constants.Ey Constants.Gxy Constants.vxy Constants.vyx].
  rewrite !mget_zeros, Rmult_0_l, !np_div_zero.
  cbn [np_sub np_mul].
  repeat split; destruct (np_div (Some 0) (np_sum (Self.t self)));
    reflexivity.
Qed.

Lemma X16_constants_without_plies_witness :
  exists self,
    __init__ [] (Sequence [1; 2]) example_material = Ok self /\
    Constants.Ex (get_engineering_constants self) = None /\
    Constants.Ey (get_engineering_constants self) = None /\
    Constants.vxy (get_engineering_constants self) = None /\
    Constants.vyx (get_engineering_constants self) = None.
Proof.
  destruct (zero_ply_init (Sequence [1; 2])) as (self & Hself & _).
  exists self. split; [exact Hself |].
  exact (X16_constants_without_plies _ _ _ Hself).
Defined.

(** ** The angle distribution *)

Lemma counter_get_add (c : list (R * nat)) (x y : R) :
  counter_get (counter_add c y) x =
  (counter_get c x + if Req_EM_T y x then 1 else 0)%nat.
Proof.
  induction c as [| [z n] c IH]; simpl.
  - destruct (Req_EM_T x y), (Req_EM_T y x); try reflexivity; congruence.
  - destruct (Req_EM_T y z) as [Hyz | Hyz]; simpl;
      destruct (Req_EM_T x z) as [Hxz | Hxz];
      destruct (Req_EM_T y x) as [Hyx | Hyx];
      try lia; try congruence; try (rewrite IH);
      destruct (Req_EM_T y x); try lia; congruence.
Qed.

Lemma counter_get_fold (l : list R) (c : list (R * nat)) (x : R) :
  counter_get (fold_left counter_add l c) x =
  (counter_get c x + count_occ Req_EM_T l x)%nat.
Proof.
  revert c; induction l as [| y l IH]; intros c; simpl; [lia |].
  rewrite IH, counter_get_add.
  destruct (Req_EM_T y x); lia.
Qed.

Lemma counter_get_Counter (l : list R) (x : R) :
  counter_get (Counter l) x = count_occ Req_EM_T l x.
Proof. unfold Counter. now rewrite counter_get_fold. Qed.

(** The angles 0, 45, -45 and 90 are counted in disjoint buckets. *)
Lemma count_standard_angles (l : list R) :
  let n := (count_occ Req_EM_T l 0%R + (count_occ Req_EM_T l 45%R +
            count_occ Req_EM_T l (- 45)%R) + count_occ Req_EM_T l 90%R)%nat in
  (n <= length l)%nat /\
  (n = length l <->
   Forall (fun a => a = 0 \/ a = 45 \/ a = - 45 \/ a = 90) l).
Proof.
  induction l as [| a l IH]; simpl.
  - split; [lia |]. split; [constructor | reflexivity].
  - destruct IH as [Hle Hiff]. rewrite Forall_cons_iff, <- Hiff.
    destruct (Req_EM_T a 0) as [H0 | H0];
      destruct (Req_EM_T a 45) as [H45 | H45];
      destruct (Req_EM_T a (- 45)) as [Hm | Hm];
      destruct (Req_EM_T a 90) as [H90 | H90];
      try (exfalso; lra);
      (split; [lia |]); split; intros H; try lia;
      try (split; [tauto | lia]);
      try (destruct H as [_ H]; lia);
      destruct H as [[H | [H | [H | H]]] _]; contradiction.
Qed.

(** X17. For a laminate without plies [analyze_layup_distribution] raises
    [ZeroDivisionError]: the first percentage divides a count by the number
    of plies. *)
Theorem X17_distribution_without_plies (self : Self.LaminateAnalysis) :
  Self.angles self = [] ->
  analyze_layup_distribution self = Raise ZeroDivisionError.
Proof.
  intros Hempty. unfold analyze_layup_distribution.
  rewrite Hempty. cbn [length INR]. now rewrite py_div_zero.
Qed.

Lemma X17_distribution_without_plies_witness :
  exists self,
    __init__ [] (Number 1) example_material = Ok self /\
    analyze_layup_distribution self = Raise ZeroDivisionError.
Proof.
  destruct (zero_ply_init (Number 1)) as (self & Hself & _).
  exists self. split; [exact Hself |].
  apply X17_distribution_without_plies.
  destruct (init_inv _ _ _ _ Hself) as (_ & _ & Ha & _). exact Ha.
Defined.

Lemma distribution_result (self : Self.LaminateAnalysis) :
  Self.angles self <> [] ->
  let l := Self.angles self in
  let n := INR (length l) in
  analyze_layup_distribution self =
  Ok {| Distribution.counts := Counter l;
        Distribution.percentages :=
          {| Distribution.deg_0 := INR (count_occ Req_EM_T l 0) / n * 100;
             Distribution.deg_45 :=
               INR (count_occ Req_EM_T l 45 + count_occ Req_EM_T l (- 45))
               / n * 100;
             Distribution.deg_90 :=
               INR (count_occ Req_EM_T l 90) / n * 100 |};
        Distribution.total_plies := length l |}.
Proof.
  intros Hne l n. unfold analyze_layup_distribution. fold l.
  assert (Hn : n <> 0).
  { unfold n. apply not_0_INR. intros Hz. apply Hne.
    now apply length_zero_iff_nil. }
  fold n. rewrite !py_div_ok by exact Hn. cbn [bind].
  now rewrite !counter_get_Counter.
Qed.

(** X18. For a laminate with at least one ply,
    [analyze_layup_distribution] returns a counter in which every angle
    reads as the number of plies at that angle (zero for an angle no ply
    has), with the number of plies as [total_plies]. *)
Theorem X18_distribution_counts (self : Self.LaminateAnalysis) :
  Self.angles self <> [] ->
  exists d,
    analyze_layup_distribution self = Ok d /\
    Distribution.total_plies d = length (Self.angles self) /\
    forall x : R,
      counter_get (Distribution.counts d) x =
      count_occ Req_EM_T (Self.angles self) x.
Proof.
  intros Hne. eexists. split; [apply (distribution_result self Hne) |].
  split; [reflexivity |]. intros x. apply counter_get_Counter.
Qed.

Lemma example_angles_of (thicknesses : thicknesses_arg)
  (self : Self.LaminateAnalysis) :
  __init__ example_angles thicknesses example_material = Ok self ->
  Self.angles self = example_angles.
Proof.
  intros Hself.
  destruct (init_inv _ _ _ _ Hself) as (_ & _ & Ha & _). exact Ha.
Qed.

Lemma X18_distribution_counts_witness :
  exists self d,
    __init__ example_angles (Number 1) example_material = Ok self /\
    analyze_layup_distribution self = Ok d /\
    Distribution.total_plies d = length (Self.angles self) /\
    counter_get (Distribution.counts d) 45 =
      count_occ Req_EM_T (Self.angles self) 45.
Proof.
  destruct (example_init (Number 1)) as [self Hself]; [simpl; lia |].
  destruct (X18_distribution_counts self) as (d & Hd & Ht & Hc).
  - rewrite (example_angles_of _ _ Hself). discriminate.
  - exists self, d. auto.
Defined.

(** X19. For a laminate with at least one ply, the three percentages
    [analyze_layup_distribution] reports (plies at 0, at 45 or -45, at 90)
    lie between 0 and 100 and add up to at most 100; they add up to exactly
    100 if and only if every ply is at 0, 45, -45 or 90 degrees. *)
Theorem X19_distribution_percentages (self : Self.LaminateAnalysis) :
  Self.angles self <> [] ->
  exists d,
    analyze_layup_distribution self = Ok d /\
    let p := Distribution.percentages d in
    0 <= Distribution.deg_0 p <= 100 /\
    0 <= Distribution.deg_45 p <= 100 /\
    0 <= Distribution.deg_90 p <= 100 /\
    Distribution.deg_0 p + Distribution.deg_45 p + Distribution.deg_90 p
      <= 100 /\
    (Distribution.deg_0 p + Distribution.deg_45 p + Distribution.deg_90 p
       = 100 <->
     Forall (fun a => a = 0 \/ a = 45 \/ a = - 45 \/ a = 90)
            (Self.angles self)).
Proof.
  intros Hne. eexists. split; [apply (distribution_result self Hne) |].
  cbn [Distribution.percentages Distribution.deg_0 Distribution.deg_45
       Distribution.deg_90].
  destruct (count_standard_angles (Self.angles self)) as [Hle Hiff].
  set (l := Self.angles self) in *.
  set (c0 := count_occ Req_EM_T l 0) in *.
  set (c45 := (count_occ Req_EM_T l 45%R +
               count_occ Req_EM_T l (- 45)%R)%nat) in *.
  set (c90 := count_occ Req_EM_T l 90) in *.
  assert (Hn : 0 < INR (length l)).
  { apply lt_0_INR. destruct (length l) eqn:Hlen; [| lia].
    exfalso. apply Hne. now apply length_zero_iff_nil. }
  assert (Hpct : forall c : nat,
            INR c / INR (length l) * 100 = 100 * INR c / INR (length l))
    by (intros c; field; lra).
  assert (Hbound : forall c : nat, (c <= length l)%nat ->
            0 <= INR c / INR (length l) * 100 <= 100).
  { intros c Hc. apply le_INR in Hc. pose proof (pos_INR c) as Hc0.
    rewrite Hpct. split.
    - apply Rmult_le_pos; [lra | apply Rlt_le, Rinv_0_lt_compat; exact Hn].
    - apply Rmult_le_reg_r with (INR (length l)); [exact Hn |].
      unfold Rdiv. rewrite Rmult_assoc, Rinv_l by lra. lra. }
  assert (Hsum : INR c0 / INR (length l) * 100 +
                 INR c45 / INR (length l) * 100 +
                 INR c90 / INR (length l) * 100 =
                 INR (c0 + c45 + c90) / INR (length l) * 100).
  { rewrite !plus_INR. field. lra. }
  split; [apply Hbound; lia |].
  split; [apply Hbound; lia |].
  split; [apply Hbound; lia |].
  rewrite Hsum. split; [apply Hbound; exact Hle |].
  rewrite <- Hiff. split.
  - intros H. apply INR_eq.
    apply Rmult_eq_reg_r with (/ INR (length l) * 100).
    + rewrite <- Rmult_assoc. fold (Rdiv (INR (c0 + c45 + c90)) (INR (length l))).
      rewrite H. field. lra.
    + apply Rmult_integral_contrapositive_currified; [| lra].
      apply Rinv_neq_0_compat. lra.
  - intros ->. field. lra.
Qed.

Lemma X19_distribution_percentages_witness :
  exists self d,
    __init__ example_angles (Number 1) example_material = Ok self /\
    analyze_layup_distribution self = Ok d /\
    Distribution.deg_0 (Distribution.percentages d) +
    Distribution.deg_45 (Distribution.percentages d) +
    Distribution.deg_90 (Distribution.percentages d) <= 100.
Proof.
  destruct (example_init (Number 1)) as [self Hself]; [simpl; lia |].
  destruct (X19_distribution_percentages self) as (d & Hd & Hp).
  - rewrite (example_angles_of _ _ Hself). discriminate.
  - exists self, d. split; [exact Hself |]. split; [exact Hd |].
    apply Hp.
Defined.

(** ** The original script *)

Lemma fold_left_seq_invariant {S : Type} (f : S -> nat -> S)
  (I : nat -> S -> Prop) (n : nat) :
  forall (a : nat) (s0 : S),
    I a s0 ->
    (forall i s, (a <= i < a + n)%nat -> I i s -> I (Datatypes.S i) (f s i)) ->
    I (a + n)%nat (fold_left f (seq a n) s0).
Proof.
  induction n as [| n IH]; intros a s0 H0 Hstep; simpl.
  - now rewrite Nat.add_0_r.
  - replace (a + Datatypes.S n)%nat with (Datatypes.S a + n)%nat by lia.
    apply IH.
    + apply Hstep; [lia | exact H0].
    + intros i s Hi. apply Hstep. lia.
Qed.

Lemma calc_zs_spec (t : R) (k : nat) :
  length (fst (calc_zs t k)) = k /\ length (snd (calc_zs t k)) = k /\
  forall i : nat, (i < k)%nat ->
    nth i (fst (calc_zs t k)) 0 = - (t * INR k) * 0.5 + t * INR (i + 1) /\
    nth i (snd (calc_zs t k)) 0 = - 0.5 * (t * INR k - t) + INR i * t.
Proof.
  unfold calc_zs.
  pose (I := fun (n : nat) (st : list R * list R) =>
    length (fst st) = k /\ length (snd st) = k /\
    forall i : nat, (i < n)%nat ->
      nth i (fst st) 0 = - (t * INR k) * 0.5 + t * INR (i + 1) /\
      nth i (snd st) 0 = - 0.5 * (t * INR k - t) + INR i * t).
  apply (fold_left_seq_invariant (calc_zs_step t (t * INR k)) I k 0).
  - unfold I. simpl. unfold np_zeros. rewrite !repeat_length.
    repeat split; lia.
  - intros n [z zm] Hn (Hz & Hzm & Hprev). unfold I, calc_zs_step.
    cbn [fst snd] in *. rewrite !length_list_set.
    split; [exact Hz |]. split; [exact Hzm |].
    intros i Hi. destruct (Nat.eq_dec i n) as [-> | Hne].
    + rewrite !nth_list_set_eq by lia. split; reflexivity.
    + rewrite !nth_list_set_neq by auto. apply Hprev. lia.
Qed.

Lemma np_sum_repeat (t : R) (n : nat) : np_sum (repeat t n) = INR n * t.
Proof.
  induction n as [| n IH]; [simpl; ring |].
  rewrite S_INR. cbn [repeat np_sum fold_right].
  fold (np_sum (repeat t n)). rewrite IH. ring.
Qed.

Lemma firstn_repeat_le {X : Type} (x : X) (n k : nat) :
  (n <= k)%nat -> firstn n (repeat x k) = repeat x n.
Proof.
  revert k; induction n as [| n IH]; intros [| k] Hn; simpl; try lia; auto.
  f_equal. apply IH. lia.
Qed.

(** X20. For plies of one thickness [t], the class computes the same
    coordinates as the original script: [_calculate_z_coordinates] on [k]
    copies of [t] returns the two arrays that [calc_zs(t, k)] returns, the
    ply tops [-t*k/2 + t*(i+1)] and the ply mid-planes. *)
Theorem X20_z_coordinates_agree_with_script (t : R) (k : nat) :
  _calculate_z_coordinates (np_full k t) k = Ok (calc_zs t k).
Proof.
  destruct (z_coordinates_total (np_full k t) k) as (z & zm & Hz).
  { unfold np_full. rewrite repeat_length. lia. }
  rewrite Hz. f_equal.
  apply z_coordinates_spec in Hz. destruct Hz as (_ & Hlz & Hlzm & Hzs).
  destruct (calc_zs_spec t k) as (Hlz' & Hlzm' & Hzs').
  rewrite (surjective_pairing (calc_zs t k)).
  assert (Hnth : forall i, (i < k)%nat ->
            nth i z 0 = nth i (fst (calc_zs t k)) 0 /\
            nth i zm 0 = nth i (snd (calc_zs t k)) 0).
  { intros i Hi.
    destruct (Hzs i Hi) as [-> ->]. destruct (Hzs' i Hi) as [-> ->].
    unfold np_full. rewrite np_sum_repeat.
    rewrite !firstn_repeat_le, !np_sum_repeat by lia.
    rewrite nth_repeat_lt by exact Hi.
    rewrite plus_INR, S_INR. simpl INR. split; lra. }
  f_equal.
  - apply (nth_ext _ _ 0 0); [congruence |].
    intros i Hi. apply Hnth. lia.
  - apply (nth_ext _ _ 0 0); [congruence |].
    intros i Hi. apply Hnth. lia.
Qed.

(** ** Load estimators of the components *)

Lemma component_bind_Return {X Y : Type} (r : Component.result X)
  (f : X -> Component.result Y) (y : Y) :
  Component.bind r f = Component.Return y ->
  exists x, r = Component.Return x /\ f x = Component.Return y.
Proof.
  destruct r as [x | e]; simpl; intros H; [eauto | discriminate].
Qed.

Lemma getitem_Return (d : list (String.string * R)) (key : String.string)
  (v : R) :
  Component.getitem d key = Component.Return v <->
  Component.lookup d key = Some v.
Proof.
  unfold Component.getitem. destruct (Component.lookup d key).
  - split; intros H; [injection H as -> | injection H as ->]; reflexivity.
  - split; discriminate.
Qed.

Lemma getitem_missing (d : list (String.string * R)) (key : String.string) :
  Component.lookup d key = None ->
  Component.getitem d key = Component.Throw (Component.KeyError key).
Proof. unfold Component.getitem. now intros ->. Qed.

Lemma getitem_cases (d : list (String.string * R)) (key : String.string) :
  (exists v, Component.lookup d key = Some v /\
             Component.getitem d key = Component.Return v) \/
  (Component.lookup d key = None /\
   Component.getitem d key = Component.Throw (Component.KeyError key)).
Proof.
  unfold Component.getitem. destruct (Component.lookup d key); eauto.
Qed.

(** What a nose cone returns when it returns. *)
Lemma nosecone_loads_inv (geometry fc : list (String.string * R))
  (l : Component.loads) :
  NoseCone.get_loads geometry fc = Component.Return l ->
  exists v rho alpha len d,
    Component.lookup fc "velocity"%string = Some v /\
    Component.lookup fc "density"%string = Some rho /\
    Component.lookup fc "angle_of_attack"%string = Some alpha /\
    Component.lookup geometry "length"%string = Some len /\
    Component.lookup geometry "base_diameter"%string = Some d /\
    let q := 0.5 * rho * v ^ 2 / 144 in
    let a := alpha * (PI / 180) in
    l = {| Component.forces := [q * cos a; q * sin a; 0];
           Component.moments := [0; q * sin a * d / 4; 0] |}.
Proof.
  unfold NoseCone.get_loads. intros H.
  apply component_bind_Return in H. destruct H as (v & Hv & H).
  apply component_bind_Return in H. destruct H as (rho & Hrho & H).
  apply component_bind_Return in H. destruct H as (alpha & Halpha & H).
  apply component_bind_Return in H. destruct H as (len & Hlen & H).
  apply component_bind_Return in H. destruct H as (d & Hd & H).
  apply getitem_Return in Hv, Hrho, Halpha, Hlen, Hd.
  exists v, rho, alpha, len, d. injection H as <-. auto 10.
Qed.

(** X21. When the nose cone estimator returns, it returns three forces and
    three moments; the axial and the normal force are the two components of
    the dynamic pressure [q = 0.5 * density * velocity^2 / 144], so that
    their squares add up to [q^2]; there is no shear force; and the only
    moment is the normal force times a quarter of the base diameter. *)
Theorem X21_nosecone_loads (geometry fc : list (String.string * R))
  (l : Component.loads) (v rho d : R) :
  NoseCone.get_loads geometry fc = Component.Return l ->
  Component.lookup fc "velocity"%string = Some v ->
  Component.lookup fc "density"%string = Some rho ->
  Component.lookup geometry "base_diameter"%string = Some d ->
  length (Component.forces l) = 3%nat /\
  length (Component.moments l) = 3%nat /\
  nth 0 (Component.forces l) 0 ^ 2 + nth 1 (Component.forces l) 0 ^ 2 =
    (0.5 * rho * v ^ 2 / 144) ^ 2 /\
  nth 2 (Component.forces l) 0 = 0 /\
  Component.moments l = [0; nth 1 (Component.forces l) 0 * d / 4; 0].
Proof.
  intros H Hv Hrho Hd.
  apply nosecone_loads_inv in H.
  destruct H as (v' & rho' & alpha & len & d' & Hv' & Hrho' & _ & _ & Hd' & ->).
  assert (v' = v) by congruence. assert (rho' = rho) by congruence.
  assert (d' = d) by congruence. subst v' rho' d'.
  cbn [Component.forces Component.moments length nth].
  repeat split; try reflexivity.
  pose proof (cos_sin_unit (alpha * (PI / 180))) as Hcs.
  generalize dependent (cos (alpha * (PI / 180))).
  generalize dependent (sin (alpha * (PI / 180))).
  intros s c Hcs. cbn [pow].
  transitivity ((0.5 * rho * (v * (v * 1)) / 144) *
                (0.5 * rho * (v * (v * 1)) / 144) * (c * c + s * s)).
  - field.
  - rewrite Hcs. field.
Qed.

Lemma X21_nosecone_loads_witness :
  exists l,
    NoseCone.get_loads
      [("shape_code"%string, 1); ("length"%string, 24);
       ("base_diameter"%string, 6)]
      [("velocity"%string, 100); ("density"%string, 2);
       ("angle_of_attack"%string, 5)] = Component.Return l /\
    nth 0 (Component.forces l) 0 ^ 2 + nth 1 (Component.forces l) 0 ^ 2 =
      (0.5 * 2 * 100 ^ 2 / 144) ^ 2 /\
    Component.moments l = [0; nth 1 (Component.forces l) 0 * 6 / 4; 0].
Proof.
  eexists. split; [reflexivity |].
  edestruct (X21_nosecone_loads
               [("shape_code"%string, 1); ("length"%string, 24);
                ("base_diameter"%string, 6)]
               [("velocity"%string, 100); ("density"%string, 2);
                ("angle_of_attack"%string, 5)] _ 100 2 6 eq_refl eq_refl
               eq_refl eq_refl) as (_ & _ & Hres & _ & Hmom).
  split; [exact Hres | exact Hmom].
Defined.

(** X22. The nose cone estimator returns exactly when [flight_conditions]
    has the keys [velocity], [density] and [angle_of_attack] and [geometry]
    has the keys [length] and [base_diameter]; the length is required
    although no load depends on it. Otherwise it raises [KeyError] for the
    first of these keys, in this order, that is missing, and it raises
    nothing else. *)
Theorem X22_nosecone_keys (geometry fc : list (String.string * R)) :
  ((exists l, NoseCone.get_loads geometry fc = Component.Return l) <->
   Component.lookup fc "velocity"%string <> None /\
   Component.lookup fc "density"%string <> None /\
   Component.lookup fc "angle_of_attack"%string <> None /\
   Component.lookup geometry "length"%string <> None /\
   Component.lookup geometry "base_diameter"%string <> None) /\
  (forall e,
     NoseCone.get_loads geometry fc = Component.Throw e ->
     (e = Component.KeyError "velocity"%string /\
      Component.lookup fc "velocity"%string = None) \/
     (e = Component.KeyError "density"%string /\
      Component.lookup fc "velocity"%string <> None /\
      Component.lookup fc "density"%string = None) \/
     (e = Component.KeyError "angle_of_attack"%string /\
      Component.lookup fc "density"%string <> None /\
      Component.lookup fc "angle_of_attack"%string = None) \/
     (e = Component.KeyError "length"%string /\
      Component.lookup fc "angle_of_attack"%string <> None /\
      Component.lookup geometry "length"%string = None) \/
     (e = Component.KeyError "base_diameter"%string /\
      Component.lookup geometry "length"%string <> None /\
      Component.lookup geometry "base_diameter"%string = None)).
Proof.
  unfold NoseCone.get_loads.
  destruct (getitem_cases fc "velocity"%string)
    as [(v & Hv & ->) | (Hv & ->)];
  destruct (getitem_cases fc "density"%string)
    as [(rho & Hrho & ->) | (Hrho & ->)];
  destruct (getitem_cases fc "angle_of_attack"%string)
    as [(alpha & Halpha & ->) | (Halpha & ->)];
  destruct (getitem_cases geometry "length"%string)
    as [(len & Hlen & ->) | (Hlen & ->)];
  destruct (getitem_cases geometry "base_diameter"%string)
    as [(d & Hd & ->) | (Hd & ->)];
  cbn [Component.bind]; rewrite ?Hv, ?Hrho, ?Halpha, ?Hlen, ?Hd;
  (split;
   [ split;
     [ intros [l Hl]; try discriminate; repeat split; discriminate
     | intros (H1 & H2 & H3 & H4 & H5); try congruence; eauto ]
   | intros e He; try discriminate; injection He as <-;
     first [ left; split; [reflexivity | reflexivity]
           | right; left; repeat split; (reflexivity || discriminate)
           | right; right; left; repeat split; (reflexivity || discriminate)
           | right; right; right; left; repeat split;
             (reflexivity || discriminate)
           | right; right; right; right; repeat split;
             (reflexivity || discriminate) ] ]).
Qed.

Lemma X22_nosecone_keys_witness :
  NoseCone.get_loads
    [("base_diameter"%string, 6)]
    [("velocity"%string, 100); ("density"%string, 2);
     ("angle_of_attack"%string, 5)] =
    Component.Throw (Component.KeyError "length"%string) /\
  ~ (exists l,
       NoseCone.get_loads
         [("base_diameter"%string, 6)]
         [("velocity"%string, 100); ("density"%string, 2);
          ("angle_of_attack"%string, 5)] = Component.Return l).
Proof.
  split; [reflexivity |].
  destruct (X22_nosecone_keys
              [("base_diameter"%string, 6)]
              [("velocity"%string, 100); ("density"%string, 2);
               ("angle_of_attack"%string, 5)]) as [Hiff _].
  intros Hex. apply Hiff in Hex.
  destruct Hex as (_ & _ & _ & Hlen & _). now apply Hlen.
Defined.

Lemma component_div_Return (x y : R) :
  y <> 0 -> Component.div x y = Component.Return (x / y).
Proof.
  intros Hy. unfold Component.div.
  destruct (Req_EM_T y 0); [contradiction | reflexivity].
Qed.

Lemma component_div_zero (x : R) :
  Component.div x 0 = Component.Throw Component.ZeroDivisionError.
Proof.
  unfold Component.div.
  destruct (Req_EM_T 0 0) as [_ | Hnz]; [reflexivity | now contradiction Hnz].
Qed.

(** X23. The airframe estimator needs a [diameter] and nothing else. Without
    the key it raises [KeyError]; with a diameter of zero it raises
    [ZeroDivisionError], whatever the flight conditions; with any other
    diameter [d] it returns, with no moments, no shear force, the hoop force
    [internal_pressure * d / 2] and the axial force
    [axial_load / (pi * d) + 4 * bending_moment / (pi * d^2)], where a load
    that [flight_conditions] does not give counts as zero. *)
Theorem X23_airframe_loads (geometry fc : list (String.string * R)) :
  (Component.lookup geometry "diameter"%string = None ->
   CylindricalAirframe.get_loads geometry fc =
   Component.Throw (Component.KeyError "diameter"%string)) /\
  (Component.lookup geometry "diameter"%string = Some 0 ->
   CylindricalAirframe.get_loads geometry fc =
   Component.Throw Component.ZeroDivisionError) /\
  (forall d : R,
     Component.lookup geometry "diameter"%string = Some d -> d <> 0 ->
     exists l,
       CylindricalAirframe.get_loads geometry fc = Component.Return l /\
       Component.moments l = [0; 0; 0] /\
       length (Component.forces l) = 3%nat /\
       nth 0 (Component.forces l) 0 =
         Component.get fc "axial_load"%string 0 / (PI * d) +
         4 * Component.get fc "bending_moment"%string 0 / (PI * d ^ 2) /\
       nth 1 (Component.forces l) 0 =
         Component.get fc "internal_pressure"%string 0 * d / 2 /\
       nth 2 (Component.forces l) 0 = 0).
Proof.
  unfold CylindricalAirframe.get_loads.
  split; [| split].
  - intros Hd. now rewrite (getitem_missing _ _ Hd).
  - intros Hd. apply getitem_Return in Hd. rewrite Hd.
    cbn [Component.bind]. rewrite Rmult_0_r, component_div_zero.
    reflexivity.
  - intros d Hd Hnz. apply getitem_Return in Hd. rewrite Hd.
    cbn [Component.bind].
    pose proof PI_neq0 as Hpi.
    assert (Hc : PI * d <> 0)
      by now apply Rmult_integral_contrapositive_currified.
    assert (Hr : PI * (d / 2) ^ 3 <> 0).
    { apply Rmult_integral_contrapositive_currified; [exact Hpi |].
      apply pow_nonzero. lra. }
    rewrite (component_div_Return _ _ Hc). cbn [Component.bind].
    rewrite (component_div_Return _ _ Hr). cbn [Component.bind].
    eexists. split; [reflexivity |].
    cbn [Component.forces Component.moments length nth].
    repeat split; field; auto.
Qed.

Lemma X23_airframe_loads_witness :
  CylindricalAirframe.get_loads [("length"%string, 48)] [] =
    Component.Throw (Component.KeyError "diameter"%string) /\
  CylindricalAirframe.get_loads
    [("length"%string, 48); ("diameter"%string, 0)]
    [("axial_load"%string, 10)] =
    Component.Throw Component.ZeroDivisionError /\
  exists l,
    CylindricalAirframe.get_loads
      [("length"%string, 48); ("diameter"%string, 6)]
      [("axial_load"%string, 10)] = Component.Return l /\
    nth 0 (Component.forces l) 0 = 10 / (PI * 6) + 4 * 0 / (PI * 6 ^ 2).
Proof.
  split; [| split].
  - apply X23_airframe_loads. reflexivity.
  - apply X23_airframe_loads. reflexivity.
  - destruct (X23_airframe_loads
                [("length"%string, 48); ("diameter"%string, 6)]
                [("axial_load"%string, 10)]) as (_ & _ & Hok).
    destruct (Hok 6 eq_refl ltac:(lra)) as (l & Hl & _ & _ & Hx & _).
    exists l. split; [exact Hl | exact Hx].
Defined.

(** What a fin returns when it returns. *)
Lemma fin_loads_inv (geometry fc : list (String.string * R))
  (l : Component.loads) :
  Fin.get_loads geometry fc = Component.Return l ->
  exists v rho alpha chord span,
    Component.lookup fc "velocity"%string = Some v /\
    Component.lookup fc "density"%string = Some rho /\
    Component.lookup fc "angle_of_attack"%string = Some alpha /\
    Component.lookup geometry "root_chord"%string = Some chord /\
    Component.lookup geometry "span"%string = Some span /\
    let q := 0.5 * rho * v ^ 2 / 144 in
    let a := alpha * (PI / 180) in
    l = {| Component.forces := [0; 0; q * sin a * cos a / 2];
           Component.moments := [0; q * sin a * cos a * span / 2; 0] |}.
Proof.
  unfold Fin.get_loads. intros H.
  apply component_bind_Return in H. destruct H as (v & Hv & H).
  apply component_bind_Return in H. destruct H as (rho & Hrho & H).
  apply component_bind_Return in H. destruct H as (alpha & Halpha & H).
  apply component_bind_Return in H. destruct H as (chord & Hchord & H).
  apply component_bind_Return in H. destruct H as (span & Hspan & H).
  apply getitem_Return in Hv, Hrho, Halpha, Hchord, Hspan.
  exists v, rho, alpha, chord, span. injection H as <-. auto 10.
Qed.

(** X24. When the fin estimator returns, the only force is the shear flow
    [q * sin(2a) / 4] for the dynamic pressure
    [q = 0.5 * density * velocity^2 / 144] and the angle of attack [a], so
    its size never exceeds a quarter of [|q|]; the only moment is the shear
    flow times the span; and at an angle of attack of zero every load is
    zero. *)
Theorem X24_fin_loads (geometry fc : list (String.string * R))
  (l : Component.loads) (v rho alpha span : R) :
  Fin.get_loads geometry fc = Component.Return l ->
  Component.lookup fc "velocity"%string = Some v ->
  Component.lookup fc "density"%string = Some rho ->
  Component.lookup fc "angle_of_attack"%string = Some alpha ->
  Component.lookup geometry "span"%string = Some span ->
  let q := 0.5 * rho * v ^ 2 / 144 in
  let shear := nth 2 (Component.forces l) 0 in
  Component.forces l = [0; 0; shear] /\
  Component.moments l = [0; shear * span; 0] /\
  shear = q * sin (2 * (alpha * (PI / 180))) / 4 /\
  Rabs shear <= Rabs q / 4 /\
  (alpha = 0 -> shear = 0).
Proof.
  intros H Hv Hrho Halpha Hspan q shear.
  apply fin_loads_inv in H.
  destruct H as (v' & rho' & alpha' & chord & span' & Hv' & Hrho' & Halpha'
                 & _ & Hspan' & Hl).
  assert (v' = v) by congruence. assert (rho' = rho) by congruence.
  assert (alpha' = alpha) by congruence. assert (span' = span) by congruence.
  subst v' rho' alpha' span'.
  unfold shear. rewrite Hl.
  cbn [Component.forces Component.moments nth]. fold q.
  assert (Hdouble : q * sin (alpha * (PI / 180)) * cos (alpha * (PI / 180)) / 2
                    = q * sin (2 * (alpha * (PI / 180))) / 4).
  { rewrite sin_2a. field. }
  split; [reflexivity |].
  split; [array_eq; field |].
  split; [exact Hdouble |].
  split.
  - rewrite Hdouble. unfold Rdiv.
    rewrite !Rabs_mult, (Rabs_pos_eq (/ 4)) by lra.
    apply Rmult_le_compat_r; [lra |].
    rewrite <- (Rmult_1_r (Rabs q)) at 2.
    apply Rmult_le_compat_l; [apply Rabs_pos |].
    apply Rabs_le. pose proof (SIN_bound (2 * (alpha * (PI / 180)))). lra.
  - intros ->. rewrite Rmult_0_l, sin_0. field.
Qed.

Lemma X24_fin_loads_witness :
  exists l,
    Fin.get_loads
      [("root_chord"%string, 12); ("tip_chord"%string, 6);
       ("span"%string, 6); ("sweep"%string, 30)]
      [("velocity"%string, 100); ("density"%string, 2);
       ("angle_of_attack"%string, 5)] = Component.Return l /\
    Component.moments l = [0; nth 2 (Component.forces l) 0 * 6; 0] /\
    Rabs (nth 2 (Component.forces l) 0) <= Rabs (0.5 * 2 * 100 ^ 2 / 144) / 4.
Proof.
  eexists. split; [reflexivity |].
  edestruct (X24_fin_loads
               [("root_chord"%string, 12); ("tip_chord"%string, 6);
                ("span"%string, 6); ("sweep"%string, 30)]
               [("velocity"%string, 100); ("density"%string, 2);
                ("angle_of_attack"%string, 5)] _ 100 2 5 6 eq_refl eq_refl
               eq_refl eq_refl eq_refl) as (_ & Hm & _ & Hb & _).
  split; [exact Hm | exact Hb].
Defined.

Lemma airframe_loads_shape (geometry fc : list (String.string * R))
  (l : Component.loads) :
  CylindricalAirframe.get_loads geometry fc = Component.Return l ->
  length (Component.forces l) = 3%nat /\ length (Component.moments l) = 3%nat.
Proof.
  unfold CylindricalAirframe.get_loads. intros H.
  apply component_bind_Return in H. destruct H as (d & _ & H).
  apply component_bind_Return in H. destruct H as (Na & _ & H).
  apply component_bind_Return in H. destruct H as (Nb & _ & H).
  injection H as <-. split; reflexivity.
Qed.

(** X25. The loads of every estimator fit the response solve: whatever a
    nose cone, an airframe or a fin returns, [calculate_response] on a
    laminate the constructor built accepts its forces and moments without
    [ValueError]; it returns a response when the matrix [[A, B], [B, D]] is
    non-singular, and the only exception it can raise is [LinAlgError]. *)
Theorem X25_loads_fit_response (geometry fc : list (String.string * R))
  (l : Component.loads) (layup_angles : list R)
  (thicknesses : thicknesses_arg) (mp : Material.dict)
  (self : Self.LaminateAnalysis) :
  NoseCone.get_loads geometry fc = Component.Return l \/
  CylindricalAirframe.get_loads geometry fc = Component.Return l \/
  Fin.get_loads geometry fc = Component.Return l ->
  __init__ layup_angles thicknesses mp = Ok self ->
  (nonsingular (abd_matrix self) ->
   exists e c,
     calculate_response self (Component.forces l) (Component.moments l) =
     Ok (e, c)) /\
  (forall ex,
     calculate_response self (Component.forces l) (Component.moments l) =
     Raise ex -> ex = LinAlgError).
Proof.
  intros Hloads Hinit.
  assert (Hshape : length (Component.forces l) = 3%nat /\
                   length (Component.moments l) = 3%nat).
  { destruct Hloads as [H | [H | H]].
    - apply nosecone_loads_inv in H.
      destruct H as (? & ? & ? & ? & ? & _ & _ & _ & _ & _ & ->).
      split; reflexivity.
    - now apply airframe_loads_shape in H.
    - apply fin_loads_inv in H.
      destruct H as (? & ? & ? & ? & ? & _ & _ & _ & _ & _ & ->).
      split; reflexivity. }
  destruct Hshape as [Hf Hm].
  destruct (init_abd_square _ _ _ _ Hinit) as [Hlen Hsq].
  assert (Hb : length (Component.forces l ++ Component.moments l) =
               length (abd_matrix self)).
  { rewrite length_app, Hf, Hm, Hlen. reflexivity. }
  rewrite (calculate_response_eq self _ _ Hf Hm).
  split.
  - intros Hns.
    destruct (linalg_solve_complete _ _ Hsq Hb Hns) as [x ->].
    cbn [bind]. eauto.
  - intros ex. unfold linalg_solve.
    destruct (gauss _ _); cbn [bind]; intros H; [discriminate |].
    now injection H as <-.
Qed.

Lemma X25_loads_fit_response_witness :
  exists l self e c,
    Fin.get_loads
      [("root_chord"%string, 12); ("span"%string, 6)]
      [("velocity"%string, 100); ("density"%string, 2);
       ("angle_of_attack"%string, 5)] = Component.Return l /\
    __init__ [0] (Number 1) example_material = Ok self /\
    calculate_response self (Component.forces l) (Component.moments l) =
    Ok (e, c).
Proof.
  destruct single_ply_init as [self Hself].
  destruct (X25_loads_fit_response
              [("root_chord"%string, 12); ("span"%string, 6)]
              [("velocity"%string, 100); ("density"%string, 2);
               ("angle_of_attack"%string, 5)] _ _ _ _ self
              (or_intror (or_intror eq_refl)) Hself) as [Hok _].
  destruct (Hok (single_ply_nonsingular self Hself)) as (e & c & Hresp).
  eexists. exists self, e, c.
  split; [reflexivity |]. split; [exact Hself | exact Hresp].
Defined.

(** ** The material catalogue *)

Section Catalogue.
Context {P : Type}.
Implicit Types (db : list (String.string * MaterialDatabase.Material P)).

Lemma dict_get_set_same db (key : String.string)
  (v : MaterialDatabase.Material P) :
  MaterialDatabase.dict_get (MaterialDatabase.dict_set db key v) key = Some v.
Proof.
  induction db as [| [k w] db IH]; simpl.
  - now rewrite String.eqb_refl.
  - destruct (String.eqb_spec k key) as [-> | Hne]; simpl.
    + now rewrite String.eqb_refl.
    + destruct (String.eqb_spec k key); [contradiction | exact IH].
Qed.

Lemma dict_get_set_other db (key other : String.string)
  (v : MaterialDatabase.Material P) :
  other <> key ->
  MaterialDatabase.dict_get (MaterialDatabase.dict_set db key v) other =
  MaterialDatabase.dict_get db other.
Proof.
  intros Hne. induction db as [| [k w] db IH]; simpl.
  - destruct (String.eqb_spec key other); [congruence | reflexivity].
  - destruct (String.eqb_spec k key) as [-> | Hk]; simpl.
    + destruct (String.eqb_spec key other); [congruence | reflexivity].
    + destruct (String.eqb_spec k other); [reflexivity | exact IH].
Qed.

Lemma dict_get_None_iff db (key : String.string) :
  MaterialDatabase.dict_get db key = None <->
  ~ In key (MaterialDatabase.get_material_names db).
Proof.
  induction db as [| [k w] db IH]; simpl.
  - tauto.
  - destruct (String.eqb_spec k key) as [-> | Hk].
    + split; [discriminate | intros H; exfalso; apply H; now left].
    + rewrite IH. tauto.
Qed.

Lemma names_dict_set db (key : String.string)
  (v : MaterialDatabase.Material P) :
  MaterialDatabase.get_material_names (MaterialDatabase.dict_set db key v) =
  match MaterialDatabase.dict_get db key with
  | Some _ => MaterialDatabase.get_material_names db
  | None => MaterialDatabase.get_material_names db ++ [key]
  end.
Proof.
  unfold MaterialDatabase.get_material_names.
  induction db as [| [k w] db IH]; simpl; [reflexivity |].
  destruct (String.eqb_spec k key) as [-> | Hk]; simpl; [reflexivity |].
  rewrite IH.
  now destruct (MaterialDatabase.dict_get db key).
Qed.

Lemma NoDup_remove_key (l : list String.string) (key : String.string) :
  NoDup l -> NoDup (remove String.string_dec key l).
Proof.
  induction 1 as [| x l Hnotin Hnd IH]; simpl; [constructor |].
  destruct (String.string_dec key x); [exact IH |].
  constructor; [| exact IH].
  intros Hin. apply in_remove in Hin. tauto.
Qed.

Lemma names_dict_del db (key : String.string) :
  NoDup (MaterialDatabase.get_material_names db) ->
  MaterialDatabase.get_material_names (MaterialDatabase.dict_del db key) =
  remove String.string_dec key (MaterialDatabase.get_material_names db).
Proof.
  induction db as [| [k w] db IH]; simpl; intros Hnd; [reflexivity |].
  inversion Hnd as [| ? ? Hnotin Hnd']; subst.
  destruct (String.eqb_spec k key) as [-> | Hk].
  - destruct (String.string_dec key key); [| congruence].
    symmetry. now apply notin_remove.
  - destruct (String.string_dec key k); [congruence |].
    simpl. f_equal. now apply IH.
Qed.

Lemma dict_get_del_other db (key other : String.string) :
  other <> key ->
  MaterialDatabase.dict_get (MaterialDatabase.dict_del db key) other =
  MaterialDatabase.dict_get db other.
Proof.
  intros Hne. induction db as [| [k w] db IH]; simpl; [reflexivity |].
  destruct (String.eqb_spec k key) as [-> | Hk]; simpl.
  - destruct (String.eqb_spec key other); [congruence | reflexivity].
  - destruct (String.eqb_spec k other); [reflexivity | exact IH].
Qed.

(** X26. After [add_material], [get_material] under the material's name
    returns that material, and every other name returns what it returned
    before. A new name is added at the end of [get_material_names]; a name
    already in the catalogue keeps its place and the list is unchanged. *)
Theorem X26_add_then_get db (m : MaterialDatabase.Material P) :
  let db' := MaterialDatabase.add_material db m in
  MaterialDatabase.get_material db' (MaterialDatabase.name m) = Some m /\
  (forall other : String.string,
     other <> MaterialDatabase.name m ->
     MaterialDatabase.get_material db' other =
     MaterialDatabase.get_material db other) /\
  (MaterialDatabase.get_material db (MaterialDatabase.name m) = None ->
   MaterialDatabase.get_material_names db' =
   MaterialDatabase.get_material_names db ++ [MaterialDatabase.name m]) /\
  (MaterialDatabase.get_material db (MaterialDatabase.name m) <> None ->
   MaterialDatabase.get_material_names db' =
   MaterialDatabase.get_material_names db).
Proof.
  intros db'. unfold db', MaterialDatabase.add_material,
    MaterialDatabase.get_material.
  split; [apply dict_get_set_same |].
  split; [intros other Hne; now apply dict_get_set_other |].
  rewrite names_dict_set.
  destruct (MaterialDatabase.dict_get db (MaterialDatabase.name m));
    split; intros H; congruence.
Qed.

(** X27. In a catalogue with distinct names, [delete_material] returns
    [True] exactly when the name is in the catalogue; afterwards
    [get_material] finds nothing under that name, every other name returns
    what it returned before, and [get_material_names] is the old list
    without the name. When it returns [False] the catalogue is unchanged. *)
Theorem X27_delete_material db (key : String.string) :
  NoDup (MaterialDatabase.get_material_names db) ->
  let db' := fst (MaterialDatabase.delete_material db key) in
  let deleted := snd (MaterialDatabase.delete_material db key) in
  (deleted = true <-> In key (MaterialDatabase.get_material_names db)) /\
  MaterialDatabase.get_material db' key = None /\
  (forall other : String.string,
     other <> key ->
     MaterialDatabase.get_material db' other =
     MaterialDatabase.get_material db other) /\
  MaterialDatabase.get_material_names db' =
    remove String.string_dec key (MaterialDatabase.get_material_names db) /\
  (deleted = false -> db' = db).
Proof.
  intros Hnd db' deleted.
  unfold db', deleted, MaterialDatabase.delete_material,
    MaterialDatabase.get_material.
  pose proof (dict_get_None_iff db key) as Hnone.
  destruct (MaterialDatabase.dict_get db key) as [m |] eqn:Hget;
    cbn [fst snd].
  - assert (Hin : In key (MaterialDatabase.get_material_names db)).
    { destruct (in_dec String.string_dec key
                  (MaterialDatabase.get_material_names db)) as [Hin | Hnot];
        [exact Hin |].
      apply Hnone in Hnot. discriminate. }
    split; [tauto |].
    split.
    + apply dict_get_None_iff. rewrite names_dict_del by exact Hnd.
      apply remove_In.
    + split; [intros other Hne; now apply dict_get_del_other |].
      split; [now apply names_dict_del | discriminate].
  - assert (Hnot : ~ In key (MaterialDatabase.get_material_names db))
      by now apply Hnone.
    split; [split; [discriminate | contradiction] |].
    split; [exact Hget |].
    split; [reflexivity |].
    split; [symmetry; now apply notin_remove | reflexivity].
Qed.

(** X28. The names of a catalogue stay distinct: if they are distinct
    before [add_material] or [delete_material], they are distinct after. *)
Theorem X28_names_stay_distinct db (m : MaterialDatabase.Material P)
  (key : String.string) :
  NoDup (MaterialDatabase.get_material_names db) ->
  NoDup (MaterialDatabase.get_material_names
           (MaterialDatabase.add_material db m)) /\
  NoDup (MaterialDatabase.get_material_names
           (fst (MaterialDatabase.delete_material db key))).
Proof.
  intros Hnd. split.
  - unfold MaterialDatabase.add_material. rewrite names_dict_set.
    destruct (MaterialDatabase.dict_get db (MaterialDatabase.name m))
      eqn:Hget; [exact Hnd |].
    apply dict_get_None_iff in Hget.
    apply NoDup_app; [exact Hnd | repeat constructor; intros [] |].
    intros x Hx [Heq | []]. subst x. contradiction.
  - unfold MaterialDatabase.delete_material.
    destruct (MaterialDatabase.dict_get db key); cbn [fst]; [| exact Hnd].
    rewrite names_dict_del by exact Hnd.
    now apply NoDup_remove_key.
Qed.
End Catalogue.

Lemma example_catalogue_distinct :
  NoDup (MaterialDatabase.get_material_names example_catalogue).
Proof.
  repeat constructor; simpl; intuition discriminate.
Qed.

Lemma X27_delete_material_witness :
  snd (MaterialDatabase.delete_material example_catalogue "glass"%string) =
    true /\
  MaterialDatabase.get_material
    (fst (MaterialDatabase.delete_material example_catalogue "glass"%string))
    "glass"%string = None /\
  MaterialDatabase.get_material_names
    (fst (MaterialDatabase.delete_material example_catalogue "glass"%string)) =
    ["carbon"%string].
Proof.
  destruct (X27_delete_material example_catalogue "glass"%string
              example_catalogue_distinct) as (Hdel & Hget & _ & _ & _).
  split; [apply Hdel; simpl; auto |].
  split; [exact Hget | reflexivity].
Defined.

Lemma X28_names_stay_distinct_witness :
  NoDup (MaterialDatabase.get_material_names
           (MaterialDatabase.add_material example_catalogue
              {| MaterialDatabase.name := "kevlar"%string;
                 MaterialDatabase.properties := 3 |})) /\
  NoDup (MaterialDatabase.get_material_names
           (fst (MaterialDatabase.delete_material example_catalogue
                   "carbon"%string))).
Proof.
  exact (X28_names_stay_distinct example_catalogue
           {| MaterialDatabase.name := "kevlar"%string;
              MaterialDatabase.properties := 3 |}
           "carbon"%string example_catalogue_distinct).
Defined.

(** ** Equilibrium of the recovered stresses *)

Lemma sum_over_plies_plus (f g : nat -> R) (k : nat) :
  sum_over_plies (fun p => f p + g p) k =
  sum_over_plies f k + sum_over_plies g k.
Proof.
  induction k as [| k IH]; simpl; [ring |]. rewrite IH. ring.
Qed.

Lemma init_Q_bar_shape (layup_angles : list R)
  (thicknesses : thicknesses_arg) (mp : Material.dict)
  (self : Self.LaminateAnalysis) (ply : nat) :
  __init__ layup_angles thicknesses mp = Ok self ->
  (ply < Self.k self)%nat ->
  shape3 (nth ply (Self.Q_bar self) []).
Proof.
  intros Hinit Hply.
  destruct (init_inv _ _ _ _ Hinit)
    as (_ & _ & _ & Hth & _ & Hk & _ & HQ & _ & _ & _ & HQb & _).
  rewrite HQb, Hth.
  rewrite (nth_map_in _ _ ply 0) by (rewrite length_map; lia).
  rewrite HQ. apply shape3_literal.
Qed.

(** The thickness-weighted mid-plane stress of one ply, in terms of what the
    ply adds to A and B. *)
Lemma ply_stress_resultant (layup_angles : list R)
  (thicknesses : thicknesses_arg) (mp : Material.dict)
  (self : Self.LaminateAnalysis) (e0 e1 e2 c0 c1 c2 : R) (p i : nat) :
  __init__ layup_angles thicknesses mp = Ok self ->
  (p < Self.k self)%nat -> (i < 3)%nat ->
  nth p (Self.t self) 0 *
  nth i (matvec (nth p (Self.Q_bar self) [])
           (vadd [e0; e1; e2] (vscale (nth p (Self.z_m self) 0) [c0; c1; c2])))
        0 =
  e0 * A_term (Self.Q_bar self) (Self.t self) i 0 p +
  e1 * A_term (Self.Q_bar self) (Self.t self) i 1 p +
  e2 * A_term (Self.Q_bar self) (Self.t self) i 2 p +
  c0 * B_term (Self.Q_bar self) (Self.t self) (Self.z self) i 0 p +
  c1 * B_term (Self.Q_bar self) (Self.t self) (Self.z self) i 1 p +
  c2 * B_term (Self.Q_bar self) (Self.t self) (Self.z self) i 2 p.
Proof.
  intros Hinit Hp Hi.
  destruct (init_inv _ _ _ _ Hinit)
    as (_ & _ & _ & _ & _ & _ & _ & _ & Hz & _).
  apply z_coordinates_spec in Hz. destruct Hz as (Hk & _ & _ & Hzs).
  destruct (Hzs p Hp) as [Hzp Hzmp].
  assert (Hmid : nth p (Self.z_m self) 0 =
                 nth p (Self.z self) 0 - nth p (Self.t self) 0 / 2).
  { rewrite Hzp, Hzmp, np_sum_firstn_S by lia. field. }
  rewrite Hmid. unfold A_term, B_term.
  destruct (shape3_inv _ (init_Q_bar_shape _ _ _ self p Hinit Hp))
    as (q00 & q01 & q02 & q10 & q11 & q12 & q20 & q21 & q22 & ->).
  generalize (nth p (Self.z self) 0) (nth p (Self.t self) 0). intros z t.
  destruct i as [| [| [| i]]]; try lia;
    unfold matvec, vscale, mget;
    cbn [map dot vadd nth pow]; lra.
Qed.

(** X29. Force equilibrium of the recovered stresses. When
    [calculate_response] returns the strains and curvatures for a load, the
    global stresses that ply recovery returns for the plies [1 .. k], each
    multiplied by the thickness of its ply, add up to the applied forces,
    component by component. *)
Theorem X29_stress_resultants_are_the_forces (layup_angles : list R)
  (thicknesses : thicknesses_arg) (mp : Material.dict)
  (self : Self.LaminateAnalysis) (forces moments e c : vector)
  (stress : nat -> vector) :
  __init__ layup_angles thicknesses mp = Ok self ->
  calculate_response self forces moments = Ok (e, c) ->
  (forall p : nat, (p < Self.k self)%nat ->
     exists global_strain local_strain local_stress,
       calculate_ply_strains_stresses self e c (Z.of_nat p + 1) =
       Ok (global_strain, stress p, local_strain, local_stress)) ->
  forall i : nat, (i < 3)%nat ->
    nth i forces 0 =
    sum_over_plies (fun p => nth p (Self.t self) 0 * nth i (stress p) 0)
                   (Self.k self).
Proof.
  intros Hinit Hresp Hstress i Hi.
  destruct (calculate_response_inv _ _ _ _ _ _ _ _ Hinit Hresp)
    as (Hf & Hm & He & Hc & _ & HM).
  destruct (init_abd_spec _ _ _ _ Hinit) as (HsA & HsB & HsD & Hentries).
  destruct (length3_inv e He) as (e0 & e1 & e2 & ->).
  destruct (length3_inv c Hc) as (c0 & c1 & c2 & ->).
  rewrite (sum_over_plies_ext _
    (fun p =>
       e0 * A_term (Self.Q_bar self) (Self.t self) i 0 p +
       e1 * A_term (Self.Q_bar self) (Self.t self) i 1 p +
       e2 * A_term (Self.Q_bar self) (Self.t self) i 2 p +
       c0 * B_term (Self.Q_bar self) (Self.t self) (Self.z self) i 0 p +
       c1 * B_term (Self.Q_bar self) (Self.t self) (Self.z self) i 1 p +
       c2 * B_term (Self.Q_bar self) (Self.t self) (Self.z self) i 2 p)).
  - rewrite !sum_over_plies_plus, !sum_over_plies_scale.
    destruct (Hentries i 0%nat Hi ltac:(lia)) as (<- & <- & _).
    destruct (Hentries i 1%nat Hi ltac:(lia)) as (<- & <- & _).
    destruct (Hentries i 2%nat Hi ltac:(lia)) as (<- & <- & _).
    unfold abd_matrix in HM.
    rewrite (matrix3_eta _ HsA), (matrix3_eta _ HsB), (matrix3_eta _ HsD)
      in HM.
    destruct (length3_inv forces Hf) as (f0 & f1 & f2 & ->).
    destruct (length3_inv moments Hm) as (m0 & m1 & m2 & ->).
    cbv [np_block hstack app matvec map dot] in HM.
    injection HM as H0 H1 H2 _ _ _.
    destruct i as [| [| [| i]]]; try lia; cbn [nth];
      [rewrite <- H0 | rewrite <- H1 | rewrite <- H2]; ring.
  - intros p Hp.
    destruct (Hstress p Hp) as (gs & ls & lst & Hrec).
    rewrite (recovery_in_range _ _ _ self _ _ _ Hinit He Hc) in Hrec by lia.
    replace (Z.to_nat (Z.of_nat p + 1 - 1)) with p in Hrec by lia.
    injection Hrec as _ Hst _ _. rewrite <- Hst.
    now apply (ply_stress_resultant _ _ _ self _ _ _ _ _ _ p i Hinit).
Qed.

Lemma X29_stress_resultants_are_the_forces_witness :
  exists self e c,
    __init__ [0] (Number 1) example_material = Ok self /\
    calculate_response self [1; 2; 3] [4; 5; 6] = Ok (e, c) /\
    nth 0 [1; 2; 3] 0 =
    sum_over_plies
      (fun p =>
         nth p (Self.t self) 0 *
         nth 0 (matvec (nth p (Self.Q_bar self) [])
                  (vadd e (vscale (nth p (Self.z_m self) 0) c))) 0)
      (Self.k self).
Proof.
  destruct single_ply_init as [self Hself].
  destruct (single_ply_response self [1; 2; 3] [4; 5; 6] Hself eq_refl eq_refl)
    as (e & c & Hresp).
  exists self, e, c. split; [exact Hself |]. split; [exact Hresp |].
  apply (X29_stress_resultants_are_the_forces _ _ _ self [1; 2; 3] [4; 5; 6]
           e c
           (fun p => matvec (nth p (Self.Q_bar self) [])
                       (vadd e (vscale (nth p (Self.z_m self) 0) c)))
           Hself Hresp); [| lia].
  intros p Hp.
  destruct (calculate_response_inv _ _ _ _ _ _ _ _ Hself Hresp)
    as (_ & _ & He & Hc & _).
  rewrite (recovery_in_range _ _ _ self e c _ Hself He Hc) by lia.
  replace (Z.to_nat (Z.of_nat p + 1 - 1)) with p by lia.
  do 3 eexists. reflexivity.
Defined.
